(** * Self-healing decision engine: a shallow embedding and its properties

    The development embeds the reinforcement-learning action selector of
    [backend/ml/self_healing_orchestrator.py] and the recommendation and
    decay machinery of [backend/ml/continuous_learning.py].

    Conventions of the embedding:
    - Python floats are modelled by exact rationals [Q]; equalities between
      computed floats are stated with [==] (Qeq).  Rounding, NaN and
      infinities are outside the model.
    - Random draws and wall-clock readings are explicit arguments.
    - A Python exception is a value of [exn]; a computation that can raise
      returns a [result]; code that mutates [self] before raising returns
      the mutated state together with the exception. *)

From Stdlib Require Import ZArith QArith Qround Qminmax Qpower Lqa Lia List String
  Sorted.
From stdpp Require Import base option list gmap strings.

Local Open Scope Z_scope.

(** ** Python and numpy primitives *)

Module Py.

(** Exceptions that the modelled code can raise. *)
Inductive exn : Type :=
| IndexError
| ValueError
| TypeError
| ExecutorError (msg : string).

Inductive result (A : Type) : Type :=
| Ok (a : A)
| Raise (e : exn).
Arguments Ok {A} a.
Arguments Raise {A} e.

Definition rbind {A B} (r : result A) (k : A -> result B) : result B :=
  match r with
  | Ok a => k a
  | Raise e => Raise e
  end.

(** [int(x)] on a float truncates toward zero. *)
Definition int (x : Q) : Z := Z.quot (Qnum x) (Z.pos (Qden x)).

Definition Qltb (x y : Q) : bool := negb (Qle_bool y x).

(** [xs[i]] on a Python list or a numpy axis: a negative index counts from
    the end, anything outside [-len, len) raises IndexError. *)
Definition index {A} (xs : list A) (i : Z) : result A :=
  let n := Z.of_nat (length xs) in
  let j := if i <? 0 then n + i else i in
  if (0 <=? j) && (j <? n) then
    match xs !! Z.to_nat j with
    | Some x => Ok x
    | None => Raise IndexError
    end
  else Raise IndexError.

(** [xs[i] = v], with the same index convention. *)
Definition set_index {A} (xs : list A) (i : Z) (v : A) : result (list A) :=
  let n := Z.of_nat (length xs) in
  let j := if i <? 0 then n + i else i in
  if (0 <=? j) && (j <? n) then Ok (<[Z.to_nat j := v]> xs)
  else Raise IndexError.

(** [xs[-w:]]: the last [w] elements; [xs[-0:]] is the whole list. *)
Definition last_n {A} (w : nat) (xs : list A) : list A :=
  match w with
  | O => xs
  | _ => drop (length xs - w) xs
  end.

(** [deque(maxlen=m).append(x)]: the oldest element is dropped when full. *)
Definition deque_append {A} (m : nat) (xs : list A) (x : A) : list A :=
  let ys := xs ++ [x] in
  if (m <? length ys)%nat then drop 1 ys else ys.

(** [sum(xs)] over floats. *)
Definition sum (xs : list Q) : Q := fold_left Qplus xs 0%Q.

(** [np.mean(xs)] of a non-empty list. *)
Definition mean (xs : list Q) : Q := (sum xs / inject_Z (Z.of_nat (length xs)))%Q.

(** [np.argmax(row)]: index of the first occurrence of the maximum;
    numpy raises ValueError on an empty sequence. *)
Fixpoint argmax_from (best_i : nat) (best_v : Q) (i : nat) (xs : list Q) : nat :=
  match xs with
  | [] => best_i
  | x :: xs' =>
      if Qltb best_v x then argmax_from i x (S i) xs'
      else argmax_from best_i best_v (S i) xs'
  end.

Definition argmax (row : list Q) : result nat :=
  match row with
  | [] => Raise ValueError
  | x :: xs => Ok (argmax_from 0%nat x 1%nat xs)
  end.

(** [list.sort(key=..., reverse=True)]: a stable sort into non-increasing
    key order; elements with equal keys keep their relative order. *)
Section Sort.
Context {A : Type} (key : A -> Q).

Fixpoint insert_desc (x : A) (l : list A) : list A :=
  match l with
  | [] => [x]
  | y :: l' =>
      if Qle_bool (key y) (key x) then x :: y :: l'
      else y :: insert_desc x l'
  end.

Definition sort_desc (l : list A) : list A := foldr insert_desc [] l.
End Sort.

End Py.

Import Py.

Declare Scope result_scope.
Delimit Scope result_scope with result.
Notation "x <- c1 ;; c2" := (rbind c1 (fun x => c2))
  (at level 100, c1 at next level, right associativity) : result_scope.

(** ** Data model ([self_healing_orchestrator.py], lines 62-121) *)

Inductive FailureType : Type :=
| CPU_OVERLOAD | MEMORY_LEAK | DISK_FULL | NETWORK_TIMEOUT
| SERVICE_CRASH | DATABASE_ERROR | API_RATE_LIMIT | UNKNOWN.

Inductive HealingAction : Type :=
| RESTART_SERVICE | SCALE_UP | SCALE_DOWN | CLEAR_CACHE | RESTART_COMPONENT
| FAILOVER | THROTTLE_REQUESTS | ALLOCATE_RESOURCES | NO_ACTION.

Inductive Priority : Type := CRITICAL | HIGH | MEDIUM | LOW.

#[global] Instance FailureType_eq_dec : EqDecision FailureType.
Proof. solve_decision. Defined.
#[global] Instance HealingAction_eq_dec : EqDecision HealingAction.
Proof. solve_decision. Defined.
#[global] Instance Priority_eq_dec : EqDecision Priority.
Proof. solve_decision. Defined.

(** [list(FailureType)] and [list(HealingAction)]: definition order. *)
Definition FailureType_list : list FailureType :=
  [CPU_OVERLOAD; MEMORY_LEAK; DISK_FULL; NETWORK_TIMEOUT;
   SERVICE_CRASH; DATABASE_ERROR; API_RATE_LIMIT; UNKNOWN].

Definition HealingAction_list : list HealingAction :=
  [RESTART_SERVICE; SCALE_UP; SCALE_DOWN; CLEAR_CACHE; RESTART_COMPONENT;
   FAILOVER; THROTTLE_REQUESTS; ALLOCATE_RESOURCES; NO_ACTION].

(** [list(E).index(x)]: position of the first element equal to [x]. *)
Fixpoint list_index `{EqDecision A} (x : A) (l : list A) : nat :=
  match l with
  | [] => 0%nat
  | y :: l' => if decide (y = x) then 0%nat else S (list_index x l')
  end.

(** [str(member)] of a plain [Enum]: class name, a dot, member name. *)
Definition FailureType_str (t : FailureType) : string :=
  match t with
  | CPU_OVERLOAD => "FailureType.CPU_OVERLOAD"
  | MEMORY_LEAK => "FailureType.MEMORY_LEAK"
  | DISK_FULL => "FailureType.DISK_FULL"
  | NETWORK_TIMEOUT => "FailureType.NETWORK_TIMEOUT"
  | SERVICE_CRASH => "FailureType.SERVICE_CRASH"
  | DATABASE_ERROR => "FailureType.DATABASE_ERROR"
  | API_RATE_LIMIT => "FailureType.API_RATE_LIMIT"
  | UNKNOWN => "FailureType.UNKNOWN"
  end.

Definition HealingAction_str (a : HealingAction) : string :=
  match a with
  | RESTART_SERVICE => "HealingAction.RESTART_SERVICE"
  | SCALE_UP => "HealingAction.SCALE_UP"
  | SCALE_DOWN => "HealingAction.SCALE_DOWN"
  | CLEAR_CACHE => "HealingAction.CLEAR_CACHE"
  | RESTART_COMPONENT => "HealingAction.RESTART_COMPONENT"
  | FAILOVER => "HealingAction.FAILOVER"
  | THROTTLE_REQUESTS => "HealingAction.THROTTLE_REQUESTS"
  | ALLOCATE_RESOURCES => "HealingAction.ALLOCATE_RESOURCES"
  | NO_ACTION => "HealingAction.NO_ACTION"
  end.

Record FailureEvent : Type := {
  failure_type : FailureType;
  severity : Q;                       (* documented range: 0.0 to 1.0 *)
  affected_components : list string;
  metrics : list (string * Q);
  timestamp : Q;                      (* seconds *)
  event_id : string
}.

(** ** State/action codec (lines 288-296) *)

Definition encode_state (failure_event : FailureEvent) : Z :=
  let failure_type_idx :=
    Z.of_nat (list_index (failure_type failure_event) FailureType_list) in
  let severity_level := Z.min 4 (Py.int (severity failure_event * 5)) in
  failure_type_idx * 5 + severity_level.

Definition decode_action (action_idx : Z) : result HealingAction :=
  Py.index HealingAction_list action_idx.

(** The encoding as the specification words it: clamp the severity to
    [0,1] first, then bucket with floor. *)
Definition clamp01 (x : Q) : Q := Qmax 0 (Qmin 1 x).

Definition encode_state_spec (t : FailureType) (sev : Q) : Z :=
  Z.of_nat (list_index t FailureType_list) * 5
  + Z.min 4 (Qfloor (clamp01 sev * 5)).

(** ** Q-learning agent (lines 24-54) *)

Record QLearningAgent : Type := {
  n_states : nat;
  n_actions : nat;
  learning_rate : Q;
  discount_factor : Q;
  epsilon : Q;
  q_table : list (list Q);
  state_action_counts : list (list Q)
}.

(** [np.zeros((n, m))]. *)
Definition zeros (n m : nat) : list (list Q) := replicate n (replicate m 0%Q).

Definition QLearningAgent_init (n_states n_actions : nat)
    (learning_rate discount_factor epsilon : Q) : QLearningAgent :=
  {| n_states := n_states;
     n_actions := n_actions;
     learning_rate := learning_rate;
     discount_factor := discount_factor;
     epsilon := epsilon;
     q_table := zeros n_states n_actions;
     state_action_counts := zeros n_states n_actions |}.

(** [choose_action]: [draw] is the value of [np.random.random()], a float
    in [0,1), and [rand_action] the value of [np.random.randint(n_actions)]. *)
Definition choose_action (ag : QLearningAgent) (draw : Q) (rand_action : nat)
    (state : Z) : result nat :=
  if Qltb draw (epsilon ag) then Ok rand_action
  else (row <- Py.index (q_table ag) state ;; argmax row)%result.

(** [table[state][action] = v]. *)
Definition set_cell (table : list (list Q)) (state action : Z) (v : Q)
    : result (list (list Q)) :=
  (row <- Py.index table state ;;
   row' <- Py.set_index row action v ;;
   Py.set_index table state row')%result.

Definition get_cell (table : list (list Q)) (state action : Z) : result Q :=
  (row <- Py.index table state ;; Py.index row action)%result.

Definition update_q_value (ag : QLearningAgent) (state action : Z)
    (reward : Q) (next_state : Z) : result QLearningAgent :=
  (next_row <- Py.index (q_table ag) next_state ;;
   best_next_action <- argmax next_row ;;
   q_next <- Py.index next_row (Z.of_nat best_next_action) ;;
   let td_target := (reward + discount_factor ag * q_next)%Q in
   q_old <- get_cell (q_table ag) state action ;;
   let td_error := (td_target - q_old)%Q in
   q_table' <- set_cell (q_table ag) state action
                 (q_old + learning_rate ag * td_error)%Q ;;
   c_old <- get_cell (state_action_counts ag) state action ;;
   counts' <- set_cell (state_action_counts ag) state action (c_old + 1)%Q ;;
   Ok {| n_states := n_states ag;
         n_actions := n_actions ag;
         learning_rate := learning_rate ag;
         discount_factor := discount_factor ag;
         epsilon := epsilon ag;
         q_table := q_table';
         state_action_counts := counts' |})%result.

Definition decay_epsilon (ag : QLearningAgent) (decay_rate : Q) : QLearningAgent :=
  {| n_states := n_states ag;
     n_actions := n_actions ag;
     learning_rate := learning_rate ag;
     discount_factor := discount_factor ag;
     epsilon := Qmax (1 # 100) (epsilon ag * decay_rate);
     q_table := q_table ag;
     state_action_counts := state_action_counts ag |}.

(** [n] successive TD updates of one cell with a constant reward and
    [next_state = state], as [handle_failure] issues them. *)
Fixpoint repeat_update (n : nat) (ag : QLearningAgent) (state action : Z)
    (reward : Q) : result QLearningAgent :=
  match n with
  | O => Ok ag
  | S n' =>
      (ag' <- repeat_update n' ag state action reward ;;
       update_q_value ag' state action reward state)%result
  end.

(** ** Responses and results (lines 102-121) *)

Inductive param_value : Type :=
| PNum (q : Q)
| PBool (b : bool)
| PStr (s : string)
| PStrs (l : list string).

Record HealingResponse : Type := {
  action : HealingAction;
  parameters : list (string * param_value);
  priority : Priority;
  estimated_duration : Q;
  success_probability : Q;
  resource_cost : Q;
  response_id : string
}.

Record HealingResult : Type := {
  result_response_id : string;
  success : bool;
  actual_duration : Q;
  improvement_metrics : list (string * Q);
  side_effects : list string;
  result_timestamp : Q
}.

(** ** Reward shaping (lines 298-316) *)

Definition calculate_reward (healing_result : HealingResult)
    (failure_severity : Q) : Q :=
  let base_reward := if success healing_result then 1%Q else (-1)%Q in
  let severity_bonus := (failure_severity * (1 # 2))%Q in
  let time_penalty := Qmin (1 # 2) (actual_duration healing_result / 300) in
  let improvement_bonus :=
    (Py.sum (map snd (improvement_metrics healing_result)) * (1 # 10))%Q in
  let side_effect_penalty :=
    (inject_Z (Z.of_nat (length (side_effects healing_result))) * (1 # 10))%Q in
  let reward :=
    (base_reward + severity_bonus - time_penalty + improvement_bonus
     - side_effect_penalty)%Q in
  Qmax (-2) (Qmin 2 reward).

(** The reward as the specification words it. *)
Definition clamp (x lo hi : Q) : Q :=
  if Qltb x lo then lo else if Qltb hi x then hi else x.

Fixpoint sigma (xs : list Q) : Q :=
  match xs with
  | [] => 0%Q
  | x :: xs' => (x + sigma xs')%Q
  end.

Definition reward_spec (healing_result : HealingResult) (sev : Q) : Q :=
  clamp ((if success healing_result then 1 else -1)
         + sev * (5 # 10)
         - Qmin (5 # 10) (actual_duration healing_result / 300)
         + (1 # 10) * sigma (map snd (improvement_metrics healing_result))
         - (1 # 10) * inject_Z (Z.of_nat (length (side_effects healing_result))))%Q
        (-2) 2.

(** ** Orchestrator state (lines 129-255) *)

(** A state-and-exception monad over the mutable object [self]: a method
    that raises leaves the mutations made so far in place. *)
Definition M (S A : Type) : Type := S -> S * result A.

Definition mret {S A} (a : A) : M S A := fun s => (s, Ok a).

Definition mbind {S A B} (m : M S A) (k : A -> M S B) : M S B :=
  fun s =>
    match m s with
    | (s', Ok a) => k a s'
    | (s', Raise e) => (s', Raise e)
    end.

Definition mget {S} : M S S := fun s => (s, Ok s).
Definition mmodify {S} (f : S -> S) : M S unit := fun s => (f s, Ok tt).
Definition mlift {S A} (r : result A) : M S A := fun s => (s, r).

Declare Scope monad_scope.
Delimit Scope monad_scope with monad.
Notation "x <- c1 ;; c2" := (mbind c1 (fun x => c2))
  (at level 100, c1 at next level, right associativity) : monad_scope.
Notation "c1 ;;; c2" := (mbind c1 (fun _ => c2))
  (at level 100, right associativity) : monad_scope.

Record Counters : Type := { successes : nat; attempts : nat }.

Inductive Pattern : Type :=
| recurring_failure (pattern_failure_type : FailureType)
    (average_interval : Q) (frequency : nat)
| component_hotspot (component : string) (failure_count : nat)
    (failure_types : list FailureType).

Record PatternSample : Type := {
  sample_timestamp : Q;
  sample_severity : Q;
  sample_metrics : list (string * Q);
  sample_components : list string
}.

Record HealingRecord : Type := {
  rec_failure_event : FailureEvent;
  rec_healing_response : HealingResponse;
  rec_healing_result : HealingResult;
  rec_patterns_detected : list Pattern;
  rec_timestamp : Q
}.

Record LearningData : Type := {
  ld_failure_type : FailureType;
  ld_severity : Q;
  ld_action_taken : HealingAction;
  ld_success : bool;
  ld_improvement : Q;
  ld_patterns : list Pattern;
  ld_timestamp : Q
}.

Record Config : Type := {
  cfg_learning_rate : Q;
  cfg_discount_factor : Q;
  cfg_epsilon : Q;
  cfg_epsilon_decay : Q;
  healing_strategies : FailureType -> option (list HealingAction);
  action_parameters : HealingAction -> option (list (string * param_value));
  critical_severity : Q;
  high_severity : Q;
  medium_severity : Q;
  pattern_window : nat;
  min_pattern_frequency : nat
}.

Definition default_healing_strategies (t : FailureType)
    : option (list HealingAction) :=
  match t with
  | CPU_OVERLOAD => Some [SCALE_UP; THROTTLE_REQUESTS; RESTART_SERVICE]
  | MEMORY_LEAK => Some [RESTART_SERVICE; CLEAR_CACHE; SCALE_UP]
  | DISK_FULL => Some [CLEAR_CACHE; ALLOCATE_RESOURCES; SCALE_UP]
  | NETWORK_TIMEOUT => Some [RESTART_COMPONENT; FAILOVER; THROTTLE_REQUESTS]
  | SERVICE_CRASH => Some [RESTART_SERVICE; FAILOVER; SCALE_UP]
  | DATABASE_ERROR => Some [RESTART_COMPONENT; FAILOVER; CLEAR_CACHE]
  | API_RATE_LIMIT => Some [THROTTLE_REQUESTS; SCALE_UP; NO_ACTION]
  | UNKNOWN => None
  end.

Definition default_action_parameters (a : HealingAction)
    : option (list (string * param_value)) :=
  match a with
  | RESTART_SERVICE =>
      Some [("timeout", PNum 30); ("graceful", PBool true);
            ("max_attempts", PNum 3)]
  | SCALE_UP =>
      Some [("scale_factor", PNum (3 # 2)); ("max_instances", PNum 10);
            ("cooldown", PNum 300)]
  | SCALE_DOWN =>
      Some [("scale_factor", PNum (7 # 10)); ("min_instances", PNum 1);
            ("cooldown", PNum 300)]
  | CLEAR_CACHE =>
      Some [("cache_types", PStrs ["memory"; "disk"]);
            ("preserve_critical", PBool true)]
  | FAILOVER =>
      Some [("target_region", PStr "backup");
            ("health_check_timeout", PNum 60)]
  | THROTTLE_REQUESTS =>
      Some [("throttle_rate", PNum (1 # 2)); ("duration", PNum 300);
            ("prioritize_critical", PBool true)]
  | _ => None
  end%string.

Definition _default_config : Config :=
  {| cfg_learning_rate := 1 # 10;
     cfg_discount_factor := 9 # 10;
     cfg_epsilon := 2 # 10;
     cfg_epsilon_decay := 995 # 1000;
     healing_strategies := default_healing_strategies;
     action_parameters := default_action_parameters;
     critical_severity := 8 # 10;
     high_severity := 6 # 10;
     medium_severity := 4 # 10;
     pattern_window := 100;
     min_pattern_frequency := 3 |}.

Record Orchestrator : Type := {
  config : Config;
  failure_history : list FailureEvent;          (* deque(maxlen=1000) *)
  healing_history : list HealingRecord;         (* deque(maxlen=1000) *)
  rl_agent : QLearningAgent;
  failure_patterns : FailureType -> list PatternSample;   (* defaultdict(list) *)
  healing_success_rates : gmap string Counters; (* defaultdict of zero counters *)
  response_times : HealingAction -> list Q;     (* defaultdict(list) *)
  resource_usage : HealingAction -> list Q;     (* defaultdict(list) *)
  failure_learning_data : list LearningData
}.

Definition Orchestrator_init (cfg : Config) : Orchestrator :=
  {| config := cfg;
     failure_history := [];
     healing_history := [];
     rl_agent :=
       QLearningAgent_init (length FailureType_list * 5) (length HealingAction_list)
         (cfg_learning_rate cfg) (cfg_discount_factor cfg) (cfg_epsilon cfg);
     failure_patterns := fun _ => [];
     healing_success_rates := ∅;
     response_times := fun _ => [];
     resource_usage := fun _ => [];
     failure_learning_data := [] |}.

(** Field setters. *)
Definition set_failure_history (v : list FailureEvent) (s : Orchestrator) :=
  {| config := config s; failure_history := v;
     healing_history := healing_history s; rl_agent := rl_agent s;
     failure_patterns := failure_patterns s;
     healing_success_rates := healing_success_rates s;
     response_times := response_times s; resource_usage := resource_usage s;
     failure_learning_data := failure_learning_data s |}.

Definition set_healing_history (v : list HealingRecord) (s : Orchestrator) :=
  {| config := config s; failure_history := failure_history s;
     healing_history := v; rl_agent := rl_agent s;
     failure_patterns := failure_patterns s;
     healing_success_rates := healing_success_rates s;
     response_times := response_times s; resource_usage := resource_usage s;
     failure_learning_data := failure_learning_data s |}.

Definition set_rl_agent (v : QLearningAgent) (s : Orchestrator) :=
  {| config := config s; failure_history := failure_history s;
     healing_history := healing_history s; rl_agent := v;
     failure_patterns := failure_patterns s;
     healing_success_rates := healing_success_rates s;
     response_times := response_times s; resource_usage := resource_usage s;
     failure_learning_data := failure_learning_data s |}.

Definition set_failure_patterns (v : FailureType -> list PatternSample)
    (s : Orchestrator) :=
  {| config := config s; failure_history := failure_history s;
     healing_history := healing_history s; rl_agent := rl_agent s;
     failure_patterns := v;
     healing_success_rates := healing_success_rates s;
     response_times := response_times s; resource_usage := resource_usage s;
     failure_learning_data := failure_learning_data s |}.

Definition set_healing_success_rates (v : gmap string Counters)
    (s : Orchestrator) :=
  {| config := config s; failure_history := failure_history s;
     healing_history := healing_history s; rl_agent := rl_agent s;
     failure_patterns := failure_patterns s;
     healing_success_rates := v;
     response_times := response_times s; resource_usage := resource_usage s;
     failure_learning_data := failure_learning_data s |}.

Definition set_performance (rt ru : HealingAction -> list Q)
    (ld : list LearningData) (s : Orchestrator) :=
  {| config := config s; failure_history := failure_history s;
     healing_history := healing_history s; rl_agent := rl_agent s;
     failure_patterns := failure_patterns s;
     healing_success_rates := healing_success_rates s;
     response_times := rt; resource_usage := ru;
     failure_learning_data := ld |}.

(** [d[k].append(x)] on a [defaultdict(list)] keyed by an enumeration. *)
Definition fn_append `{EqDecision K} {V} (d : K -> list V) (k : K) (x : V)
    : K -> list V :=
  fun k' => if decide (k' = k) then d k' ++ [x] else d k'.

(** ** Strategy counters *)

(** [f"{failure_type}_{action}"]. *)
Definition strategy_key (t : FailureType) (a : HealingAction) : string :=
  (FailureType_str t ++ "_" ++ HealingAction_str a)%string.

Definition zero_counters : Counters := {| successes := 0; attempts := 0 |}.

(** Reading [self.healing_success_rates[key]]: a missing key is inserted
    with zero counters and those are returned. *)
Definition rates_lookup (key : string) : M Orchestrator Counters :=
  fun s =>
    match healing_success_rates s !! key with
    | Some c => (s, Ok c)
    | None =>
        (set_healing_success_rates
           (<[key := zero_counters]> (healing_success_rates s)) s,
         Ok zero_counters)
    end.

(** The counters of a key as any reader of the defaultdict sees them. *)
Definition counters_of (s : Orchestrator) (key : string) : Counters :=
  default zero_counters (healing_success_rates s !! key).

Definition rate (c : Counters) : Q :=
  (inject_Z (Z.of_nat (successes c)) / inject_Z (Z.of_nat (attempts c)))%Q.

(** ** Pattern detection (lines 318-367) *)

(** [component_failures[component] += 1] on a [defaultdict(int)]; the
    association list keeps the dict's insertion order. *)
Fixpoint tally_incr (d : list (string * nat)) (k : string) : list (string * nat) :=
  match d with
  | [] => [(k, 1%nat)]
  | (k', n) :: d' =>
      if decide (k' = k) then (k', S n) :: d' else (k', n) :: tally_incr d' k
  end.

(** Differences of consecutive elements. *)
Fixpoint intervals (ts : list Q) : list Q :=
  match ts with
  | t0 :: ((t1 :: _) as rest) => (t1 - t0)%Q :: intervals rest
  | _ => []
  end.

(** [list(set(...))] is modelled by [remove_dups]; Python leaves the
    iteration order of a set unspecified. *)
Definition detect_failure_patterns (failure_event : FailureEvent)
    : M Orchestrator (list Pattern) :=
  fun s =>
    let s1 :=
      set_failure_patterns
        (fn_append (failure_patterns s) (failure_type failure_event)
           {| sample_timestamp := timestamp failure_event;
              sample_severity := severity failure_event;
              sample_metrics := metrics failure_event;
              sample_components := affected_components failure_event |}) s in
    let recent_failures :=
      Py.last_n (pattern_window (config s1)) (failure_history s1) in
    let failure_times :=
      map timestamp
        (filter (fun f => failure_type f = failure_type failure_event)
                recent_failures) in
    let time_patterns :=
      if (min_pattern_frequency (config s1) <=? length failure_times)%nat then
        let time_intervals := intervals failure_times in
        match time_intervals with
        | [] => []
        | _ =>
            let avg_interval := Py.mean time_intervals in
            if Qltb avg_interval 3600 then
              [recurring_failure (failure_type failure_event) avg_interval
                 (length failure_times)]
            else []
        end
      else [] in
    let component_failures :=
      fold_left tally_incr (concat (map affected_components recent_failures)) [] in
    let component_patterns :=
      omap (fun '(component, count) =>
              if (min_pattern_frequency (config s1) <=? count)%nat then
                Some (component_hotspot component count
                        (remove_dups
                           (map failure_type
                              (filter (fun f => component ∈ affected_components f)
                                      recent_failures))))
              else None)
           component_failures in
    (s1, Ok (time_patterns ++ component_patterns)).

(** ** Healing response generation (lines 369-458) *)

Fixpoint dict_get {V} (d : list (string * V)) (k : string) : option V :=
  match d with
  | [] => None
  | (k', v) :: d' => if decide (k' = k) then Some v else dict_get d' k
  end.

Fixpoint dict_set {V} (d : list (string * V)) (k : string) (v : V)
    : list (string * V) :=
  match d with
  | [] => [(k, v)]
  | (k', v') :: d' =>
      if decide (k' = k) then (k', v) :: d' else (k', v') :: dict_set d' k v
  end.

(** A parameter used as a float operand: bools count as 0 or 1, strings
    and lists raise TypeError. *)
Definition as_float (v : param_value) : result Q :=
  match v with
  | PNum q => Ok q
  | PBool b => Ok (if b then 1%Q else 0%Q)
  | _ => Raise TypeError
  end.

(** The loop over [fallback_actions] (lines 391-398). *)
Fixpoint fallback_loop (t : FailureType) (actions : list HealingAction)
    (best_action : HealingAction) (best_success_rate : Q)
    : M Orchestrator HealingAction :=
  match actions with
  | [] => mret best_action
  | a :: rest =>
      (success_data <- rates_lookup (strategy_key t a) ;;
       if (0 <? attempts success_data)%nat then
         let success_rate := rate success_data in
         if Qltb best_success_rate success_rate
         then fallback_loop t rest a success_rate
         else fallback_loop t rest best_action best_success_rate
       else fallback_loop t rest best_action best_success_rate)%monad
  end.

Definition duration_estimates (a : HealingAction) : Q :=
  match a with
  | RESTART_SERVICE => 30
  | SCALE_UP => 120
  | SCALE_DOWN => 60
  | CLEAR_CACHE => 10
  | RESTART_COMPONENT => 45
  | FAILOVER => 180
  | THROTTLE_REQUESTS => 5
  | ALLOCATE_RESOURCES => 90
  | NO_ACTION => 1
  end%Q.

(** What the environment supplies to one call: the two random draws of
    [choose_action], the generated response id and the clock. *)
Record Oracle : Type := {
  eps_draw : Q;
  rand_action : nat;
  new_response_id : string;
  now : Q
}.

(** The agent's raw suggestion for an event (lines 372-376). *)
Definition suggested_action (s : Orchestrator) (o : Oracle)
    (failure_event : FailureEvent) : result HealingAction :=
  (action_idx <- choose_action (rl_agent s) (eps_draw o) (rand_action o)
                   (encode_state failure_event) ;;
   decode_action (Z.of_nat action_idx))%result.

(** The base probability and priority from the severity thresholds. *)
Definition priority_and_base (cfg : Config) (sev : Q) : Priority * Q :=
  if Qle_bool (critical_severity cfg) sev then (CRITICAL, 9 # 10)
  else if Qle_bool (high_severity cfg) sev then (HIGH, 8 # 10)
  else if Qle_bool (medium_severity cfg) sev then (MEDIUM, 7 # 10)
  else (LOW, 6 # 10).

Definition adjust_parameters (chosen_action : HealingAction) (sev : Q)
    (parameters : list (string * param_value))
    : result (list (string * param_value)) :=
  match chosen_action with
  | SCALE_UP =>
      (scale_factor <-
         as_float (default (PNum (3 # 2)) (dict_get parameters "scale_factor")) ;;
       Ok (dict_set parameters "scale_factor"
             (PNum (Qmin 3 (scale_factor * (1 + sev))))))%result
  | THROTTLE_REQUESTS =>
      (throttle_rate <-
         as_float (default (PNum (1 # 2)) (dict_get parameters "throttle_rate")) ;;
       Ok (dict_set parameters "throttle_rate"
             (PNum (Qmax (1 # 10) (throttle_rate * (1 - sev * (1 # 2)))))))%result
  | _ => Ok parameters
  end.

Definition generate_healing_response (o : Oracle) (failure_event : FailureEvent)
    : M Orchestrator HealingResponse :=
  (s <- mget ;;
   suggested <- mlift (suggested_action s o failure_event) ;;
   let fallback_actions :=
     default [NO_ACTION]
       (healing_strategies (config s) (failure_type failure_event)) in
   chosen_action <-
     (if bool_decide (suggested ∈ fallback_actions)
         || (length (failure_history s) <? 10)%nat
      then mret suggested
      else
        (best_action <- mlift (Py.index fallback_actions 0) ;;
         fallback_loop (failure_type failure_event) fallback_actions
           best_action 0%Q)) ;;
   parameters <-
     mlift (adjust_parameters chosen_action (severity failure_event)
              (default [] (action_parameters (config s) chosen_action))) ;;
   let '(priority, success_prob) :=
     priority_and_base (config s) (severity failure_event) in
   let estimated_duration := duration_estimates chosen_action in
   success_data <-
     rates_lookup (strategy_key (failure_type failure_event) chosen_action) ;;
   let success_prob :=
     if (5 <? attempts success_data)%nat
     then ((success_prob + rate success_data) / 2)%Q
     else success_prob in
   mret {| action := chosen_action;
           parameters := parameters;
           priority := priority;
           estimated_duration := estimated_duration;
           success_probability := success_prob;
           resource_cost := (severity failure_event * (1 # 2))%Q;
           response_id := new_response_id o |})%monad.

(** ** Action execution (lines 460-505) *)

(** The readings and draws of one simulated execution: elapsed wall-clock
    time, the success draw, the unit draw behind [np.random.uniform], the
    side-effect draw and the completion time. *)
Record ExecDraws : Type := {
  elapsed : Q;
  success_draw : Q;
  improvement_draw : Q;
  side_effect_draw : Q;
  finish_time : Q
}.

(** [np.random.uniform(lo, hi)] from a unit draw. *)
Definition uniform (lo hi u : Q) : Q := (lo + (hi - lo) * u)%Q.

Definition execute_healing_action (d : ExecDraws) (response : HealingResponse)
    (failure_event : FailureEvent) : result HealingResult :=
  let actual_duration := elapsed d in
  let success := Qltb (success_draw d) (success_probability response) in
  let improvement_metrics :=
    if success then
      match failure_type failure_event with
      | CPU_OVERLOAD =>
          [("cpu_usage", uniform (2 # 10) (5 # 10) (improvement_draw d))]
      | MEMORY_LEAK =>
          [("memory_usage", uniform (1 # 10) (4 # 10) (improvement_draw d))]
      | NETWORK_TIMEOUT =>
          [("response_time", uniform (3 # 10) (6 # 10) (improvement_draw d))]
      | _ => []
      end
    else [] in
  let side_effects :=
    match action response with
    | RESTART_SERVICE =>
        if Qltb (side_effect_draw d) (1 # 10)
        then ["brief_service_interruption"] else []
    | SCALE_UP =>
        if Qltb (side_effect_draw d) (5 # 100)
        then ["increased_resource_cost"] else []
    | _ => []
    end in
  Ok {| result_response_id := response_id response;
        success := success;
        actual_duration := actual_duration;
        improvement_metrics := improvement_metrics;
        side_effects := side_effects;
        result_timestamp := finish_time d |}.

(** ** The failure-handling pipeline (lines 507-572) *)

Record HandlingSummary : Type := {
  failure_handled : bool;
  healing_action : HealingAction;
  summary_success : bool;
  duration : Q;
  patterns_detected : list Pattern;
  summary_improvement_metrics : list (string * Q);
  summary_side_effects : list string
}.

(** The executor is the method [self.execute_healing_action]; it is a
    parameter here so that overriding implementations, which may raise,
    are covered as well as the simulated one. *)
Definition Executor : Type :=
  HealingResponse -> FailureEvent -> result HealingResult.

(** [self.healing_success_rates[key]['attempts'] += 1] and its sibling. *)
Definition incr_attempts (key : string) : M Orchestrator unit :=
  (c <- rates_lookup key ;;
   mmodify (fun s =>
     set_healing_success_rates
       (<[key := {| successes := successes c; attempts := S (attempts c) |}]>
          (healing_success_rates s)) s))%monad.

Definition incr_successes (key : string) : M Orchestrator unit :=
  (c <- rates_lookup key ;;
   mmodify (fun s =>
     set_healing_success_rates
       (<[key := {| successes := S (successes c); attempts := attempts c |}]>
          (healing_success_rates s)) s))%monad.

Definition handle_failure (executor : Executor) (o : Oracle)
    (failure_event : FailureEvent) : M Orchestrator HandlingSummary :=
  (mmodify (fun s =>
     set_failure_history
       (Py.deque_append 1000 (failure_history s) failure_event) s) ;;;
   patterns <- detect_failure_patterns failure_event ;;
   response <- generate_healing_response o failure_event ;;
   result <- mlift (executor response failure_event) ;;
   mmodify (fun s =>
     set_healing_history
       (Py.deque_append 1000 (healing_history s)
          {| rec_failure_event := failure_event;
             rec_healing_response := response;
             rec_healing_result := result;
             rec_patterns_detected := patterns;
             rec_timestamp := now o |}) s) ;;;
   let state := encode_state failure_event in
   let action_idx := Z.of_nat (list_index (action response) HealingAction_list) in
   let reward := calculate_reward result (severity failure_event) in
   let next_state := state in
   s <- mget ;;
   agent' <- mlift (update_q_value (rl_agent s) state action_idx reward next_state) ;;
   mmodify (set_rl_agent agent') ;;;
   let key := strategy_key (failure_type failure_event) (action response) in
   incr_attempts key ;;;
   (if success result then incr_successes key else mret tt) ;;;
   mmodify (fun s =>
     set_performance
       (fn_append (response_times s) (action response) (actual_duration result))
       (fn_append (resource_usage s) (action response) (resource_cost response))
       (failure_learning_data s ++
          [{| ld_failure_type := failure_type failure_event;
              ld_severity := severity failure_event;
              ld_action_taken := action response;
              ld_success := success result;
              ld_improvement := Py.sum (map snd (improvement_metrics result));
              ld_patterns := patterns;
              ld_timestamp := now o |}]) s) ;;;
   mret {| failure_handled := true;
           healing_action := action response;
           summary_success := success result;
           duration := actual_duration result;
           patterns_detected := patterns;
           summary_improvement_metrics := improvement_metrics result;
           summary_side_effects := side_effects result |})%monad.

(** States of an orchestrator that started fresh with configuration [cfg]
    and has been through [k] calls of [handle_failure], whatever their
    outcome. *)
Inductive after_calls (cfg : Config) : nat -> Orchestrator -> Prop :=
| after_init : after_calls cfg 0 (Orchestrator_init cfg)
| after_call k s executor o failure_event :
    after_calls cfg k s ->
    after_calls cfg (S k) (fst (handle_failure executor o failure_event s)).

(** ** Continuous learning ([continuous_learning.py]) *)

(** The context dictionary of an experience or a query, read through the
    keys the code consults.  [ctx_failure_type] holds the value as [str()]
    renders it; [ctx_size] is [len(context)]. *)
Record Context : Type := {
  ctx_failure_type : option string;
  ctx_severity : option Q;
  ctx_experience_type : option string;
  ctx_learning_strategy : option string;
  ctx_size : nat
}.

Record LearningExperience : Type := {
  experience_id : string;
  experience_type : string;
  exp_timestamp : Q;
  context : Context;
  action_taken : string;
  outcome_success : option bool;     (* outcome.get('success'), when present *)
  confidence_score : Q
}.

Record PatternInfo : Type := {
  pi_strategy : string;
  pi_pattern_key : string;
  pi_confidence : Q;
  pi_frequency : nat
}.

(** A recommendation dictionary; an absent key is [None]. *)
Record Recommendation : Type := {
  recommendation_type : option string;
  rec_action : option string;
  success_rate : option Q;
  confidence : option Q;
  rec_pattern_key : option string;
  supporting_experiences : option nat;
  suggested_strategy : option string;
  expected_success_rate : option Q;
  knowledge_id : option string;
  pattern_info : option PatternInfo;
  source_strategy : option string
}.

Definition empty_recommendation : Recommendation :=
  {| recommendation_type := None; rec_action := None; success_rate := None;
     confidence := None; rec_pattern_key := None;
     supporting_experiences := None; suggested_strategy := None;
     expected_success_rate := None; knowledge_id := None;
     pattern_info := None; source_strategy := None |}.

(** [rec['source_strategy'] = name]. *)
Definition set_source_strategy (name : string) (r : Recommendation)
    : Recommendation :=
  {| recommendation_type := recommendation_type r; rec_action := rec_action r;
     success_rate := success_rate r; confidence := confidence r;
     rec_pattern_key := rec_pattern_key r;
     supporting_experiences := supporting_experiences r;
     suggested_strategy := suggested_strategy r;
     expected_success_rate := expected_success_rate r;
     knowledge_id := knowledge_id r; pattern_info := pattern_info r;
     source_strategy := Some name |}.

(** [s in t] on strings. *)
Fixpoint is_substring (s t : string) : bool :=
  String.prefix s t ||
  match t with
  | EmptyString => false
  | String _ t' => is_substring s t'
  end.

(** [max(xs, key=f)]: the first element with the greatest key. *)
Fixpoint max_by {A} (f : A -> nat) (best : A) (xs : list A) : A :=
  match xs with
  | [] => best
  | x :: xs' => if (f best <? f x)%nat then max_by f x xs' else max_by f best xs'
  end.

(** [d[k].append(x)] on an insertion-ordered [defaultdict(list)]. *)
Fixpoint ordered_append {V} (d : list (string * list V)) (k : string) (x : V)
    : list (string * list V) :=
  match d with
  | [] => [(k, [x])]
  | (k', vs) :: d' =>
      if decide (k' = k) then (k', vs ++ [x]) :: d'
      else (k', vs) :: ordered_append d' k x
  end.

Module PatternBasedLearning.

Record t : Type := {
  patterns : list (string * list LearningExperience);  (* insertion order *)
  pattern_confidence : gmap string Q;                  (* defaultdict(float) *)
  pattern_success_rates : gmap string Counters
}.

Definition init : t :=
  {| patterns := []; pattern_confidence := ∅; pattern_success_rates := ∅ |}.

Definition _extract_pattern_key (experience : LearningExperience) : string :=
  let context_str :=
    (experience_type experience ++ "_" ++ action_taken experience)%string in
  let context_str :=
    match ctx_failure_type (context experience) with
    | Some ft => (context_str ++ "_" ++ ft)%string
    | None => context_str
    end in
  match ctx_severity (context experience) with
  | Some sev =>
      let severity_level :=
        if Qltb (7 # 10) sev then "high"
        else if Qltb (4 # 10) sev then "medium" else "low" in
      (context_str ++ "_" ++ severity_level)%string
  | None => context_str
  end.

Record LearnResult : Type := {
  lr_pattern_key : string;
  lr_pattern_frequency : nat;
  lr_confidence : Q
}.

Definition learn_from_experience (experience : LearningExperience) (self : t)
    : t * LearnResult :=
  let pattern_key := _extract_pattern_key experience in
  let patterns' := ordered_append (patterns self) pattern_key experience in
  let rates' :=
    match outcome_success experience with
    | Some ok =>
        let c := default zero_counters (pattern_success_rates self !! pattern_key) in
        <[pattern_key :=
            {| successes := if ok then S (successes c) else successes c;
               attempts := S (attempts c) |}]> (pattern_success_rates self)
    | None => pattern_success_rates self
    end in
  let pattern_frequency := length (default [] (dict_get patterns' pattern_key)) in
  let recency_weight := 1%Q in
  let conf :=
    Qmin 1 (inject_Z (Z.of_nat pattern_frequency) * (1 # 10) * recency_weight) in
  ({| patterns := patterns';
      pattern_confidence := <[pattern_key := conf]> (pattern_confidence self);
      pattern_success_rates := rates' |},
   {| lr_pattern_key := pattern_key;
      lr_pattern_frequency := pattern_frequency;
      lr_confidence := conf |}).

Definition _is_relevant_pattern (pattern_key : string) (ctx : Context) : bool :=
  match ctx_failure_type ctx with
  | Some ft => is_substring ft pattern_key
  | None => false
  end
  ||
  match ctx_experience_type ctx with
  | Some et => is_substring et pattern_key
  | None => false
  end.

Definition key_of (x : Recommendation) : Q :=
  (default 0 (success_rate x) * default 0 (confidence x))%Q.

(** One iteration of the loop over [self.patterns.items()]; reading a
    defaultdict inserts the default under a missing key. *)
Definition recommend_step (ctx : Context)
    (acc : t * list Recommendation)
    (entry : string * list LearningExperience) : t * list Recommendation :=
  let '(self, recommendations) := acc in
  let '(pattern_key, experiences) := entry in
  if _is_relevant_pattern pattern_key ctx then
    let success_data :=
      default zero_counters (pattern_success_rates self !! pattern_key) in
    let self1 :=
      {| patterns := patterns self;
         pattern_confidence := pattern_confidence self;
         pattern_success_rates :=
           <[pattern_key := success_data]> (pattern_success_rates self) |} in
    if (0 <? attempts success_data)%nat then
      let conf := default 0%Q (pattern_confidence self1 !! pattern_key) in
      let self2 :=
        {| patterns := patterns self1;
           pattern_confidence :=
             <[pattern_key := conf]> (pattern_confidence self1);
           pattern_success_rates := pattern_success_rates self1 |} in
      let successful_experiences :=
        filter (fun e => default false (outcome_success e) = true) experiences in
      match remove_dups (map action_taken successful_experiences) with
      | [] => (self2, recommendations)
      | a0 :: more =>
          let most_common_action :=
            max_by (fun x =>
                      length (filter (fun e => action_taken e = x)
                                     successful_experiences))
                   a0 more in
          (self2,
           recommendations ++
             [{| recommendation_type := None;
                 rec_action := Some most_common_action;
                 success_rate := Some (rate success_data);
                 confidence := Some conf;
                 rec_pattern_key := Some pattern_key;
                 supporting_experiences := Some (length successful_experiences);
                 suggested_strategy := None;
                 expected_success_rate := None;
                 knowledge_id := None;
                 pattern_info := None;
                 source_strategy := None |}])
      end
    else (self1, recommendations)
  else (self, recommendations).

Definition get_recommendations (ctx : Context) (self : t)
    : t * list Recommendation :=
  let '(self', recommendations) :=
    fold_left (recommend_step ctx) (patterns self) (self, []) in
  (self', take 5 (Py.sort_desc key_of recommendations)).

(** The periodic decay applied to this strategy (lines 620-621 of the
    system's [_decay_pattern_confidences]). *)
Definition decay (decay_rate : Q) (self : t) : t :=
  {| patterns := patterns self;
     pattern_confidence :=
       (fun c => c * (1 - decay_rate))%Q <$> pattern_confidence self;
     pattern_success_rates := pattern_success_rates self |}.

(** States the strategy object can be in when the system runs with a
    fixed decay rate. *)
Inductive reachable (decay_rate : Q) : t -> Prop :=
| reach_init : reachable decay_rate init
| reach_learn e s :
    reachable decay_rate s ->
    reachable decay_rate (fst (learn_from_experience e s))
| reach_recommend ctx s :
    reachable decay_rate s ->
    reachable decay_rate (fst (get_recommendations ctx s))
| reach_decay s :
    reachable decay_rate s -> reachable decay_rate (decay decay_rate s).

End PatternBasedLearning.

Module MetaLearning.

Record MetaPattern : Type := {
  mp_experience_type : string;
  mp_context_complexity : nat;
  mp_outcome_quality : Q;
  mp_strategy_used : string;
  mp_timestamp : Q
}.

Record t : Type := {
  learning_strategies_performance : list (string * Counters);
  meta_patterns : list (string * list MetaPattern)
}.

Definition init : t :=
  {| learning_strategies_performance := []; meta_patterns := [] |}.

(** [perf[k]['attempts'] += 1], then [successes] when [ok]. *)
Fixpoint bump (d : list (string * Counters)) (k : string) (ok : bool)
    : list (string * Counters) :=
  match d with
  | [] => [(k, {| successes := if ok then 1 else 0; attempts := 1 |})]
  | (k', c) :: d' =>
      if decide (k' = k)
      then (k', {| successes := if ok then S (successes c) else successes c;
                   attempts := S (attempts c) |}) :: d'
      else (k', c) :: bump d' k ok
  end.

Definition learn_from_experience (experience : LearningExperience) (self : t)
    : t :=
  let strategy_used :=
    default "unknown" (ctx_learning_strategy (context experience)) in
  {| learning_strategies_performance :=
       bump (learning_strategies_performance self) strategy_used
            (default false (outcome_success experience));
     meta_patterns :=
       ordered_append (meta_patterns self) (experience_type experience)
         {| mp_experience_type := experience_type experience;
            mp_context_complexity := ctx_size (context experience);
            mp_outcome_quality := confidence_score experience;
            mp_strategy_used := strategy_used;
            mp_timestamp := exp_timestamp experience |} |}.

Fixpoint best_loop (d : list (string * Counters))
    (best_strategy : option string) (best_success_rate : Q)
    : option string * Q :=
  match d with
  | [] => (best_strategy, best_success_rate)
  | (strategy, performance) :: d' =>
      if (5 <? attempts performance)%nat then
        let r := rate performance in
        if Qltb best_success_rate r then best_loop d' (Some strategy) r
        else best_loop d' best_strategy best_success_rate
      else best_loop d' best_strategy best_success_rate
  end.

(** [if best_strategy:] is false for [None] and for the empty string. *)
Definition get_recommendations (ctx : Context) (self : t)
    : list Recommendation :=
  let '(best_strategy, best_success_rate) :=
    best_loop (learning_strategies_performance self) None 0%Q in
  match best_strategy with
  | Some name =>
      if decide (name = EmptyString) then []
      else
        let n :=
          attempts (default zero_counters
                      (dict_get (learning_strategies_performance self) name)) in
        [{| recommendation_type := Some "learning_strategy";
            rec_action := None;
            success_rate := None;
            confidence := Some (Qmin 1 (inject_Z (Z.of_nat n) / 20));
            rec_pattern_key := None;
            supporting_experiences := None;
            suggested_strategy := Some name;
            expected_success_rate := Some best_success_rate;
            knowledge_id := None;
            pattern_info := None;
            source_strategy := None |}]
  | None => []
  end.

End MetaLearning.

Module ContinuousLearningSystem.

Record Knowledge : Type := {
  kn_experiences : list string;
  kn_patterns : list PatternInfo;
  kn_confidence : Q;
  kn_success_rate : Q
}.

Record t : Type := {
  cfg_learning_strategies : list string;   (* config['learning_strategies'] *)
  pattern_decay_rate : Q;
  confidence_threshold : Q;
  success_rate_threshold : Q;
  pattern_based : PatternBasedLearning.t;  (* learning_strategies['pattern_based'] *)
  meta_learning : MetaLearning.t;          (* learning_strategies['meta_learning'] *)
  knowledge_base : list (string * Knowledge)
}.

Definition init : t :=
  {| cfg_learning_strategies := ["pattern_based"; "meta_learning"];
     pattern_decay_rate := 1 # 10;
     confidence_threshold := 7 # 10;
     success_rate_threshold := 6 # 10;
     pattern_based := PatternBasedLearning.init;
     meta_learning := MetaLearning.init;
     knowledge_base := [] |}.

Definition set_pattern_based (p : PatternBasedLearning.t) (self : t) : t :=
  {| cfg_learning_strategies := cfg_learning_strategies self;
     pattern_decay_rate := pattern_decay_rate self;
     confidence_threshold := confidence_threshold self;
     success_rate_threshold := success_rate_threshold self;
     pattern_based := p;
     meta_learning := meta_learning self;
     knowledge_base := knowledge_base self |}.

Definition _get_knowledge_base_recommendations (ctx : Context) (self : t)
    : list Recommendation :=
  omap (fun '(kid, knowledge) =>
          if Qle_bool (success_rate_threshold self) (kn_success_rate knowledge)
          then
            if Qle_bool (confidence_threshold self) (kn_confidence knowledge)
            then
              match last (kn_patterns knowledge) with
              | Some pattern =>
                  Some {| recommendation_type := Some "knowledge_base";
                          rec_action := None;
                          success_rate := Some (kn_success_rate knowledge);
                          confidence := Some (kn_confidence knowledge);
                          rec_pattern_key := None;
                          supporting_experiences :=
                            Some (length (kn_experiences knowledge));
                          suggested_strategy := None;
                          expected_success_rate := None;
                          knowledge_id := Some kid;
                          pattern_info := Some pattern;
                          source_strategy := None |}
              | None => None
              end
            else None
          else None)
       (knowledge_base self).

(** The sort key of line 482: [x.get('confidence', 0.0) *
    x.get('success_rate', 0.0)]. *)
Definition key_of (x : Recommendation) : Q :=
  (default 0 (confidence x) * default 0 (success_rate x))%Q.

Definition get_recommendations (ctx : Context) (self : t)
    : t * list Recommendation :=
  (* 'pattern_based' *)
  let '(self1, all_recommendations) :=
    if bool_decide ("pattern_based" ∈ cfg_learning_strategies self) then
      let '(p', recommendations) :=
        PatternBasedLearning.get_recommendations ctx (pattern_based self) in
      (set_pattern_based p' self,
       map (set_source_strategy "pattern_based") recommendations)
    else (self, []) in
  (* 'meta_learning' *)
  let all_recommendations :=
    if bool_decide ("meta_learning" ∈ cfg_learning_strategies self1) then
      all_recommendations ++
        map (set_source_strategy "meta_learning")
            (MetaLearning.get_recommendations ctx (meta_learning self1))
    else all_recommendations in
  let kb_recommendations := _get_knowledge_base_recommendations ctx self1 in
  let all_recommendations := all_recommendations ++ kb_recommendations in
  (self1, take 10 (Py.sort_desc key_of all_recommendations)).

Definition _decay_pattern_confidences (self : t) : t :=
  let decay_rate := pattern_decay_rate self in
  set_pattern_based
    (PatternBasedLearning.decay decay_rate (pattern_based self)) self.

End ContinuousLearningSystem.

(** ** Specification predicates *)

Module PBL := PatternBasedLearning.
Module CLS := ContinuousLearningSystem.

(** [i] is the lowest index holding the maximum [v] of [row]. *)
Definition is_first_max (row : list Q) (i : nat) (v : Q) : Prop :=
  row !! i = Some v
  /\ (forall j w, row !! j = Some w -> (w <= v)%Q)
  /\ (forall j w, (j < i)%nat -> row !! j = Some w -> (w < v)%Q).

(** The shape [__init__] gives the agent's tables. *)
Definition wf_agent (ag : QLearningAgent) : Prop :=
  length (q_table ag) = n_states ag
  /\ Forall (fun row => length row = n_actions ag) (q_table ag)
  /\ length (state_action_counts ag) = n_states ag
  /\ Forall (fun row => length row = n_actions ag) (state_action_counts ag)
  /\ (0 < n_actions ag)%nat.

(** The TD target that [update_q_value] computes first (lines 46-47). *)
Definition td_target (ag : QLearningAgent) (reward : Q) (next_state : Z)
    : result Q :=
  (next_row <- Py.index (q_table ag) next_state ;;
   best_next_action <- argmax next_row ;;
   q_next <- Py.index next_row (Z.of_nat best_next_action) ;;
   Ok (reward + discount_factor ag * q_next)%Q)%result.

(** An update leaves the agent's shape and hyper-parameters alone. *)
Definition same_params (ag ag' : QLearningAgent) : Prop :=
  n_states ag' = n_states ag /\ n_actions ag' = n_actions ag
  /\ learning_rate ag' = learning_rate ag
  /\ discount_factor ag' = discount_factor ag.

(** [s'] differs from [s] at most in default entries inserted into
    [healing_success_rates]: every field and every counter reads the same. *)
Definition same_but_rates (s s' : Orchestrator) : Prop :=
  config s' = config s
  /\ failure_history s' = failure_history s
  /\ healing_history s' = healing_history s
  /\ rl_agent s' = rl_agent s
  /\ failure_patterns s' = failure_patterns s
  /\ response_times s' = response_times s
  /\ resource_usage s' = resource_usage s
  /\ failure_learning_data s' = failure_learning_data s
  /\ forall key, counters_of s' key = counters_of s key.

(** A method keeps [failure_history] on every path, raising or not. *)
Definition keeps_history {A} (m : M Orchestrator A) : Prop :=
  forall s, failure_history (fst (m s)) = failure_history s.

(** The counters after one more attempt with outcome [ok]. *)
Definition bumped (c : Counters) (ok : bool) : Counters :=
  {| successes := if ok then S (successes c) else successes c;
     attempts := S (attempts c) |}.

(** The orchestrator as [__init__] shapes it, with a configuration whose
    shortlists are non-empty and whose adjustable parameters are numbers. *)
Definition wf_orchestrator (s : Orchestrator) : Prop :=
  wf_agent (rl_agent s)
  /\ n_states (rl_agent s) = (length FailureType_list * 5)%nat
  /\ n_actions (rl_agent s) = length HealingAction_list
  /\ (forall t l, healing_strategies (config s) t = Some l -> l <> [])
  /\ (forall a sev, exists ps,
        adjust_parameters a sev (default [] (action_parameters (config s) a))
        = Ok ps).

(** The state in which the response is generated: the event is already
    in the history and the patterns have been mined (lines 513-517). *)
Definition pre_dispatch (failure_event : FailureEvent) (s : Orchestrator)
    : Orchestrator :=
  fst (detect_failure_patterns failure_event
         (set_failure_history
            (Py.deque_append 1000 (failure_history s) failure_event) s)).

(** The order [list.sort(key=..., reverse=True)] establishes: [y] may
    follow [x] when its key is not greater. *)
Definition desc_by {A} (key : A -> Q) (x y : A) : Prop := (key y <= key x)%Q.

(** What every reachable state of the pattern strategy satisfies: stored
    confidences are positive and every key with experiences has one. *)
Definition pattern_invariant (s : PatternBasedLearning.t) : Prop :=
  (forall k c, PatternBasedLearning.pattern_confidence s !! k = Some c ->
               (0 < c)%Q)
  /\ (forall k, k ∈ map fst (PatternBasedLearning.patterns s) ->
                is_Some (PatternBasedLearning.pattern_confidence s !! k)).

(** The base probability as the specification words it, for the default
    thresholds. *)
Definition base_probability (sev : Q) : Q :=
  if Qle_bool (8 # 10) sev then 9 # 10
  else if Qle_bool (6 # 10) sev then 8 # 10
  else if Qle_bool (4 # 10) sev then 7 # 10
  else 6 # 10.

(** ** Scenarios *)

Definition mk_event (t : FailureType) (sev : Q) : FailureEvent :=
  {| failure_type := t; severity := sev; affected_components := ["web"];
     metrics := [("cpu", 95%Q)]; timestamp := 0%Q; event_id := "failure_0" |}.

(** A two-state, three-action agent that never explores. *)
Definition small_agent : QLearningAgent :=
  {| n_states := 2; n_actions := 3;
     learning_rate := 1 # 10; discount_factor := 9 # 10; epsilon := 0;
     q_table := [[1; 3; 3]; [0; 0; 0]]%Q;
     state_action_counts := [[0; 0; 0]; [0; 0; 0]]%Q |}.

(** Outcomes used to exercise the update rule. *)
Definition fresh_agent : QLearningAgent :=
  rl_agent (Orchestrator_init _default_config).

Definition good_result : HealingResult :=
  {| result_response_id := "response_0"; success := true;
     actual_duration := 0; improvement_metrics := [("cpu_usage", 5%Q)];
     side_effects := []; result_timestamp := 0 |}.

Definition plain_failure : HealingResult :=
  {| result_response_id := "response_2"; success := false;
     actual_duration := 0; improvement_metrics := [];
     side_effects := []; result_timestamp := 0 |}.

(** The agent after 3 successful outcomes of reward 2 on cell (0, 0). *)
Definition trained_agent : result QLearningAgent :=
  repeat_update 3 fresh_agent 0 0 (calculate_reward good_result 1).

Definition fresh_orchestrator : Orchestrator :=
  Orchestrator_init _default_config.

(** An oracle whose exploration draw fires and picks action [i]. *)
Definition explore (i : nat) : Oracle :=
  {| eps_draw := 0; rand_action := i; new_response_id := "response_0";
     now := 0 |}.

(** An oracle whose exploration draw does not fire. *)
Definition greedy : Oracle :=
  {| eps_draw := 1 # 2; rand_action := 0; new_response_id := "response_0";
     now := 0 |}.

(** Draws under which the simulated executor succeeds without side
    effects after one second. *)
Definition sure_draws : ExecDraws :=
  {| elapsed := 1; success_draw := 0; improvement_draw := 0;
     side_effect_draw := 1 # 2; finish_time := 1 |}.

(** An executor whose backing infrastructure is unavailable. *)
Definition failing_executor : Executor :=
  fun _ _ => Raise (ExecutorError "infrastructure unavailable").

Definition run_events (executor : Executor) (o : Oracle)
    (events : list FailureEvent) (s : Orchestrator) : Orchestrator :=
  fold_left (fun s ev => fst (handle_failure executor o ev s)) events s.

(** Nine failures, each in a different state of the agent. *)
Definition warmup_events : list FailureEvent :=
  [mk_event CPU_OVERLOAD (1 # 10); mk_event CPU_OVERLOAD (3 # 10);
   mk_event CPU_OVERLOAD (5 # 10); mk_event CPU_OVERLOAD (7 # 10);
   mk_event MEMORY_LEAK (1 # 10); mk_event MEMORY_LEAK (3 # 10);
   mk_event MEMORY_LEAK (5 # 10); mk_event MEMORY_LEAK (7 # 10);
   mk_event DISK_FULL (1 # 10)].

Definition nine_calls_state : Orchestrator :=
  run_events (execute_healing_action sure_draws) greedy warmup_events
    fresh_orchestrator.

(** A fresh orchestrator that has recorded [n] failed attempts of SCALE_UP
    on CPU_OVERLOAD. *)
Definition with_attempts (n : nat) : Orchestrator :=
  set_healing_success_rates
    {[ strategy_key CPU_OVERLOAD SCALE_UP := {| successes := 0; attempts := n |} ]}
    fresh_orchestrator.

(** What a fresh orchestrator reports for a severe CPU overload when the
    agent explores SCALE_DOWN and the simulated executor succeeds. *)
Definition first_summary : HandlingSummary :=
  {| failure_handled := true;
     healing_action := SCALE_DOWN;
     summary_success := true;
     duration := 1;
     patterns_detected := [];
     summary_improvement_metrics :=
       [("cpu_usage", uniform (2 # 10) (5 # 10) 0)];
     summary_side_effects := [] |}.

(** The response generated for a severe CPU overload at [with_attempts 6]
    when the agent explores SCALE_UP. *)
Definition blended_response : HealingResponse :=
  {| action := SCALE_UP;
     parameters :=
       [("scale_factor", PNum (Qmin 3 ((3 # 2) * (1 + (9 # 10)))));
        ("max_instances", PNum 10); ("cooldown", PNum 300)];
     priority := CRITICAL;
     estimated_duration := 120;
     success_probability :=
       ((9 # 10) + rate {| successes := 0; attempts := 6 |}) / 2;
     resource_cost := (9 # 10) * (1 # 2);
     response_id := "response_0" |}%Q.

(** A learning system that has recorded one experience. *)
Definition sample_experience : LearningExperience :=
  {| experience_id := "exp_1";
     experience_type := "failure";
     exp_timestamp := 0;
     context := {| ctx_failure_type := Some "cpu_overload";
                   ctx_severity := Some (7 # 10);
                   ctx_experience_type := None;
                   ctx_learning_strategy := None;
                   ctx_size := 2 |};
     action_taken := "scale_up";
     outcome_success := Some true;
     confidence_score := 8 # 10 |}.

Definition learned_system : ContinuousLearningSystem.t :=
  ContinuousLearningSystem.set_pattern_based
    (fst (PatternBasedLearning.learn_from_experience sample_experience
            PatternBasedLearning.init))
    ContinuousLearningSystem.init.

(** ** Further definitions *)

(** A result with its success flag replaced. *)
Definition with_success (b : bool) (r : HealingResult) : HealingResult :=
  {| result_response_id := result_response_id r;
     success := b;
     actual_duration := actual_duration r;
     improvement_metrics := improvement_metrics r;
     side_effects := side_effects r;
     result_timestamp := result_timestamp r |}.

(** Draws as numpy produces them: a non-negative elapsed time and unit
    draws in [0,1). *)
Definition valid_draws (d : ExecDraws) : Prop :=
  (0 <= elapsed d)%Q
  /\ (0 <= success_draw d)%Q /\ (success_draw d < 1)%Q
  /\ (0 <= improvement_draw d)%Q /\ (improvement_draw d < 1)%Q
  /\ (0 <= side_effect_draw d)%Q /\ (side_effect_draw d < 1)%Q.

(** The shortlist the catalog holds for a failure type (lines 379-381). *)
Definition shortlist (s : Orchestrator) (t : FailureType) : list HealingAction :=
  default [NO_ACTION] (healing_strategies (config s) t).

(** The success rate as the fallback comparison sees it: an action
    without attempts counts as 0. *)
Definition score (c : Counters) : Q :=
  if (0 <? attempts c)%nat then rate c else 0%Q.

(** The state in which the tenth response is generated, and the response
    the catalog then substitutes for the agent's SCALE_DOWN. *)
Definition ten_events_state : Orchestrator :=
  pre_dispatch (mk_event CPU_OVERLOAD (9 # 10)) nine_calls_state.

Definition fallback_response : HealingResponse :=
  {| action := RESTART_SERVICE;
     parameters :=
       [("timeout", PNum 30); ("graceful", PBool true);
        ("max_attempts", PNum 3)];
     priority := CRITICAL;
     estimated_duration := 30;
     success_probability := 9 # 10;
     resource_cost := (9 # 10) * (1 # 2);
     response_id := "response_0" |}%Q.

(** A method that, on every path, changes at most default entries of
    [healing_success_rates]. *)
Definition stays_same {A} (m : M Orchestrator A) : Prop :=
  forall s, same_but_rates s (fst (m s)).

(** No pair has recorded more successes than attempts. *)
Definition counters_sound (s : Orchestrator) : Prop :=
  forall key,
    (successes (counters_of s key) <= attempts (counters_of s key))%nat.

(** The window of events that pattern detection analyses (line 331). *)
Definition recent_failures (s : Orchestrator) : list FailureEvent :=
  Py.last_n (pattern_window (config s)) (failure_history s).

(** How often a component is listed by the events of a window. *)
Definition mentions (component : string) (events : list FailureEvent) : nat :=
  length (filter (fun c => c = component)
                 (concat (map affected_components events))).

(** The components for which a list of patterns reports a hotspot. *)
Definition hotspot_components (ps : list Pattern) : list string :=
  omap (fun p => match p with
                 | component_hotspot c _ _ => Some c
                 | recurring_failure _ _ _ => None
                 end) ps.

(** ** Strategy updates (lines 642-670) *)

(** [self.config['healing_strategies'][failure_type] = new_strategy]. *)
Definition set_healing_strategy (t : FailureType) (v : list HealingAction)
    (s : Orchestrator) : Orchestrator :=
  {| config :=
       {| cfg_learning_rate := cfg_learning_rate (config s);
          cfg_discount_factor := cfg_discount_factor (config s);
          cfg_epsilon := cfg_epsilon (config s);
          cfg_epsilon_decay := cfg_epsilon_decay (config s);
          healing_strategies :=
            (fun t' => if decide (t' = t) then Some v
                       else healing_strategies (config s) t');
          action_parameters := action_parameters (config s);
          critical_severity := critical_severity (config s);
          high_severity := high_severity (config s);
          medium_severity := medium_severity (config s);
          pattern_window := pattern_window (config s);
          min_pattern_frequency := min_pattern_frequency (config s) |};
     failure_history := failure_history s;
     healing_history := healing_history s; rl_agent := rl_agent s;
     failure_patterns := failure_patterns s;
     healing_success_rates := healing_success_rates s;
     response_times := response_times s; resource_usage := resource_usage s;
     failure_learning_data := failure_learning_data s |}.

(** The score of lines 655-659.  [self.response_times.get(action, [60])]
    yields [[60]] for an action without an entry; the only writer of
    [response_times] appends to the entry it creates (line 549), so an
    entry is never empty and the empty list of the model stands for the
    missing entry. *)
Definition strategy_score (success_data : Counters) (times : list Q) : Q :=
  let success_rate := rate success_data in
  let avg_response_time :=
    Py.mean (match times with [] => [60%Q] | _ :: _ => times end) in
  (success_rate * (8 # 10) + (1 / (1 + avg_response_time / 60)) * (2 # 10))%Q.

(** The loop over [HealingAction] (lines 649-661). *)
Fixpoint best_actions_loop (t : FailureType) (actions : list HealingAction)
    (best_actions : list (HealingAction * Q))
    : M Orchestrator (list (HealingAction * Q)) :=
  match actions with
  | [] => mret best_actions
  | action :: rest =>
      (success_data <- rates_lookup (strategy_key t action) ;;
       if (5 <=? attempts success_data)%nat then
         s <- mget ;;
         best_actions_loop t rest
           (best_actions ++
              [(action, strategy_score success_data (response_times s action))])
       else best_actions_loop t rest best_actions)%monad
  end.

(** The body of the loop over [FailureType] (lines 647-670). *)
Definition update_strategy (t : FailureType) : M Orchestrator unit :=
  (best_actions <- best_actions_loop t HealingAction_list [] ;;
   match best_actions with
   | [] => mret tt
   | _ :: _ =>
       let new_strategy := map fst (take 3 (Py.sort_desc snd best_actions)) in
       s <- mget ;;
       if decide (new_strategy = default [] (healing_strategies (config s) t))
       then mret tt
       else mmodify (set_healing_strategy t new_strategy)
   end)%monad.

Fixpoint for_each_type (types : list FailureType) : M Orchestrator unit :=
  match types with
  | [] => mret tt
  | t :: rest => (update_strategy t ;;; for_each_type rest)%monad
  end.

Definition _update_strategies : M Orchestrator unit :=
  for_each_type FailureType_list.

(** The actions with enough attempts against a failure type, their scores
    and the shortlist these determine. *)
Definition eligible (s : Orchestrator) (t : FailureType) : list HealingAction :=
  filter (fun a => (5 <= attempts (counters_of s (strategy_key t a)))%nat)
         HealingAction_list.

Definition score_of (s : Orchestrator) (t : FailureType) (a : HealingAction)
    : Q :=
  strategy_score (counters_of s (strategy_key t a)) (response_times s a).

Definition learned_shortlist (s : Orchestrator) (t : FailureType)
    : list HealingAction :=
  map fst (take 3 (Py.sort_desc snd
                     (map (fun a => (a, score_of s t a)) (eligible s t)))).

(** [s'] differs from [s] at most in the shortlists of the configuration
    and in default entries of [healing_success_rates]. *)
Definition same_but_strategies (s s' : Orchestrator) : Prop :=
  failure_history s' = failure_history s
  /\ healing_history s' = healing_history s
  /\ rl_agent s' = rl_agent s
  /\ failure_patterns s' = failure_patterns s
  /\ response_times s' = response_times s
  /\ resource_usage s' = resource_usage s
  /\ failure_learning_data s' = failure_learning_data s
  /\ (forall key, counters_of s' key = counters_of s key)
  /\ action_parameters (config s') = action_parameters (config s)
  /\ cfg_learning_rate (config s') = cfg_learning_rate (config s)
  /\ cfg_discount_factor (config s') = cfg_discount_factor (config s)
  /\ cfg_epsilon (config s') = cfg_epsilon (config s)
  /\ cfg_epsilon_decay (config s') = cfg_epsilon_decay (config s)
  /\ critical_severity (config s') = critical_severity (config s)
  /\ high_severity (config s') = high_severity (config s)
  /\ medium_severity (config s') = medium_severity (config s)
  /\ pattern_window (config s') = pattern_window (config s)
  /\ min_pattern_frequency (config s') = min_pattern_frequency (config s).

(** Every strategy key already has an entry in [healing_success_rates]. *)
Definition keys_present (s : Orchestrator) : Prop :=
  forall t a, is_Some (healing_success_rates s !! strategy_key t a).

(** Keys that have an entry keep it. *)
Definition keys_grow (s s' : Orchestrator) : Prop :=
  forall key, is_Some (healing_success_rates s !! key) ->
              is_Some (healing_success_rates s' !! key).

(** ** Retraining (lines 605-640) *)

(** One entry of [improvement_tracking[strategy_key]['history']]. *)
Record TrackingEntry : Type := {
  te_timestamp : Q;
  te_success_rate : Q;
  te_attempts : nat
}.

(** [d[k].append(x)] and [d.get(k)] on an insertion-ordered
    [defaultdict(list)] with keys of any hashable type. *)
Fixpoint group_append {K V} `{EqDecision K} (d : list (K * list V)) (k : K)
    (x : V) : list (K * list V) :=
  match d with
  | [] => [(k, [x])]
  | (k', vs) :: d' =>
      if decide (k' = k) then (k', vs ++ [x]) :: d'
      else (k', vs) :: group_append d' k x
  end.

Fixpoint group_get {K V} `{EqDecision K} (d : list (K * V)) (k : K)
    : option V :=
  match d with
  | [] => None
  | (k', v) :: d' => if decide (k' = k) then Some v else group_get d' k
  end.

(** The first loop (lines 617-622): the experiences of the window are
    split into [success_patterns] and [failure_patterns]. *)
Definition split_outcomes (window : list LearningData)
    : list (FailureType * HealingAction * list LearningData)
      * list (FailureType * HealingAction * list LearningData) :=
  fold_left
    (fun '(success_patterns, failure_patterns) data =>
       let key := (ld_failure_type data, ld_action_taken data) in
       if ld_success data
       then (group_append success_patterns key data, failure_patterns)
       else (success_patterns, group_append failure_patterns key data))
    window ([], []).

(** The attribute [improvement_tracking] is threaded explicitly; [clock]
    is the reading of [datetime.now()] when the entry of a pair is
    written. *)
Definition _retrain_models (clock : FailureType * HealingAction -> Q)
    (s : Orchestrator) (improvement_tracking : gmap string (list TrackingEntry))
    : gmap string (list TrackingEntry) :=
  if (length (failure_learning_data s) <? 10)%nat then improvement_tracking
  else
    let '(success_patterns, failure_patterns) :=
      split_outcomes (Py.last_n 100 (failure_learning_data s)) in
    fold_left
      (fun tracking '(key, successes) =>
         let '(failure_type, action) := key in
         let total_attempts :=
           (length successes
            + length (default [] (group_get failure_patterns key)))%nat in
         let success_rate :=
           if (0 <? total_attempts)%nat
           then (inject_Z (Z.of_nat (length successes))
                 / inject_Z (Z.of_nat total_attempts))%Q
           else 0%Q in
         let strategy_key := strategy_key failure_type action in
         let tracking :=
           match tracking !! strategy_key with
           | Some _ => tracking
           | None => <[strategy_key := []]> tracking
           end in
         <[strategy_key :=
             default [] (tracking !! strategy_key)
             ++ [{| te_timestamp := clock key;
                    te_success_rate := success_rate;
                    te_attempts := total_attempts |}]]> tracking)
      success_patterns improvement_tracking.

(** How many of the last 100 experiences paired a failure type with an
    action and ended with a given outcome. *)
Definition outcomes (s : Orchestrator) (t : FailureType) (a : HealingAction)
    (ok : bool) : nat :=
  length (filter (fun d => (ld_failure_type d, ld_action_taken d) = (t, a)
                           /\ ld_success d = ok)
                 (Py.last_n 100 (failure_learning_data s))).

(** What the first loop leaves in the two dictionaries. *)
Definition split_invariant (window : list LearningData)
    (sp fp : list (FailureType * HealingAction * list LearningData)) : Prop :=
  NoDup sp.*1
  /\ Forall (fun e => snd e <> []) sp
  /\ (forall k, length (default [] (group_get sp k))
                = length (filter (fun d => (ld_failure_type d, ld_action_taken d) = k
                                           /\ ld_success d = true) window))
  /\ (forall k, length (default [] (group_get fp k))
                = length (filter (fun d => (ld_failure_type d, ld_action_taken d) = k
                                           /\ ld_success d = false) window)).

(** Two states of the pattern strategy in which every read of the
    defaultdicts returns the same. *)
Definition reads_alike (s s' : PBL.t) : Prop :=
  PBL.patterns s' = PBL.patterns s
  /\ (forall k, default zero_counters (PBL.pattern_success_rates s' !! k)
                = default zero_counters (PBL.pattern_success_rates s !! k))
  /\ (forall k, default 0%Q (PBL.pattern_confidence s' !! k)
                = default 0%Q (PBL.pattern_confidence s !! k)).

(** The experiences of a pattern that succeeded, and how many of a list
    of experiences took a given action. *)
Definition successful (experiences : list LearningExperience)
    : list LearningExperience :=
  filter (fun e => default false (outcome_success e) = true) experiences.

Definition uses (a : string) (experiences : list LearningExperience) : nat :=
  length (filter (fun e => action_taken e = a) experiences).

(** What a recommendation of the pattern strategy says about the state
    it was computed from. *)
Definition backed_by (ctx : Context) (s : PBL.t) (r : Recommendation) : Prop :=
  exists k experiences a,
    (k, experiences) ∈ PBL.patterns s
    /\ PBL._is_relevant_pattern k ctx = true
    /\ (0 < attempts (default zero_counters
                        (PBL.pattern_success_rates s !! k)))%nat
    /\ r = {| recommendation_type := None;
              rec_action := Some a;
              success_rate :=
                Some (rate (default zero_counters
                              (PBL.pattern_success_rates s !! k)));
              confidence := Some (default 0%Q (PBL.pattern_confidence s !! k));
              rec_pattern_key := Some k;
              supporting_experiences :=
                Some (length (successful experiences));
              suggested_strategy := None;
              expected_success_rate := None;
              knowledge_id := None;
              pattern_info := None;
              source_strategy := None |}
    /\ (exists e, e ∈ successful experiences /\ action_taken e = a)
    /\ (forall b, (uses b (successful experiences)
                   <= uses a (successful experiences))%nat).

(** The number of experiences recorded under a pattern key. *)
Definition frequency (s : PBL.t) (k : string) : nat :=
  length (default [] (dict_get (PBL.patterns s) k)).

(** The confidence a pattern gets when an experience is learned
    (line 79). *)
Definition evidence_cap (s : PBL.t) (k : string) : Q :=
  Qmin 1 (inject_Z (Z.of_nat (frequency s k)) * (1 # 10) * 1).

(** Pattern confidences never exceed what the number of experiences
    allows. *)
Definition capped (s : PBL.t) : Prop :=
  forall k c, PBL.pattern_confidence s !! k = Some c ->
              (c <= evidence_cap s k)%Q.

(** The recommendation the meta strategy gives for a strategy with its
    counters (lines 190-195). *)
Definition strategy_recommendation (name : string) (c : Counters)
    : Recommendation :=
  {| recommendation_type := Some "learning_strategy";
     rec_action := None;
     success_rate := None;
     confidence := Some (Qmin 1 (inject_Z (Z.of_nat (attempts c)) / 20));
     rec_pattern_key := None;
     supporting_experiences := None;
     suggested_strategy := Some name;
     expected_success_rate := Some (rate c);
     knowledge_id := None;
     pattern_info := None;
     source_strategy := None |}.

(** Where a recommendation of the learning system comes from. *)
Definition from_patterns (ctx : Context) (self : CLS.t) (r : Recommendation)
    : Prop :=
  "pattern_based" ∈ CLS.cfg_learning_strategies self
  /\ exists r0, backed_by ctx (CLS.pattern_based self) r0
                /\ r = set_source_strategy "pattern_based" r0.

Definition from_meta (self : CLS.t) (r : Recommendation) : Prop :=
  "meta_learning" ∈ CLS.cfg_learning_strategies self
  /\ source_strategy r = Some "meta_learning"
  /\ recommendation_type r = Some "learning_strategy"
  /\ success_rate r = None
  /\ (CLS.key_of r == 0)%Q.

Definition from_knowledge (self : CLS.t) (r : Recommendation) : Prop :=
  exists kid knowledge pattern,
    (kid, knowledge) ∈ CLS.knowledge_base self
    /\ last (CLS.kn_patterns knowledge) = Some pattern
    /\ (CLS.success_rate_threshold self <= CLS.kn_success_rate knowledge)%Q
    /\ (CLS.confidence_threshold self <= CLS.kn_confidence knowledge)%Q
    /\ r = {| recommendation_type := Some "knowledge_base";
              rec_action := None;
              success_rate := Some (CLS.kn_success_rate knowledge);
              confidence := Some (CLS.kn_confidence knowledge);
              rec_pattern_key := None;
              supporting_experiences :=
                Some (length (CLS.kn_experiences knowledge));
              suggested_strategy := None;
              expected_success_rate := None;
              knowledge_id := Some kid;
              pattern_info := Some pattern;
              source_strategy := None |}.

(** A strategy object with six successful uses of one learning strategy. *)
Definition practised_meta : MetaLearning.t :=
  {| MetaLearning.learning_strategies_performance :=
       [("pattern_based", {| successes := 6; attempts := 6 |})];
     MetaLearning.meta_patterns := [] |}.

Definition empty_context : Context :=
  {| ctx_failure_type := None; ctx_severity := None;
     ctx_experience_type := None; ctx_learning_strategy := None;
     ctx_size := 0 |}.

(** The strategy an experience is credited to and the outcome it counts
    with (lines 150-154). *)
Definition strategy_used_by (e : LearningExperience) : string :=
  default "unknown" (ctx_learning_strategy (context e)).

Definition counts_as_success (e : LearningExperience) : bool :=
  default false (outcome_success e).

(** The recommendation a single successful experience supports. *)
Definition first_recommendation (e : LearningExperience) : Recommendation :=
  {| recommendation_type := None;
     rec_action := Some (action_taken e);
     success_rate := Some (rate {| successes := 1; attempts := 1 |});
     confidence := Some (Qmin 1 (inject_Z (Z.of_nat 1) * (1 # 10) * 1));
     rec_pattern_key := Some (PBL._extract_pattern_key e);
     supporting_experiences := Some 1%nat;
     suggested_strategy := None;
     expected_success_rate := None;
     knowledge_id := None;
     pattern_info := None;
     source_strategy := None |}.

(** A query about CPU overloads. *)
Definition cpu_query : Context :=
  {| ctx_failure_type := Some "cpu_overload"; ctx_severity := None;
     ctx_experience_type := None; ctx_learning_strategy := None;
     ctx_size := 1 |}.

(** ** The health report (lines 672-713) *)

Record HealthReport : Type := {
  report_timestamp : Q;
  total_failures_handled : nat;
  recent_failure_count : nat;             (* 'recent_failures' *)
  total_healing_attempts : nat;
  overall_success_rate : Q;
  strategy_performance : gmap string (Q * nat);   (* success_rate, attempts *)
  q_table_entries_updated : nat;
  total_q_table_entries : nat;
  exploration_rate : Q;
  experiences_collected : nat;
  reported_tracking : gmap string (list TrackingEntry);
  system_status : string
}.

(** [clock i] is the reading of [datetime.now()] taken for the [i]-th
    event of the history, [now] the one taken for the time stamp; the
    attribute [improvement_tracking] is passed in. *)
Definition get_system_health_report (clock : nat -> Q) (now : Q)
    (improvement_tracking : gmap string (list TrackingEntry))
    (s : Orchestrator) : HealthReport :=
  let total_failures := length (failure_history s) in
  let recent_failures :=
    omap (fun '(i, f) => if Qltb (clock i - timestamp f) 3600 then Some f
                         else None)
         (imap (fun i f => (i, f)) (failure_history s)) in
  let total_healing_attempts := length (healing_history s) in
  let successful_healings :=
    length (filter (fun h => success (rec_healing_result h) = true)
                   (healing_history s)) in
  let overall_success_rate :=
    if (0 <? total_healing_attempts)%nat
    then (inject_Z (Z.of_nat successful_healings)
          / inject_Z (Z.of_nat total_healing_attempts))%Q
    else 0%Q in
  let strategy_performance :=
    omap (fun data => if (0 <? attempts data)%nat
                      then Some (rate data, attempts data) else None)
         (healing_success_rates s) in
  {| report_timestamp := now;
     total_failures_handled := total_failures;
     recent_failure_count := length recent_failures;
     total_healing_attempts := total_healing_attempts;
     overall_success_rate := overall_success_rate;
     strategy_performance := strategy_performance;
     q_table_entries_updated :=
       length (filter (fun c => Qltb 0 c = true)
                      (concat (state_action_counts (rl_agent s))));
     total_q_table_entries := length (concat (q_table (rl_agent s)));
     exploration_rate := epsilon (rl_agent s);
     experiences_collected := length (failure_learning_data s);
     reported_tracking := improvement_tracking;
     system_status :=
       if Qltb (8 # 10) overall_success_rate then "HEALTHY"
       else if Qltb (5 # 10) overall_success_rate then "DEGRADED"
       else "CRITICAL" |}.

(** ** The life of a pattern's confidence *)

(** What reaches the confidences of the pattern strategy of a running
    system: the periodic decay tick (lines 613-621), a query for
    recommendations (lines 461-486, whose read of line 111 goes through a
    defaultdict), and an experience handed to the strategy's
    [learn_from_experience] (lines 63-85).  [record_experience] makes
    that call when the strategy is enabled (lines 342-346) and leaves the
    strategy alone otherwise. *)
Inductive Activity : Type :=
| act_tick
| act_query (ctx : Context)
| act_learn (e : LearningExperience).

Definition perform (self : CLS.t) (a : Activity) : CLS.t :=
  match a with
  | act_tick => CLS._decay_pattern_confidences self
  | act_query ctx => fst (CLS.get_recommendations ctx self)
  | act_learn e =>
      CLS.set_pattern_based
        (fst (PBL.learn_from_experience e (CLS.pattern_based self))) self
  end.

Definition run (activities : list Activity) (self : CLS.t) : CLS.t :=
  fold_left perform activities self.

Fixpoint ticks (activities : list Activity) : nat :=
  match activities with
  | [] => 0
  | act_tick :: rest => S (ticks rest)
  | _ :: rest => ticks rest
  end.

(** No experience of the sequence is filed under the pattern key. *)
Definition no_evidence_for (key : string) (activities : list Activity) : Prop :=
  Forall (fun a => match a with
                   | act_learn e => PBL._extract_pattern_key e <> key
                   | _ => True
                   end) activities.

(** The confidence the system's pattern strategy stores for a key. *)
Definition confidence_of (self : CLS.t) (key : string) : option Q :=
  PBL.pattern_confidence (CLS.pattern_based self) !! key.

(** A system configured with another [pattern_decay_rate]. *)
Definition with_decay_rate (d : Q) (self : CLS.t) : CLS.t :=
  {| CLS.cfg_learning_strategies := CLS.cfg_learning_strategies self;
     CLS.pattern_decay_rate := d;
     CLS.confidence_threshold := CLS.confidence_threshold self;
     CLS.success_rate_threshold := CLS.success_rate_threshold self;
     CLS.pattern_based := CLS.pattern_based self;
     CLS.meta_learning := CLS.meta_learning self;
     CLS.knowledge_base := CLS.knowledge_base self |}.

(** An experience of another pattern. *)
Definition other_experience : LearningExperience :=
  {| experience_id := "exp_2";
     experience_type := "failure";
     exp_timestamp := 5;
     context := {| ctx_failure_type := Some "memory_leak";
                   ctx_severity := Some (9 # 10);
                   ctx_experience_type := None;
                   ctx_learning_strategy := None;
                   ctx_size := 2 |};
     action_taken := "restart_service";
     outcome_success := Some false;
     confidence_score := 5 # 10 |}.

(** * Properties *)

(** ** Arithmetic of the Python primitives *)

Lemma Qltb_lt x y : Qltb x y = true <-> (x < y)%Q.
Proof.
  unfold Qltb. rewrite negb_true_iff, <- not_true_iff_false, Qle_bool_iff.
  split; [apply Qnot_le_lt | apply Qlt_not_le].
Qed.

Lemma Qltb_ge x y : Qltb x y = false <-> (y <= x)%Q.
Proof. unfold Qltb. rewrite negb_false_iff. apply Qle_bool_iff. Qed.

Lemma int_nonneg x : (0 <= x)%Q -> Py.int x = Qfloor x.
Proof.
  intros H. unfold Py.int, Qfloor. destruct x as [n d]. simpl.
  apply Z.quot_div_nonneg; [|lia].
  unfold Qle in H. simpl in H. lia.
Qed.

Lemma int_small_neg x : (-1 < x)%Q -> (x <= 0)%Q -> Py.int x = 0.
Proof.
  intros H1 H2. unfold Py.int. destruct x as [n d].
  unfold Qlt, Qle in *. simpl in *.
  replace n with (- (- n)) by lia. rewrite Z.quot_opp_l by lia.
  rewrite Z.quot_small; lia.
Qed.

Lemma Qfloor_small_neg_clamp x : (x <= 0)%Q -> Qfloor (clamp01 x * 5) = 0.
Proof.
  intros H. unfold clamp01.
  assert (E : (Qmax 0 (Qmin 1 x) * 5 == inject_Z 0)%Q).
  { rewrite Q.max_l; [reflexivity|].
    apply Q.min_le_iff. right. exact H. }
  rewrite (Qfloor_comp _ _ E). apply Qfloor_Z.
Qed.

Lemma Qfloor_ge (z : Z) x : (inject_Z z <= x)%Q -> z <= Qfloor x.
Proof. intros H. rewrite <- (Qfloor_Z z). now apply Qfloor_resp_le. Qed.

Lemma Qfloor_lt (z : Z) x : (x < inject_Z z)%Q -> Qfloor x < z.
Proof.
  intros H. destruct (Z_lt_le_dec (Qfloor x) z) as [|Hge]; [assumption|].
  exfalso. apply (Qlt_irrefl x).
  eapply Qlt_le_trans; [exact H|].
  eapply Qle_trans; [|apply Qfloor_le].
  rewrite <- Zle_Qle. exact Hge.
Qed.

Lemma list_index_FailureType_bound t :
  (list_index t FailureType_list < length FailureType_list)%nat.
Proof. destruct t; vm_compute; lia. Qed.

(** On severities above -0.2 the bucket computed by the code is the bucket
    of the clamped severity. *)
Lemma severity_level_clamped sev :
  (- (1 # 5) < sev)%Q ->
  Z.min 4 (Py.int (sev * 5)) = Z.min 4 (Qfloor (clamp01 sev * 5)).
Proof.
  intros Hlo. destruct (Qlt_le_dec sev 0) as [Hneg|Hpos].
  - rewrite int_small_neg by lra.
    rewrite Qfloor_small_neg_clamp by lra. reflexivity.
  - rewrite int_nonneg by lra.
    destruct (Qlt_le_dec 1 sev) as [Hbig|Hle].
    + assert (5 <= Qfloor (sev * 5)) by (apply Qfloor_ge; unfold inject_Z; lra).
      assert (E : (clamp01 sev * 5 == inject_Z 5)%Q).
      { unfold clamp01. rewrite Q.min_l by lra. rewrite Q.max_r by lra.
        reflexivity. }
      rewrite (Qfloor_comp _ _ E), Qfloor_Z. lia.
    + assert (E : (clamp01 sev * 5 == sev * 5)%Q).
      { unfold clamp01. rewrite Q.min_r by lra. rewrite Q.max_r by lra.
        reflexivity. }
      now rewrite (Qfloor_comp _ _ E).
Qed.

Lemma severity_level_range sev :
  (- (1 # 5) < sev)%Q -> 0 <= Z.min 4 (Py.int (sev * 5)) <= 4.
Proof.
  intros Hlo. split; [|lia].
  destruct (Qlt_le_dec sev 0) as [Hneg|Hpos].
  - rewrite int_small_neg by lra. lia.
  - rewrite int_nonneg by lra.
    assert (0 <= Qfloor (sev * 5)) by (apply Qfloor_ge; unfold inject_Z; lra). lia.
Qed.

(** ** C1: state encoding *)

(** C1 (as stated) fails: the code performs no lower clamp.  At severity
    -1 the code answers -5, outside every bucket, where the clamped
    formula answers 0. *)
Lemma C1_encode_state_no_lower_clamp :
  encode_state (mk_event CPU_OVERLOAD (-1)) = -5 /\
  encode_state_spec CPU_OVERLOAD (-1) = 0 /\
  encode_state (mk_event CPU_OVERLOAD (-1))
    <> encode_state_spec CPU_OVERLOAD (-1).
Proof. vm_compute. repeat split; congruence. Qed.

(** C1 (amended): for every failure type and every severity above -0.2, in
    particular everywhere on the documented range [0,1], [encode_state]
    returns index(failure_type) * 5 + min(4, floor(clamp(severity) * 5)),
    a single integer in [0, |FailureType| * 5) = [0, 40); severity 1.0
    lands in bucket 4 of its failure type. *)
Theorem C1_encode_state_buckets (failure_event : FailureEvent) :
  (- (1 # 5) < severity failure_event)%Q ->
  encode_state failure_event
    = encode_state_spec (failure_type failure_event) (severity failure_event)
  /\ 0 <= encode_state failure_event
       < Z.of_nat (length FailureType_list) * 5
  /\ Z.of_nat (length FailureType_list) * 5 = 40
  /\ ((severity failure_event == 1)%Q ->
      encode_state failure_event
        = Z.of_nat (list_index (failure_type failure_event) FailureType_list) * 5 + 4).
Proof.
  intros Hlo. unfold encode_state, encode_state_spec.
  pose proof (severity_level_clamped _ Hlo) as Hc.
  pose proof (severity_level_range _ Hlo) as Hr.
  pose proof (list_index_FailureType_bound (failure_type failure_event)) as Hi.
  repeat split.
  - now rewrite Hc.
  - lia.
  - lia.
  - intros H1.
    assert (E : (severity failure_event * 5 == inject_Z 5)%Q).
    { rewrite H1. reflexivity. }
    rewrite int_nonneg by lra. rewrite (Qfloor_comp _ _ E), Qfloor_Z.
    reflexivity.
Qed.

Lemma C1_encode_state_buckets_witness :
  encode_state (mk_event UNKNOWN 1) = 39.
Proof.
  destruct (C1_encode_state_buckets (mk_event UNKNOWN 1)) as (_ & _ & _ & H).
  - reflexivity.
  - rewrite H; reflexivity.
Defined.

(** ** C6: reward shaping *)

Lemma fold_left_Qplus xs a : (fold_left Qplus xs a == a + sigma xs)%Q.
Proof.
  revert a. induction xs as [|x xs IH]; intros a; simpl.
  - lra.
  - rewrite IH. lra.
Qed.

Lemma sum_sigma xs : (Py.sum xs == sigma xs)%Q.
Proof. unfold Py.sum. rewrite fold_left_Qplus. lra. Qed.

Lemma clip_is_clamp x y :
  (x == y)%Q -> (Qmax (-2) (Qmin 2 x) == clamp y (-2) 2)%Q.
Proof.
  intros E. unfold clamp.
  destruct (Qltb y (-2)) eqn:E1.
  - apply Qltb_lt in E1.
    rewrite Q.max_l; [reflexivity|].
    rewrite Q.min_r by lra. lra.
  - apply Qltb_ge in E1.
    destruct (Qltb 2 y) eqn:E2.
    + apply Qltb_lt in E2.
      rewrite Q.min_l by lra. rewrite Q.max_r by lra. reflexivity.
    + apply Qltb_ge in E2.
      rewrite Q.min_r by lra. rewrite Q.max_r by lra. exact E.
Qed.

Lemma clip_bounds x : (-2 <= Qmax (-2) (Qmin 2 x) <= 2)%Q.
Proof.
  split.
  - apply Q.le_max_l.
  - apply Q.max_lub; [lra | apply Q.le_min_l].
Qed.

(** C6: [calculate_reward] returns exactly
    clamp((+1 if success else -1) + severity * 0.5
          - min(0.5, actual_duration / 300)
          + 0.1 * sum(improvement_metrics values)
          - 0.1 * |side_effects|, -2, 2),
    so the reward always lies in [-2, 2]. *)
Theorem C6_calculate_reward_formula (healing_result : HealingResult) (sev : Q) :
  (calculate_reward healing_result sev == reward_spec healing_result sev
   /\ -2 <= calculate_reward healing_result sev <= 2)%Q.
Proof.
  split; [|apply clip_bounds].
  unfold calculate_reward, reward_spec. apply clip_is_clamp.
  rewrite sum_sigma.
  generalize (sigma (map snd (improvement_metrics healing_result))).
  generalize (inject_Z (Z.of_nat (length (side_effects healing_result)))).
  intros n s.
  assert (Et : (Qmin (1 # 2) (actual_duration healing_result / 300)
                == Qmin (5 # 10) (actual_duration healing_result / 300))%Q).
  { apply Q.min_compat; reflexivity. }
  rewrite Et.
  generalize (Qmin (5 # 10) (actual_duration healing_result / 300)).
  intros tp. destruct (success healing_result); lra.
Qed.

(** ** C5: greedy action selection *)

Lemma index_lookup {A} (xs : list A) (i : Z) (x : A) :
  0 <= i -> xs !! Z.to_nat i = Some x -> Py.index xs i = Ok x.
Proof.
  intros Hi Hx. unfold Py.index.
  pose proof (lookup_lt_Some _ _ _ Hx) as Hlt.
  destruct (Z.ltb_spec i 0); [lia|].
  destruct (Z.leb_spec 0 i); [|lia].
  destruct (Z.ltb_spec i (Z.of_nat (length xs))); [|lia].
  simpl. now rewrite Hx.
Qed.

Lemma argmax_from_first_max xs : forall pre best_i best_v,
  is_first_max pre best_i best_v ->
  exists v, is_first_max (pre ++ xs)
              (argmax_from best_i best_v (length pre) xs) v.
Proof.
  induction xs as [|x xs IH]; intros pre best_i best_v (Ha & Hb & Hc); simpl.
  - exists best_v. rewrite app_nil_r. now repeat split.
  - replace (pre ++ x :: xs) with ((pre ++ [x]) ++ xs)
      by (now rewrite <- app_assoc).
    replace (S (length pre)) with (length (pre ++ [x]))
      by (rewrite length_app; simpl; lia).
    destruct (Qltb best_v x) eqn:E.
    + apply Qltb_lt in E. apply IH. repeat split.
      * rewrite lookup_app_r by lia. now rewrite Nat.sub_diag.
      * intros j w Hj. apply lookup_app_Some in Hj as [Hj|[_ Hj]].
        -- specialize (Hb _ _ Hj). lra.
        -- apply list_lookup_singleton_Some in Hj as [_ <-]. lra.
      * intros j w Hlt Hj. rewrite lookup_app_l in Hj by lia.
        specialize (Hb _ _ Hj). lra.
    + apply Qltb_ge in E. apply IH. repeat split.
      * apply lookup_app_l_Some. exact Ha.
      * intros j w Hj. apply lookup_app_Some in Hj as [Hj|[_ Hj]].
        -- now apply (Hb j).
        -- apply list_lookup_singleton_Some in Hj as [_ <-]. exact E.
      * intros j w Hlt Hj.
        pose proof (lookup_lt_Some _ _ _ Ha) as Hbi.
        rewrite lookup_app_l in Hj by lia.
        now apply (Hc j).
Qed.

Lemma argmax_first_max row :
  row <> [] -> exists a v, argmax row = Ok a /\ is_first_max row a v.
Proof.
  destruct row as [|x xs]; [congruence|]. intros _. simpl.
  destruct (argmax_from_first_max xs [x] 0%nat x) as [v Hv].
  - repeat split.
    + intros j w Hj. apply list_lookup_singleton_Some in Hj as [_ <-]. lra.
    + intros j w Hlt. lia.
  - exists (argmax_from 0 x 1 xs), v. split; [reflexivity|exact Hv].
Qed.

Lemma choose_action_greedy ag draw rand state row :
  (epsilon ag == 0)%Q -> (0 <= draw)%Q -> 0 <= state ->
  q_table ag !! Z.to_nat state = Some row ->
  choose_action ag draw rand state = argmax row.
Proof.
  intros He Hd Hs Hrow. unfold choose_action.
  assert (E : Qltb draw (epsilon ag) = false) by (apply Qltb_ge; lra).
  rewrite E, (index_lookup _ _ _ Hs Hrow). reflexivity.
Qed.

(** C5: with epsilon = 0, on every valid state [choose_action] returns the
    lowest index among those maximizing Q[state]; any later call that
    finds the same row, whatever the random draws, returns the same
    action. *)
Theorem C5_choose_action_argmax (ag : QLearningAgent) (state : Z)
    (draw : Q) (rand : nat) :
  wf_agent ag ->
  0 <= state < Z.of_nat (n_states ag) ->
  (epsilon ag == 0)%Q ->
  (0 <= draw)%Q ->
  exists row a v,
    q_table ag !! Z.to_nat state = Some row
    /\ choose_action ag draw rand state = Ok a
    /\ is_first_max row a v
    /\ forall ag' draw' rand',
         (epsilon ag' == 0)%Q -> (0 <= draw')%Q ->
         q_table ag' !! Z.to_nat state = Some row ->
         choose_action ag' draw' rand' state = Ok a.
Proof.
  intros (Hlen & Hrows & _ & _ & Hpos) Hs He Hd.
  destruct (lookup_lt_is_Some_2 (q_table ag) (Z.to_nat state)) as [row Hrow];
    [lia|].
  assert (Hne : row <> []).
  { pose proof (Forall_lookup_1 _ _ _ _ Hrows Hrow) as Hr.
    intros ->. simpl in Hr. lia. }
  destruct (argmax_first_max row Hne) as (a & v & Ha & Hfm).
  exists row, a, v. repeat split; try apply Hfm; try assumption.
  - rewrite (choose_action_greedy ag draw rand state row); auto. lia.
  - intros ag' draw' rand' He' Hd' Hrow'.
    rewrite (choose_action_greedy ag' draw' rand' state row); auto. lia.
Qed.

Lemma C5_choose_action_argmax_witness :
  exists row a v,
    q_table small_agent !! Z.to_nat 0 = Some row
    /\ choose_action small_agent 0 2 0 = Ok a
    /\ is_first_max row a v
    /\ forall ag' draw' rand',
         (epsilon ag' == 0)%Q -> (0 <= draw')%Q ->
         q_table ag' !! Z.to_nat 0 = Some row ->
         choose_action ag' draw' rand' 0 = Ok a.
Proof.
  apply (C5_choose_action_argmax small_agent 0 0%Q 2%nat).
  - unfold wf_agent. simpl. repeat split; try lia; repeat constructor.
  - simpl. lia.
  - reflexivity.
  - lra.
Defined.

Example small_agent_picks_first_of_tied_maxima :
  choose_action small_agent 0 2 0 = Ok 1%nat.
Proof. reflexivity. Qed.

(** ** C7: direction of repeated TD updates *)

Lemma set_index_valid {A} (xs : list A) (i : Z) (v : A) :
  0 <= i < Z.of_nat (length xs) ->
  Py.set_index xs i v = Ok (<[Z.to_nat i := v]> xs).
Proof.
  intros Hi. unfold Py.set_index.
  destruct (Z.ltb_spec i 0); [lia|].
  destruct (Z.leb_spec 0 i); [|lia].
  destruct (Z.ltb_spec i (Z.of_nat (length xs))); [|lia].
  reflexivity.
Qed.

Lemma get_cell_lookup table s a row q :
  0 <= s -> 0 <= a ->
  table !! Z.to_nat s = Some row -> row !! Z.to_nat a = Some q ->
  get_cell table s a = Ok q.
Proof.
  intros Hs Ha Hrow Hq. unfold get_cell.
  rewrite (index_lookup _ _ _ Hs Hrow). simpl. now apply index_lookup.
Qed.

Lemma set_cell_lookup table s a row v :
  0 <= s -> 0 <= a < Z.of_nat (length row) ->
  table !! Z.to_nat s = Some row ->
  set_cell table s a v
    = Ok (<[Z.to_nat s := <[Z.to_nat a := v]> row]> table).
Proof.
  intros Hs Ha Hrow. unfold set_cell.
  rewrite (index_lookup _ _ _ Hs Hrow). simpl.
  rewrite set_index_valid by lia. simpl.
  apply set_index_valid.
  pose proof (lookup_lt_Some _ _ _ Hrow). lia.
Qed.

(** One update on a well-formed agent succeeds and rewrites exactly the
    cell (state, action). *)
Lemma update_q_value_step ag s a r row q i m :
  wf_agent ag ->
  0 <= s < Z.of_nat (n_states ag) -> 0 <= a < Z.of_nat (n_actions ag) ->
  q_table ag !! Z.to_nat s = Some row -> row !! Z.to_nat a = Some q ->
  argmax row = Ok i -> row !! i = Some m ->
  exists ag',
    update_q_value ag s a r s = Ok ag'
    /\ wf_agent ag' /\ same_params ag ag'
    /\ q_table ag'
       = <[Z.to_nat s :=
             <[Z.to_nat a :=
                 (q + learning_rate ag * (r + discount_factor ag * m - q))%Q]> row]>
           (q_table ag).
Proof.
  intros (Hlen & Hrows & Hclen & Hcrows & Hpos) Hs Ha Hrow Hq Hi Hm.
  pose proof (Forall_lookup_1 _ _ _ _ Hrows Hrow) as Hrl. simpl in Hrl.
  destruct (lookup_lt_is_Some_2 (state_action_counts ag) (Z.to_nat s))
    as [crow Hcrow]; [lia|].
  pose proof (Forall_lookup_1 _ _ _ _ Hcrows Hcrow) as Hcl. simpl in Hcl.
  destruct (lookup_lt_is_Some_2 crow (Z.to_nat a)) as [c Hc]; [lia|].
  unfold update_q_value.
  rewrite (index_lookup _ _ _ (proj1 Hs) Hrow). simpl.
  rewrite Hi. simpl.
  rewrite (index_lookup row (Z.of_nat i) m) by (try lia; now rewrite Nat2Z.id).
  simpl.
  rewrite (get_cell_lookup _ s a row q) by (auto; lia). simpl.
  rewrite (set_cell_lookup _ s a row) by (auto; lia). simpl.
  rewrite (get_cell_lookup _ s a crow c) by (auto; lia). simpl.
  rewrite (set_cell_lookup _ s a crow) by (auto; lia). simpl.
  eexists. split; [reflexivity|]. split; [|split].
  - unfold wf_agent. simpl.
    repeat split; try assumption.
    + now rewrite length_insert.
    + apply Forall_insert; [assumption|]. now rewrite length_insert.
    + now rewrite length_insert.
    + apply Forall_insert; [assumption|]. now rewrite length_insert.
  - unfold same_params. simpl. repeat split.
  - reflexivity.
Qed.

(** How the row maximum moves when one cell is overwritten. *)
Lemma first_max_after_write row a q q' i m i' m' :
  row !! a = Some q ->
  is_first_max row i m ->
  is_first_max (<[a := q']> row) i' m' ->
  ((q <= q')%Q -> (m <= m')%Q) /\ ((q' <= q)%Q -> (m' <= m)%Q).
Proof.
  intros Hq (Hi & Hall & _) (Hi' & Hall' & _).
  pose proof (lookup_lt_Some _ _ _ Hq) as Hlt.
  assert (Hqa : <[a := q']> row !! a = Some q')
    by now apply list_lookup_insert_eq.
  split; intros Hle.
  - destruct (decide (i = a)) as [->|Hne].
    + assert (m = q) by congruence. subst m.
      specialize (Hall' _ _ Hqa). lra.
    + apply (Hall' i). now rewrite list_lookup_insert_ne.
  - destruct (decide (i' = a)) as [->|Hne].
    + assert (m' = q') by congruence. subst m'.
      specialize (Hall _ _ Hq). lra.
    + rewrite list_lookup_insert_ne in Hi' by congruence.
      now apply (Hall i').
Qed.

Lemma td_move_up (al ga r q m m' : Q) :
  (0 < al)%Q -> (al < 1)%Q -> (0 <= ga)%Q -> (m <= m')%Q ->
  (q < r + ga * m)%Q ->
  (q < q + al * (r + ga * m - q)
   /\ q + al * (r + ga * m - q) < r + ga * m')%Q.
Proof.
  intros H0 H1 Hg Hm Hlt.
  assert (Hgm : (ga * m <= ga * m')%Q) by nra.
  assert (Ht : (r + ga * m <= r + ga * m')%Q) by lra.
  revert Ht Hlt. generalize (r + ga * m)%Q. intros t Ht Hlt.
  assert (Hd : (0 < t - q)%Q) by lra.
  assert (Hp : (0 < al * (t - q))%Q) by (apply Qmult_lt_0_compat; assumption).
  assert (Hs : (0 < (1 - al) * (t - q))%Q) by (apply Qmult_lt_0_compat; lra).
  split; [lra|].
  assert (E : (q + al * (t - q) == t - (1 - al) * (t - q))%Q) by ring.
  rewrite E. lra.
Qed.

Lemma td_move_down (al ga r q m m' : Q) :
  (0 < al)%Q -> (al < 1)%Q -> (0 <= ga)%Q -> (m' <= m)%Q ->
  (r + ga * m < q)%Q ->
  (q + al * (r + ga * m - q) < q
   /\ r + ga * m' < q + al * (r + ga * m - q))%Q.
Proof.
  intros H0 H1 Hg Hm Hlt.
  assert (Hgm : (ga * m' <= ga * m)%Q) by nra.
  assert (Ht : (r + ga * m' <= r + ga * m)%Q) by lra.
  revert Ht Hlt. generalize (r + ga * m)%Q. intros t Ht Hlt.
  assert (Hd : (0 < q - t)%Q) by lra.
  assert (Hp : (0 < al * (q - t))%Q) by (apply Qmult_lt_0_compat; assumption).
  assert (Hs : (0 < (1 - al) * (q - t))%Q) by (apply Qmult_lt_0_compat; lra).
  split.
  - assert (E : (q + al * (t - q) == q - al * (q - t))%Q) by ring.
    rewrite E. lra.
  - assert (E : (q + al * (t - q) == t + (1 - al) * (q - t))%Q) by ring.
    rewrite E. lra.
Qed.

Lemma agent_cell ag s a :
  wf_agent ag ->
  0 <= s < Z.of_nat (n_states ag) -> 0 <= a < Z.of_nat (n_actions ag) ->
  exists row q i m,
    q_table ag !! Z.to_nat s = Some row /\ row !! Z.to_nat a = Some q
    /\ argmax row = Ok i /\ is_first_max row i m.
Proof.
  intros (Hlen & Hrows & _ & _ & Hpos) Hs Ha.
  destruct (lookup_lt_is_Some_2 (q_table ag) (Z.to_nat s)) as [row Hrow];
    [lia|].
  pose proof (Forall_lookup_1 _ _ _ _ Hrows Hrow) as Hrl. simpl in Hrl.
  destruct (lookup_lt_is_Some_2 row (Z.to_nat a)) as [q Hq]; [lia|].
  destruct (argmax_first_max row) as (i & m & Hi & Hfm).
  { intros ->. simpl in Hrl. lia. }
  exists row, q, i, m. auto.
Qed.

Lemma td_target_lookup ag r s row i m :
  0 <= s -> q_table ag !! Z.to_nat s = Some row ->
  argmax row = Ok i -> row !! i = Some m ->
  td_target ag r s = Ok (r + discount_factor ag * m)%Q.
Proof.
  intros Hs Hrow Hi Hm. unfold td_target.
  rewrite (index_lookup _ _ _ Hs Hrow). simpl. rewrite Hi. simpl.
  rewrite (index_lookup row (Z.of_nat i) m) by (try lia; now rewrite Nat2Z.id).
  reflexivity.
Qed.

Section RepeatedUpdates.
Variables (ag : QLearningAgent) (s a : Z) (r : Q).
Variables (row0 : list Q) (q0 : Q) (i0 : nat) (m0 : Q).
Hypothesis Hwf : wf_agent ag.
Hypothesis Hs : 0 <= s < Z.of_nat (n_states ag).
Hypothesis Ha : 0 <= a < Z.of_nat (n_actions ag).
Hypothesis Hal : (0 < learning_rate ag /\ learning_rate ag < 1)%Q.
Hypothesis Hga : (0 <= discount_factor ag)%Q.
Hypothesis Hrow0 : q_table ag !! Z.to_nat s = Some row0.
Hypothesis Hq0 : row0 !! Z.to_nat a = Some q0.
Hypothesis Hi0 : argmax row0 = Ok i0.
Hypothesis Hm0 : is_first_max row0 i0 m0.

(** The side of the TD target on which the cell starts is the side on
    which it stays. *)
Lemma repeat_update_invariant (n : nat) :
  exists ag_n row q i m,
    repeat_update n ag s a r = Ok ag_n
    /\ wf_agent ag_n /\ same_params ag ag_n
    /\ q_table ag_n !! Z.to_nat s = Some row
    /\ row !! Z.to_nat a = Some q
    /\ argmax row = Ok i /\ is_first_max row i m
    /\ ((q0 < r + discount_factor ag * m0)%Q ->
        (q < r + discount_factor ag * m)%Q)
    /\ ((r + discount_factor ag * m0 < q0)%Q ->
        (r + discount_factor ag * m < q)%Q).
Proof.
  induction n as [|n IH].
  - exists ag, row0, q0, i0, m0. simpl.
    split; [reflexivity|]. split; [exact Hwf|].
    split; [unfold same_params; auto|]. auto 10.
  - destruct IH as (ag_n & row & q & i & m & Hn & Hwfn & Hsame & Hrow & Hq
                    & Hi & Hm & Hup & Hdown).
    destruct Hsame as (Hns & Hna & Hlr & Hdf).
    destruct (update_q_value_step ag_n s a r row q i m)
      as (ag' & Hstep & Hwf' & Hsame' & Htab);
      try assumption; try (rewrite ?Hns, ?Hna; assumption); [apply Hm|].
    rewrite Hlr, Hdf in Htab.
    set (q' := (q + learning_rate ag * (r + discount_factor ag * m - q))%Q) in *.
    pose proof (lookup_lt_Some _ _ _ Hrow) as Hslt.
    pose proof (lookup_lt_Some _ _ _ Hq) as Halt.
    assert (Hrow' : q_table ag' !! Z.to_nat s = Some (<[Z.to_nat a := q']> row)).
    { rewrite Htab. now apply list_lookup_insert_eq. }
    assert (Hq' : <[Z.to_nat a := q']> row !! Z.to_nat a = Some q')
      by now apply list_lookup_insert_eq.
    destruct (argmax_first_max (<[Z.to_nat a := q']> row))
      as (i' & m' & Hi' & Hm').
    { intros E. apply (f_equal length) in E.
      rewrite length_insert in E. simpl in E. lia. }
    destruct (first_max_after_write row (Z.to_nat a) q q' i m i' m' Hq Hm Hm')
      as [Hmono_up Hmono_down].
    exists ag', (<[Z.to_nat a := q']> row), q', i', m'.
    split; [simpl; rewrite Hn; exact Hstep|].
    split; [exact Hwf'|].
    split.
    { destruct Hsame' as (A & B & C & D).
      unfold same_params. rewrite A, B, C, D. auto. }
    repeat split; try assumption; try apply Hm'.
    + intros H. specialize (Hup H).
      destruct (td_move_up (learning_rate ag) (discount_factor ag) r q m m)
        as [Hlt _]; try apply Hal; try assumption; [lra|].
      destruct (td_move_up (learning_rate ag) (discount_factor ag) r q m m')
        as [_ Hlt']; try apply Hal; try assumption.
      apply Hmono_up. unfold q'. lra.
    + intros H. specialize (Hdown H).
      destruct (td_move_down (learning_rate ag) (discount_factor ag) r q m m)
        as [Hlt _]; try apply Hal; try assumption; [lra|].
      destruct (td_move_down (learning_rate ag) (discount_factor ag) r q m m')
        as [_ Hlt']; try apply Hal; try assumption.
      apply Hmono_down. unfold q'. lra.
Qed.

Lemma repeat_update_direction (n : nat) :
  exists ag1 ag2 q1 q2,
    repeat_update n ag s a r = Ok ag1
    /\ repeat_update (S n) ag s a r = Ok ag2
    /\ get_cell (q_table ag1) s a = Ok q1
    /\ get_cell (q_table ag2) s a = Ok q2
    /\ ((q0 < r + discount_factor ag * m0)%Q -> (q1 < q2)%Q)
    /\ ((r + discount_factor ag * m0 < q0)%Q -> (q2 < q1)%Q).
Proof.
  destruct (repeat_update_invariant n)
    as (ag_n & row & q & i & m & Hn & Hwfn & Hsame & Hrow & Hq
        & Hi & Hm & Hup & Hdown).
  destruct Hsame as (Hns & Hna & Hlr & Hdf).
  destruct (update_q_value_step ag_n s a r row q i m)
    as (ag' & Hstep & Hwf' & Hsame' & Htab);
    try assumption; try (rewrite ?Hns, ?Hna; assumption); [apply Hm|].
  rewrite Hlr, Hdf in Htab.
  pose proof (lookup_lt_Some _ _ _ Hrow) as Hslt.
  pose proof (lookup_lt_Some _ _ _ Hq) as Halt.
  exists ag_n, ag', q,
    (q + learning_rate ag * (r + discount_factor ag * m - q))%Q.
  split; [exact Hn|].
  split; [simpl; rewrite Hn; exact Hstep|].
  split; [apply (get_cell_lookup _ s a row q); auto; lia|].
  split.
  { apply (get_cell_lookup _ s a
             (<[Z.to_nat a :=
                  (q + learning_rate ag * (r + discount_factor ag * m - q))%Q]> row));
      try lia.
    - rewrite Htab. now apply list_lookup_insert_eq.
    - now apply list_lookup_insert_eq. }
  split; intros H.
  - specialize (Hup H).
    destruct (td_move_up (learning_rate ag) (discount_factor ag) r q m m)
      as [Hlt _]; try apply Hal; try assumption; lra.
  - specialize (Hdown H).
    destruct (td_move_down (learning_rate ag) (discount_factor ag) r q m m)
      as [Hlt _]; try apply Hal; try assumption; lra.
Qed.
End RepeatedUpdates.

(** C7 (as stated) fails: the success flag alone does not fix the
    direction.  After three successful outcomes on cell (0, 0) the row
    maximum is high enough that a failed outcome on cell (0, 1) moves
    Q[0][1] up, from 0 to a positive value. *)
Lemma C7_failed_outcome_raises_q :
  exists ag ag' q',
    trained_agent = Ok ag
    /\ success plain_failure = false
    /\ get_cell (q_table ag) 0 1 = Ok 0%Q
    /\ update_q_value ag 0 1 (calculate_reward plain_failure 1) 0 = Ok ag'
    /\ get_cell (q_table ag') 0 1 = Ok q'
    /\ (0 < q')%Q /\ ~ (q' < 0)%Q.
Proof.
  do 3 eexists.
  split; [vm_compute; reflexivity|].
  split; [reflexivity|].
  split; [vm_compute; reflexivity|].
  split; [vm_compute; reflexivity|].
  split; [vm_compute; reflexivity|].
  split; [reflexivity | discriminate].
Qed.

(** C7 (amended): for a fixed (state, action) with next_state = state, a
    learning rate in (0,1) and a non-negative discount, every one of a
    sequence of TD updates with the reward of one healing outcome succeeds;
    each strictly increases Q[state][action] when the cell starts below
    its TD target reward + gamma * max Q[state], and each strictly
    decreases it when the cell starts above that target. *)
Theorem C7_td_update_direction (ag : QLearningAgent) (s a : Z)
    (healing_result : HealingResult) (sev : Q) :
  wf_agent ag ->
  0 <= s < Z.of_nat (n_states ag) ->
  0 <= a < Z.of_nat (n_actions ag) ->
  (0 < learning_rate ag /\ learning_rate ag < 1)%Q ->
  (0 <= discount_factor ag)%Q ->
  exists q0 t0,
    get_cell (q_table ag) s a = Ok q0
    /\ td_target ag (calculate_reward healing_result sev) s = Ok t0
    /\ forall n, exists ag1 ag2 q1 q2,
         repeat_update n ag s a (calculate_reward healing_result sev) = Ok ag1
         /\ repeat_update (S n) ag s a (calculate_reward healing_result sev)
            = Ok ag2
         /\ get_cell (q_table ag1) s a = Ok q1
         /\ get_cell (q_table ag2) s a = Ok q2
         /\ ((q0 < t0)%Q -> (q1 < q2)%Q)
         /\ ((t0 < q0)%Q -> (q2 < q1)%Q).
Proof.
  intros Hwf Hs Ha Hal Hga.
  destruct (agent_cell ag s a Hwf Hs Ha) as (row & q & i & m & Hrow & Hq & Hi & Hm).
  exists q, (calculate_reward healing_result sev + discount_factor ag * m)%Q.
  split; [apply (get_cell_lookup _ s a row q); auto; lia|].
  split; [apply (td_target_lookup ag _ s row i m); auto; [lia | apply Hm]|].
  intros n.
  exact (repeat_update_direction ag s a (calculate_reward healing_result sev)
           row q i m Hwf Hs Ha Hal Hga Hrow Hq Hi Hm n).
Qed.

Lemma C7_td_update_direction_witness :
  exists q0 t0,
    get_cell (q_table small_agent) 1 0 = Ok q0
    /\ td_target small_agent (calculate_reward good_result 1) 1 = Ok t0
    /\ forall n, exists ag1 ag2 q1 q2,
         repeat_update n small_agent 1 0 (calculate_reward good_result 1) = Ok ag1
         /\ repeat_update (S n) small_agent 1 0 (calculate_reward good_result 1)
            = Ok ag2
         /\ get_cell (q_table ag1) 1 0 = Ok q1
         /\ get_cell (q_table ag2) 1 0 = Ok q2
         /\ ((q0 < t0)%Q -> (q1 < q2)%Q)
         /\ ((t0 < q0)%Q -> (q2 < q1)%Q).
Proof.
  apply (C7_td_update_direction small_agent 1 0 good_result 1).
  - unfold wf_agent. simpl. repeat split; try lia; repeat constructor.
  - simpl. lia.
  - simpl. lia.
  - simpl. split; reflexivity.
  - simpl. discriminate.
Defined.

(** ** Reasoning about the state-and-exception monad *)

Lemma mbind_inv {S A B} (m : M S A) (k : A -> M S B) s s' b :
  mbind m k s = (s', Ok b) ->
  exists s1 a, m s = (s1, Ok a) /\ k a s1 = (s', Ok b).
Proof.
  unfold mbind. destruct (m s) as [s1 [a|e]]; intros H.
  - eauto.
  - discriminate.
Qed.

Lemma mbind_ok {S A B} (m : M S A) (k : A -> M S B) s s1 a :
  m s = (s1, Ok a) -> mbind m k s = k a s1.
Proof. intros H. unfold mbind. now rewrite H. Qed.

Lemma mbind_raise {S A B} (m : M S A) (k : A -> M S B) s s1 e :
  m s = (s1, Raise e) -> mbind m k s = (s1, Raise e).
Proof. intros H. unfold mbind. now rewrite H. Qed.

Tactic Notation "minv" hyp(H) "as" ident(s1) ident(a) ident(H1) :=
  apply mbind_inv in H as (s1 & a & H1 & H).

Lemma same_but_rates_refl s : same_but_rates s s.
Proof. unfold same_but_rates. auto 10. Qed.

Lemma same_but_rates_trans s1 s2 s3 :
  same_but_rates s1 s2 -> same_but_rates s2 s3 -> same_but_rates s1 s3.
Proof.
  unfold same_but_rates.
  intros (A1 & A2 & A3 & A4 & A5 & A6 & A7 & A8 & A9)
         (B1 & B2 & B3 & B4 & B5 & B6 & B7 & B8 & B9).
  repeat split; try congruence; intros key; now rewrite B9.
Qed.

Lemma rates_lookup_spec key s :
  exists s', rates_lookup key s = (s', Ok (counters_of s key))
             /\ same_but_rates s s'.
Proof.
  unfold rates_lookup, counters_of.
  destruct (healing_success_rates s !! key) as [c|] eqn:E.
  - exists s. split; [reflexivity | apply same_but_rates_refl].
  - eexists. split; [reflexivity|].
    unfold same_but_rates. simpl. repeat split.
    intros key'. unfold counters_of. simpl.
    destruct (decide (key = key')) as [<-|Hne].
    + rewrite lookup_insert_eq, E. reflexivity.
    + now rewrite lookup_insert_ne.
Qed.

Lemma fallback_loop_spec t actions : forall best best_rate s,
  exists s' a, fallback_loop t actions best best_rate s = (s', Ok a)
               /\ same_but_rates s s'.
Proof.
  induction actions as [|x actions IH]; intros best best_rate s; simpl.
  - exists s, best. split; [reflexivity | apply same_but_rates_refl].
  - destruct (rates_lookup_spec (strategy_key t x) s) as (s1 & Hl & Hs1).
    rewrite (mbind_ok _ _ _ _ _ Hl).
    destruct (0 <? attempts (counters_of s (strategy_key t x)))%nat;
      [destruct (Qltb best_rate (rate (counters_of s (strategy_key t x))))|];
      match goal with
      | |- context [fallback_loop t actions ?b ?r s1] =>
          destruct (IH b r s1) as (s' & a & H & Hs'); exists s', a;
          split; [exact H | eapply same_but_rates_trans; eauto]
      end.
Qed.

Lemma mget_inv {S} (s s1 a : S) : mget s = (s1, Ok a) -> s1 = s /\ a = s.
Proof. unfold mget. intros H. inversion H. auto. Qed.

Lemma mlift_inv {S A} (r : result A) (s s1 : S) a :
  mlift r s = (s1, Ok a) -> s1 = s /\ r = Ok a.
Proof. unfold mlift. intros H. inversion H. auto. Qed.

Lemma mret_inv {S A} (x : A) (s s1 : S) a :
  mret x s = (s1, Ok a) -> s1 = s /\ a = x.
Proof. unfold mret. intros H. inversion H. auto. Qed.

Lemma mmodify_inv {S} (f : S -> S) (s s1 : S) a :
  mmodify f s = (s1, Ok a) -> s1 = f s.
Proof. unfold mmodify. intros H. inversion H. auto. Qed.

Lemma generate_healing_response_inv o ev s s' resp :
  generate_healing_response o ev s = (s', Ok resp) ->
  exists sug,
    suggested_action s o ev = Ok sug
    /\ same_but_rates s s'
    /\ (bool_decide (sug ∈ default [NO_ACTION]
                       (healing_strategies (config s) (failure_type ev)))
        || (length (failure_history s) <? 10)%nat = true ->
        action resp = sug)
    /\ success_probability resp
       = (let c := counters_of s (strategy_key (failure_type ev) (action resp)) in
          let base := snd (priority_and_base (config s) (severity ev)) in
          if (5 <? attempts c)%nat then ((base + rate c) / 2)%Q else base)
    /\ priority resp = fst (priority_and_base (config s) (severity ev))
    /\ response_id resp = new_response_id o.
Proof.
  unfold generate_healing_response. intros H.
  minv H as s0 x0 H0. apply mget_inv in H0 as [-> ->].
  minv H as s0 sug Hsug. apply mlift_inv in Hsug as [-> Hsug].
  minv H as s1 chosen Hch.
  minv H as s2 params Hadj. apply mlift_inv in Hadj as [-> Hadj].
  destruct (priority_and_base (config s) (severity ev)) as [prio base] eqn:Epb.
  minv H as s3 c Hl.
  destruct (rates_lookup_spec (strategy_key (failure_type ev) chosen) s1)
    as (s3' & Hl' & Hs3).
  rewrite Hl' in Hl. inversion Hl; subst s3' c; clear Hl.
  apply mret_inv in H as [-> ->]. simpl.
  assert (Hs1 : same_but_rates s s1 /\
                (bool_decide (sug ∈ default [NO_ACTION]
                       (healing_strategies (config s) (failure_type ev)))
                 || (length (failure_history s) <? 10)%nat = true ->
                 chosen = sug)).
  { destruct (bool_decide _ || _).
    - apply mret_inv in Hch as [-> ->].
      split; [apply same_but_rates_refl|auto].
    - minv Hch as s0 best Hbest. apply mlift_inv in Hbest as [-> _].
      destruct (fallback_loop_spec (failure_type ev)
                  (default [NO_ACTION]
                     (healing_strategies (config s) (failure_type ev)))
                  best 0%Q s) as (sx & ax & Hf & Hsx).
      rewrite Hf in Hch. inversion Hch; subst.
      split; [assumption|discriminate]. }
  destruct Hs1 as [Hs1 Hcold].
  exists sug. split; [assumption|].
  split; [eapply same_but_rates_trans; eauto|].
  split; [assumption|].
  split; [|auto].
  destruct Hs1 as (_ & _ & _ & _ & _ & _ & _ & _ & Hc).
  rewrite Hc. reflexivity.
Qed.

(** ** The failure history grows by one event per call *)

Lemma keeps_ret {A} (a : A) : keeps_history (mret a).
Proof. intros s. reflexivity. Qed.

Lemma keeps_lift {A} (r : result A) : keeps_history (mlift r).
Proof. intros s. reflexivity. Qed.

Lemma keeps_get : keeps_history mget.
Proof. intros s. reflexivity. Qed.

Lemma keeps_modify (f : Orchestrator -> Orchestrator) :
  (forall s, failure_history (f s) = failure_history s) ->
  keeps_history (mmodify f).
Proof. intros H s. apply H. Qed.

Lemma keeps_bind {A B} (m : M Orchestrator A) (k : A -> M Orchestrator B) :
  keeps_history m -> (forall a, keeps_history (k a)) ->
  keeps_history (mbind m k).
Proof.
  intros Hm Hk s. unfold mbind. specialize (Hm s).
  destruct (m s) as [s1 [a|e]]; simpl in *.
  - now rewrite Hk.
  - exact Hm.
Qed.

Lemma keeps_rates_lookup key : keeps_history (rates_lookup key).
Proof.
  intros s. destruct (rates_lookup_spec key s) as (s' & H & Hs).
  rewrite H. apply Hs.
Qed.

Lemma keeps_fallback_loop t actions best r :
  keeps_history (fallback_loop t actions best r).
Proof.
  intros s. destruct (fallback_loop_spec t actions best r s) as (s' & a & H & Hs).
  rewrite H. apply Hs.
Qed.

Lemma keeps_detect ev : keeps_history (detect_failure_patterns ev).
Proof. intros s. reflexivity. Qed.

Ltac keeps :=
  repeat first
    [ apply keeps_ret | apply keeps_lift | apply keeps_get
    | apply keeps_rates_lookup | apply keeps_fallback_loop | apply keeps_detect
    | apply keeps_modify; intros; reflexivity
    | match goal with
      | |- keeps_history (if ?c then _ else _) => destruct c
      | |- keeps_history (let '(_, _) := ?p in _) => destruct p
      end
    | apply keeps_bind; [|intros] ].

Lemma keeps_generate o ev : keeps_history (generate_healing_response o ev).
Proof.
  unfold generate_healing_response. keeps.
Qed.

Lemma keeps_incr_attempts key : keeps_history (incr_attempts key).
Proof. unfold incr_attempts. keeps. Qed.

Lemma keeps_incr_successes key : keeps_history (incr_successes key).
Proof. unfold incr_successes. keeps. Qed.

Lemma handle_failure_history ex o ev s :
  failure_history (fst (handle_failure ex o ev s))
  = Py.deque_append 1000 (failure_history s) ev.
Proof.
  unfold handle_failure.
  match goal with
  | |- context [mbind (mmodify ?f) ?k] =>
      assert (Hk : keeps_history (k tt));
      [| unfold mbind at 1; simpl; rewrite Hk; reflexivity]
  end.
  keeps.
Qed.

Lemma length_deque_append {A} m (xs : list A) x :
  length (Py.deque_append m xs x) = Nat.min (S (length xs)) (Nat.max m (length xs)).
Proof.
  unfold Py.deque_append.
  destruct (Nat.ltb_spec m (length (xs ++ [x]))) as [H|H];
    rewrite ?length_drop, length_app in *;
    change (length [x]) with 1%nat in *; lia.
Qed.

Lemma after_calls_history cfg k s :
  after_calls cfg k s -> length (failure_history s) = Nat.min k 1000.
Proof.
  induction 1 as [|k s ex o ev _ IH].
  - reflexivity.
  - rewrite handle_failure_history, length_deque_append, IH. lia.
Qed.

(** ** One call of the pipeline, step by step *)

Lemma detect_failure_patterns_frame ev s s1 patterns :
  detect_failure_patterns ev s = (s1, Ok patterns) ->
  config s1 = config s /\ failure_history s1 = failure_history s
  /\ rl_agent s1 = rl_agent s
  /\ healing_success_rates s1 = healing_success_rates s.
Proof.
  unfold detect_failure_patterns. intros H. inversion H; subst. simpl. auto.
Qed.

Lemma incr_attempts_spec key s :
  exists s', incr_attempts key s = (s', Ok tt)
    /\ config s' = config s /\ failure_history s' = failure_history s
    /\ rl_agent s' = rl_agent s
    /\ forall k, counters_of s' k
         = if decide (k = key)
           then {| successes := successes (counters_of s key);
                   attempts := S (attempts (counters_of s key)) |}
           else counters_of s k.
Proof.
  unfold incr_attempts.
  destruct (rates_lookup_spec key s) as (s1 & Hl & Hs1).
  rewrite (mbind_ok _ _ _ _ _ Hl). unfold mmodify.
  eexists. split; [reflexivity|].
  destruct Hs1 as (A1 & A2 & _ & A4 & _ & _ & _ & _ & A9).
  simpl. repeat split; try assumption.
  intros k. unfold counters_of at 1. simpl.
  destruct (decide (k = key)) as [->|Hne].
  - now rewrite lookup_insert_eq.
  - rewrite lookup_insert_ne by congruence. apply A9.
Qed.

Lemma incr_successes_spec key s :
  exists s', incr_successes key s = (s', Ok tt)
    /\ config s' = config s /\ failure_history s' = failure_history s
    /\ rl_agent s' = rl_agent s
    /\ forall k, counters_of s' k
         = if decide (k = key)
           then {| successes := S (successes (counters_of s key));
                   attempts := attempts (counters_of s key) |}
           else counters_of s k.
Proof.
  unfold incr_successes.
  destruct (rates_lookup_spec key s) as (s1 & Hl & Hs1).
  rewrite (mbind_ok _ _ _ _ _ Hl). unfold mmodify.
  eexists. split; [reflexivity|].
  destruct Hs1 as (A1 & A2 & _ & A4 & _ & _ & _ & _ & A9).
  simpl. repeat split; try assumption.
  intros k. unfold counters_of at 1. simpl.
  destruct (decide (k = key)) as [->|Hne].
  - now rewrite lookup_insert_eq.
  - rewrite lookup_insert_ne by congruence. apply A9.
Qed.

Lemma handle_failure_inv ex o ev s s' sm :
  handle_failure ex o ev s = (s', Ok sm) ->
  exists s1 s2 patterns resp res,
    config s1 = config s
    /\ failure_history s1 = Py.deque_append 1000 (failure_history s) ev
    /\ rl_agent s1 = rl_agent s
    /\ (forall key, counters_of s1 key = counters_of s key)
    /\ generate_healing_response o ev s1 = (s2, Ok resp)
    /\ ex resp ev = Ok res
    /\ sm = {| failure_handled := true;
               healing_action := action resp;
               summary_success := success res;
               duration := actual_duration res;
               patterns_detected := patterns;
               summary_improvement_metrics := improvement_metrics res;
               summary_side_effects := side_effects res |}
    /\ forall key,
         counters_of s' key
         = if decide (key = strategy_key (failure_type ev) (action resp))
           then bumped (counters_of s2 key) (success res)
           else counters_of s2 key.
Proof.
  unfold handle_failure. intros H.
  minv H as s0 u0 H0. apply mmodify_inv in H0.
  minv H as s1 patterns Hdet.
  apply detect_failure_patterns_frame in Hdet as (D1 & D2 & D3 & D4).
  minv H as s2 resp Hgen.
  minv H as s3 res Hex. apply mlift_inv in Hex as [-> Hex].
  minv H as s3 u1 H1. apply mmodify_inv in H1.
  minv H as s4 sx H2. apply mget_inv in H2 as [-> ->].
  minv H as s4 ag' Hupd. apply mlift_inv in Hupd as [-> Hupd].
  minv H as s4 u2 H3. apply mmodify_inv in H3.
  minv H as s5 u3 H4.
  minv H as s6 u4 H5.
  minv H as s7 u5 H6. apply mmodify_inv in H6.
  apply mret_inv in H as [-> ->].
  exists s1, s2, patterns, resp, res.
  subst s0. simpl in D1, D2, D3, D4.
  split; [assumption|]. split; [assumption|]. split; [assumption|].
  split; [intros key; unfold counters_of; now rewrite D4|].
  split; [assumption|]. split; [assumption|]. split; [reflexivity|].
  intros key.
  destruct (incr_attempts_spec (strategy_key (failure_type ev) (action resp)) s4)
    as (s5' & E5 & _ & _ & _ & C5).
  rewrite E5 in H4. inversion H4; subst s5'; clear H4.
  assert (C4 : forall k, counters_of s4 k = counters_of s2 k).
  { intros k. subst s4 s3. reflexivity. }
  assert (C7 : forall k, counters_of s7 k = counters_of s6 k).
  { intros k. subst s7. reflexivity. }
  rewrite C7. unfold bumped.
  destruct (success res).
  - destruct (incr_successes_spec (strategy_key (failure_type ev) (action resp)) s5)
      as (s6' & E6 & _ & _ & _ & C6).
    rewrite E6 in H5. inversion H5; subst s6'; clear H5.
    rewrite C6, !C5. destruct (decide _) as [->|Hne].
    + destruct (decide _); [|congruence]. simpl. now rewrite C4.
    + now rewrite C4.
  - apply mret_inv in H5 as [-> _].
    rewrite C5. destruct (decide _) as [->|Hne]; now rewrite C4.
Qed.

Lemma strategy_key_inj t a t' a' :
  strategy_key t a = strategy_key t' a' -> t = t' /\ a = a'.
Proof.
  intros H. apply String.eqb_eq in H.
  destruct t, t'; try (destruct a, a'; vm_compute in H; discriminate H);
  destruct a, a'; first [split; reflexivity | vm_compute in H; discriminate H].
Qed.

(** ** C3: blending the base probability with the empirical rate *)

Lemma base_probability_default cfg sev :
  critical_severity cfg = 8 # 10 -> high_severity cfg = 6 # 10 ->
  medium_severity cfg = 4 # 10 ->
  snd (priority_and_base cfg sev) = base_probability sev.
Proof.
  intros H1 H2 H3. unfold priority_and_base, base_probability.
  rewrite H1, H2, H3.
  repeat match goal with |- context [Qle_bool ?a ?b] => destruct (Qle_bool a b) end;
    reflexivity.
Qed.

(** C3 (as stated) fails at exactly 5 attempts: the response keeps the
    base probability 0.9 although the pair has 5 recorded attempts, where
    the claim asks for (0.9 + 0/5) / 2. *)
Lemma C3_five_attempts_not_blended :
  exists resp,
    snd (generate_healing_response (explore 1) (mk_event CPU_OVERLOAD (9 # 10))
           (with_attempts 5)) = Ok resp
    /\ action resp = SCALE_UP
    /\ attempts (counters_of (with_attempts 5)
                   (strategy_key CPU_OVERLOAD SCALE_UP)) = 5%nat
    /\ success_probability resp = 9 # 10
    /\ ~ (success_probability resp
          == (base_probability (9 # 10)
              + rate (counters_of (with_attempts 5)
                        (strategy_key CPU_OVERLOAD SCALE_UP))) / 2)%Q.
Proof.
  eexists. split; [vm_compute; reflexivity|].
  split; [reflexivity|]. split; [reflexivity|]. split; [reflexivity|].
  vm_compute. discriminate.
Qed.

(** C3 (amended): in [generate_healing_response], whenever the chosen
    (failure_type, action) pair has more than 5 recorded attempts, the
    response's success_probability is (base + empirical) / 2, where base
    is the severity-threshold probability (0.9/0.8/0.7/0.6 under the
    default thresholds) and empirical is successes/attempts of the pair;
    with 5 attempts or fewer it is base alone. *)
Theorem C3_success_probability_blend (o : Oracle) (failure_event : FailureEvent)
    (s : Orchestrator) (resp : HealingResponse) :
  snd (generate_healing_response o failure_event s) = Ok resp ->
  let c := counters_of s
             (strategy_key (failure_type failure_event) (action resp)) in
  let base := snd (priority_and_base (config s) (severity failure_event)) in
  ((5 < attempts c)%nat ->
     success_probability resp = ((base + rate c) / 2)%Q)
  /\ ((attempts c <= 5)%nat -> success_probability resp = base)
  /\ rate c = (inject_Z (Z.of_nat (successes c))
               / inject_Z (Z.of_nat (attempts c)))%Q
  /\ (critical_severity (config s) = 8 # 10 ->
      high_severity (config s) = 6 # 10 ->
      medium_severity (config s) = 4 # 10 ->
      base = base_probability (severity failure_event)).
Proof.
  intros H c base.
  destruct (generate_healing_response o failure_event s) as [s' r] eqn:E.
  simpl in H. subst r.
  apply generate_healing_response_inv in E as (sug & _ & _ & _ & Hp & _).
  fold c base in Hp. simpl in Hp.
  repeat split.
  - intros Hc. rewrite Hp.
    destruct (Nat.ltb_spec 5 (attempts c)); [reflexivity | lia].
  - intros Hc. rewrite Hp.
    destruct (Nat.ltb_spec 5 (attempts c)); [lia | reflexivity].
  - apply base_probability_default.
Qed.

Lemma C3_success_probability_blend_witness :
  success_probability blended_response
  = (((9 # 10) + rate {| successes := 0; attempts := 6 |}) / 2)%Q.
Proof.
  destruct (C3_success_probability_blend (explore 1)
              (mk_event CPU_OVERLOAD (9 # 10)) (with_attempts 6)
              blended_response) as [H _].
  - vm_compute. reflexivity.
  - apply H. vm_compute. lia.
Defined.

(** ** C2: cold start *)

Lemma suggested_action_agent s s1 o ev :
  rl_agent s1 = rl_agent s ->
  suggested_action s1 o ev = suggested_action s o ev.
Proof. intros H. unfold suggested_action. now rewrite H. Qed.

Lemma after_calls_run cfg ex o events : forall k s,
  after_calls cfg k s ->
  after_calls cfg (length events + k) (run_events ex o events s).
Proof.
  induction events as [|ev events IH]; intros k s H; simpl.
  - exact H.
  - replace (S (length events + k)) with (length events + S k)%nat by lia.
    apply IH. now constructor.
Qed.

(** C2 (as stated) fails on the tenth call: the event being handled is
    appended to the history before the response is generated, so the
    history already holds ten events and the catalog overrides the agent's
    suggestion SCALE_DOWN, which is not shortlisted for CPU_OVERLOAD. *)
Lemma C2_tenth_call_overrides_suggestion :
  exists sm,
    after_calls _default_config 9 nine_calls_state
    /\ suggested_action nine_calls_state (explore 2)
         (mk_event CPU_OVERLOAD (9 # 10)) = Ok SCALE_DOWN
    /\ snd (handle_failure (execute_healing_action sure_draws) (explore 2)
              (mk_event CPU_OVERLOAD (9 # 10)) nine_calls_state) = Ok sm
    /\ healing_action sm = RESTART_SERVICE
    /\ healing_action sm <> SCALE_DOWN.
Proof.
  eexists. split.
  { apply (after_calls_run _default_config (execute_healing_action sure_draws)
             greedy warmup_events 0 fresh_orchestrator).
    constructor. }
  split; [vm_compute; reflexivity|].
  split; [vm_compute; reflexivity|].
  split; [reflexivity | discriminate].
Qed.

(** C2 (amended): for each of the first 9 calls to [handle_failure] on a
    fresh orchestrator, the action reported for the generated response is
    the agent's raw suggestion for the encoded state, whether or not the
    catalog shortlists it. *)
Theorem C2_cold_start_first_nine_calls (cfg : Config) (k : nat)
    (s : Orchestrator) (executor : Executor) (o : Oracle)
    (failure_event : FailureEvent) (sm : HandlingSummary) :
  after_calls cfg k s ->
  (k < 9)%nat ->
  snd (handle_failure executor o failure_event s) = Ok sm ->
  suggested_action s o failure_event = Ok (healing_action sm).
Proof.
  intros Hcalls Hk H.
  destruct (handle_failure executor o failure_event s) as [s' r] eqn:E.
  simpl in H. subst r.
  apply handle_failure_inv in E
    as (s1 & s2 & patterns & resp & res & _ & Hh & Hag & _ & Hgen & _ & -> & _).
  apply generate_healing_response_inv in Hgen
    as (sug & Hsug & _ & Hcold & _).
  rewrite (suggested_action_agent s s1 o failure_event Hag) in Hsug.
  simpl. rewrite Hsug. f_equal. symmetry. apply Hcold.
  apply orb_true_iff. right. apply Nat.ltb_lt.
  rewrite Hh, length_deque_append, (after_calls_history _ _ _ Hcalls). lia.
Qed.

Lemma C2_cold_start_first_nine_calls_witness :
  suggested_action fresh_orchestrator (explore 2)
    (mk_event CPU_OVERLOAD (9 # 10)) = Ok SCALE_DOWN.
Proof.
  apply (C2_cold_start_first_nine_calls _default_config 0 fresh_orchestrator
           (execute_healing_action sure_draws) (explore 2)
           (mk_event CPU_OVERLOAD (9 # 10)) first_summary).
  - constructor.
  - lia.
  - vm_compute. reflexivity.
Defined.

(** ** C10: one strategy key per call *)

(** C10: a call to [handle_failure] that returns changes the counters of
    exactly one (failure_type, action) pair, the event's failure type with
    the chosen action: its attempts grow by one and its successes by one
    exactly when the result succeeded; every other pair reads as before. *)
Theorem C10_counters_frame (executor : Executor) (o : Oracle)
    (failure_event : FailureEvent) (s : Orchestrator) (sm : HandlingSummary) :
  snd (handle_failure executor o failure_event s) = Ok sm ->
  forall t a,
    counters_of (fst (handle_failure executor o failure_event s))
      (strategy_key t a)
    = if decide (t = failure_type failure_event /\ a = healing_action sm)
      then {| successes :=
                if summary_success sm
                then S (successes (counters_of s (strategy_key t a)))
                else successes (counters_of s (strategy_key t a));
              attempts := S (attempts (counters_of s (strategy_key t a))) |}
      else counters_of s (strategy_key t a).
Proof.
  intros H t a.
  destruct (handle_failure executor o failure_event s) as [s' r] eqn:E.
  simpl in H. subst r. simpl.
  apply handle_failure_inv in E
    as (s1 & s2 & patterns & resp & res & _ & _ & _ & Hc1 & Hgen & _ & -> & Hc).
  apply generate_healing_response_inv in Hgen as (_ & _ & Hs2 & _).
  destruct Hs2 as (_ & _ & _ & _ & _ & _ & _ & _ & Hc2).
  rewrite Hc. simpl.
  destruct (decide (strategy_key t a
                    = strategy_key (failure_type failure_event) (action resp)))
    as [Heq|Hne].
  - apply strategy_key_inj in Heq as [-> ->].
    destruct (decide _) as [_|Hn]; [|exfalso; apply Hn; auto].
    unfold bumped. now rewrite Hc2, Hc1.
  - destruct (decide _) as [[-> ->]|_]; [congruence|].
    now rewrite Hc2, Hc1.
Qed.

Lemma C10_counters_frame_witness :
  counters_of
    (fst (handle_failure (execute_healing_action sure_draws) (explore 2)
            (mk_event CPU_OVERLOAD (9 # 10)) fresh_orchestrator))
    (strategy_key CPU_OVERLOAD SCALE_DOWN)
  = {| successes := 1; attempts := 1 |}
  /\ counters_of
       (fst (handle_failure (execute_healing_action sure_draws) (explore 2)
               (mk_event CPU_OVERLOAD (9 # 10)) fresh_orchestrator))
       (strategy_key CPU_OVERLOAD SCALE_UP)
     = zero_counters.
Proof.
  split;
    rewrite (C10_counters_frame (execute_healing_action sure_draws) (explore 2)
               (mk_event CPU_OVERLOAD (9 # 10)) fresh_orchestrator first_summary);
    first [reflexivity | vm_compute; reflexivity].
Defined.

(** ** C4: executor failures *)

Lemma decode_action_total (i : nat) :
  (i < length HealingAction_list)%nat ->
  exists a, decode_action (Z.of_nat i) = Ok a.
Proof.
  intros Hi. destruct (lookup_lt_is_Some_2 HealingAction_list i Hi) as [a Ha].
  exists a. apply index_lookup; [lia|]. now rewrite Nat2Z.id.
Qed.

Lemma list_index_HealingAction_bound a :
  (list_index a HealingAction_list < length HealingAction_list)%nat.
Proof. destruct a; vm_compute; lia. Qed.

Lemma encode_state_valid ev :
  (- (1 # 5) < severity ev)%Q ->
  0 <= encode_state ev < Z.of_nat (length FailureType_list * 5).
Proof.
  intros H. unfold encode_state.
  pose proof (severity_level_range _ H).
  pose proof (list_index_FailureType_bound (failure_type ev)).
  lia.
Qed.

Lemma suggested_action_total s o ev :
  wf_orchestrator s ->
  (rand_action o < length HealingAction_list)%nat ->
  (- (1 # 5) < severity ev)%Q ->
  exists sug, suggested_action s o ev = Ok sug.
Proof.
  intros (Hwf & Hns & Hna & _) Hr Hsev.
  unfold suggested_action, choose_action.
  destruct (Qltb (eps_draw o) (epsilon (rl_agent s))).
  - simpl. now apply decode_action_total.
  - pose proof (encode_state_valid ev Hsev) as Hst. rewrite <- Hns in Hst.
    destruct (agent_cell (rl_agent s) (encode_state ev) 0 Hwf Hst)
      as (row & q & i & m & Hrow & _ & Hi & Hm & _).
    { rewrite Hna. simpl. lia. }
    rewrite (index_lookup _ _ _ (proj1 Hst) Hrow). simpl. rewrite Hi. simpl.
    apply decode_action_total.
    pose proof (lookup_lt_Some _ _ _ Hm) as Hlt.
    destruct Hwf as (_ & Hrows & _).
    pose proof (Forall_lookup_1 _ _ _ _ Hrows Hrow) as Hrl. simpl in Hrl.
    rewrite <- Hna. lia.
Qed.

Lemma generate_healing_response_total o ev s :
  wf_orchestrator s ->
  (rand_action o < length HealingAction_list)%nat ->
  (- (1 # 5) < severity ev)%Q ->
  exists s2 resp, generate_healing_response o ev s = (s2, Ok resp).
Proof.
  intros Hwf Hr Hsev.
  destruct (suggested_action_total s o ev Hwf Hr Hsev) as [sug Hsug].
  destruct Hwf as (_ & _ & _ & Hne & Hadj).
  unfold generate_healing_response.
  erewrite mbind_ok by reflexivity. cbv beta.
  erewrite mbind_ok by (unfold mlift; rewrite Hsug; reflexivity). cbv beta.
  assert (Hch : exists s1 chosen,
    (if bool_decide (sug ∈ default [NO_ACTION]
                       (healing_strategies (config s) (failure_type ev)))
        || (length (failure_history s) <? 10)%nat
     then mret sug
     else mbind (mlift (Py.index (default [NO_ACTION]
                          (healing_strategies (config s) (failure_type ev))) 0))
            (fun best_action =>
               fallback_loop (failure_type ev)
                 (default [NO_ACTION]
                    (healing_strategies (config s) (failure_type ev)))
                 best_action 0%Q)) s = (s1, Ok chosen)).
  { destruct (bool_decide _ || _).
    - exists s, sug. reflexivity.
    - destruct (default [NO_ACTION]
                  (healing_strategies (config s) (failure_type ev)))
        as [|b l] eqn:El.
      + exfalso. destruct (healing_strategies (config s) (failure_type ev))
          as [l'|] eqn:E'; simpl in El; [|discriminate].
        subst l'. now apply (Hne _ _ E').
      + erewrite mbind_ok by reflexivity. cbv beta.
        destruct (fallback_loop_spec (failure_type ev) (b :: l) b 0%Q s)
          as (s1 & a & Hf & _).
        exists s1, a. exact Hf. }
  destruct Hch as (s1 & chosen & Hch).
  rewrite (mbind_ok _ _ _ _ _ Hch).
  destruct (Hadj chosen (severity ev)) as [ps Hps].
  erewrite mbind_ok by (unfold mlift; rewrite Hps; reflexivity). cbv beta.
  destruct (priority_and_base (config s) (severity ev)) as [prio base].
  destruct (rates_lookup_spec (strategy_key (failure_type ev) chosen) s1)
    as (s2 & Hl & _).
  rewrite (mbind_ok _ _ _ _ _ Hl).
  eexists _, _. reflexivity.
Qed.

Lemma wf_pre_dispatch ev s :
  wf_orchestrator s -> wf_orchestrator (pre_dispatch ev s).
Proof. intros H. exact H. Qed.

Lemma detect_failure_patterns_total ev s :
  exists ps,
    detect_failure_patterns ev s = (fst (detect_failure_patterns ev s), Ok ps).
Proof. unfold detect_failure_patterns. simpl. eexists. reflexivity. Qed.

Lemma update_q_value_total ag s a r :
  wf_agent ag ->
  0 <= s < Z.of_nat (n_states ag) -> 0 <= a < Z.of_nat (n_actions ag) ->
  exists ag', update_q_value ag s a r s = Ok ag'.
Proof.
  intros Hwf Hs Ha.
  destruct (agent_cell ag s a Hwf Hs Ha) as (row & q & i & m & Hrow & Hq & Hi & Hm & _).
  destruct (update_q_value_step ag s a r row q i m Hwf Hs Ha Hrow Hq Hi Hm)
    as (ag' & H & _).
  eauto.
Qed.

Lemma wf_agent_init n m lr df eps :
  (0 < m)%nat -> wf_agent (QLearningAgent_init n m lr df eps).
Proof.
  intros Hm. unfold wf_agent, QLearningAgent_init, zeros. simpl.
  rewrite !length_replicate.
  repeat split; try assumption;
    apply Forall_replicate; now rewrite length_replicate.
Qed.

Lemma wf_fresh_orchestrator : wf_orchestrator fresh_orchestrator.
Proof.
  unfold wf_orchestrator, fresh_orchestrator. simpl.
  split; [apply wf_agent_init; lia|].
  split; [reflexivity|]. split; [reflexivity|]. split.
  - intros t l H. destruct t; simpl in H; inversion H; discriminate.
  - intros a sev. destruct a; simpl; eexists; reflexivity.
Qed.

(** C4 (as stated) fails: nothing in [handle_failure] or around the
    executor call catches an exception.  When the executor raises, the
    exception reaches the caller and no summary is returned. *)
Lemma C4_executor_exception_reaches_caller :
  snd (handle_failure failing_executor (explore 1)
         (mk_event CPU_OVERLOAD (9 # 10)) fresh_orchestrator)
  = Raise (ExecutorError "infrastructure unavailable")
  /\ ~ exists sm,
        snd (handle_failure failing_executor (explore 1)
               (mk_event CPU_OVERLOAD (9 # 10)) fresh_orchestrator) = Ok sm.
Proof.
  split; [vm_compute; reflexivity|].
  intros [sm H]. vm_compute in H. discriminate.
Qed.

(** C4 (amended): on a well-formed orchestrator, for an event whose
    severity is above -0.2 and an in-range exploration draw, the pipeline
    always reaches the executor with a generated response; [handle_failure]
    then returns a HandlingSummary exactly when the executor returns a
    result, carrying that result's success flag, duration, improvement
    metrics and side effects, and when the executor raises the same
    exception propagates to the caller. *)
Theorem C4_executor_errors_propagate (executor : Executor) (o : Oracle)
    (failure_event : FailureEvent) (s : Orchestrator) :
  wf_orchestrator s ->
  (rand_action o < length HealingAction_list)%nat ->
  (- (1 # 5) < severity failure_event)%Q ->
  exists resp,
    snd (generate_healing_response o failure_event
           (pre_dispatch failure_event s)) = Ok resp
    /\ (forall res,
          executor resp failure_event = Ok res ->
          exists sm,
            snd (handle_failure executor o failure_event s) = Ok sm
            /\ healing_action sm = action resp
            /\ summary_success sm = success res
            /\ duration sm = actual_duration res
            /\ summary_improvement_metrics sm = improvement_metrics res
            /\ summary_side_effects sm = side_effects res)
    /\ (forall e,
          executor resp failure_event = Raise e ->
          snd (handle_failure executor o failure_event s) = Raise e).
Proof.
  intros Hwf Hr Hsev.
  destruct (generate_healing_response_total o failure_event
              (pre_dispatch failure_event s) (wf_pre_dispatch _ _ Hwf) Hr Hsev)
    as (s2 & resp & Hgen).
  exists resp. split; [now rewrite Hgen|].
  destruct (detect_failure_patterns_total failure_event
              (set_failure_history
                 (Py.deque_append 1000 (failure_history s) failure_event) s))
    as [ps Hdet].
  fold (pre_dispatch failure_event s) in Hdet.
  pose proof (generate_healing_response_inv _ _ _ _ _ Hgen)
    as (_ & _ & Hsame & _).
  destruct Hsame as (_ & _ & _ & Hag & _).
  change (rl_agent (pre_dispatch failure_event s)) with (rl_agent s) in Hag.
  split.
  - intros res Hex. unfold handle_failure.
    erewrite mbind_ok by reflexivity. cbv beta.
    rewrite (mbind_ok _ _ _ _ _ Hdet).
    rewrite (mbind_ok _ _ _ _ _ Hgen).
    erewrite mbind_ok by (unfold mlift; rewrite Hex; reflexivity). cbv beta.
    erewrite mbind_ok by reflexivity. cbv beta.
    erewrite mbind_ok by reflexivity. cbv beta.
    destruct (update_q_value_total (rl_agent s) (encode_state failure_event)
                (Z.of_nat (list_index (action resp) HealingAction_list))
                (calculate_reward res (severity failure_event)))
      as [ag' Hupd].
    { apply Hwf. }
    { destruct Hwf as (_ & -> & _). now apply encode_state_valid. }
    { destruct Hwf as (_ & _ & -> & _).
      pose proof (list_index_HealingAction_bound (action resp)). lia. }
    erewrite mbind_ok
      by (unfold mlift; cbn [rl_agent set_healing_history];
          rewrite Hag, Hupd; reflexivity).
    cbv beta.
    erewrite mbind_ok by reflexivity. cbv beta.
    match goal with
    | |- context [mbind (incr_attempts ?key) _ ?st] =>
        destruct (incr_attempts_spec key st) as (s5 & E5 & _);
        rewrite (mbind_ok _ _ _ _ _ E5)
    end.
    assert (E6 : exists s6,
      (if success res
       then incr_successes
              (strategy_key (failure_type failure_event) (action resp))
       else mret tt) s5 = (s6, Ok tt)).
    { destruct (success res).
      - destruct (incr_successes_spec
                    (strategy_key (failure_type failure_event) (action resp)) s5)
          as (s6 & E & _). eauto.
      - exists s5. reflexivity. }
    destruct E6 as [s6 E6]. rewrite (mbind_ok _ _ _ _ _ E6).
    erewrite mbind_ok by reflexivity. cbv beta.
    eexists. split; [reflexivity|]. simpl. auto 10.
  - intros e Hex. unfold handle_failure.
    erewrite mbind_ok by reflexivity. cbv beta.
    rewrite (mbind_ok _ _ _ _ _ Hdet).
    rewrite (mbind_ok _ _ _ _ _ Hgen).
    erewrite mbind_raise by (unfold mlift; rewrite Hex; reflexivity).
    reflexivity.
Qed.

Lemma C4_executor_errors_propagate_witness :
  exists resp,
    snd (generate_healing_response (explore 1) (mk_event CPU_OVERLOAD (9 # 10))
           (pre_dispatch (mk_event CPU_OVERLOAD (9 # 10)) fresh_orchestrator))
    = Ok resp
    /\ (forall res,
          failing_executor resp (mk_event CPU_OVERLOAD (9 # 10)) = Ok res ->
          exists sm,
            snd (handle_failure failing_executor (explore 1)
                   (mk_event CPU_OVERLOAD (9 # 10)) fresh_orchestrator) = Ok sm
            /\ healing_action sm = action resp
            /\ summary_success sm = success res
            /\ duration sm = actual_duration res
            /\ summary_improvement_metrics sm = improvement_metrics res
            /\ summary_side_effects sm = side_effects res)
    /\ (forall e,
          failing_executor resp (mk_event CPU_OVERLOAD (9 # 10)) = Raise e ->
          snd (handle_failure failing_executor (explore 1)
                 (mk_event CPU_OVERLOAD (9 # 10)) fresh_orchestrator) = Raise e).
Proof.
  apply (C4_executor_errors_propagate failing_executor (explore 1)
           (mk_event CPU_OVERLOAD (9 # 10)) fresh_orchestrator).
  - apply wf_fresh_orchestrator.
  - vm_compute. lia.
  - reflexivity.
Defined.

(** ** C8: decay of pattern confidences *)

Lemma dict_get_ordered_append {V} (d : list (string * list V)) k x :
  exists vs, dict_get (ordered_append d k x) k = Some (vs ++ [x]).
Proof.
  induction d as [|[k' vs] d IH]; simpl.
  - exists []. destruct (decide (k = k)); [reflexivity|congruence].
  - destruct (decide (k' = k)) as [->|Hne]; simpl.
    + exists vs. destruct (decide (k = k)); [reflexivity|congruence].
    + destruct (decide (k' = k)); [congruence|]. exact IH.
Qed.

Lemma keys_ordered_append {V} (d : list (string * list V)) k x k' :
  k' ∈ map fst (ordered_append d k x) -> k' = k \/ k' ∈ map fst d.
Proof.
  induction d as [|[k0 vs] d IH]; simpl.
  - intros H. apply list_elem_of_singleton in H. auto.
  - destruct (decide (k0 = k)) as [->|Hne]; simpl; intros H.
    + auto.
    + apply elem_of_cons in H as [->|H].
      * right. apply elem_of_cons. auto.
      * destruct (IH H) as [->|H']; auto. right. apply elem_of_cons. auto.
Qed.


Lemma learn_invariant e s :
  pattern_invariant s -> pattern_invariant (fst (PBL.learn_from_experience e s)).
Proof.
  intros [Hpos Hkeys]. unfold PBL.learn_from_experience. simpl.
  set (key := PBL._extract_pattern_key e).
  split; simpl.
  - intros k c Hk. destruct (decide (key = k)) as [<-|Hne].
    + rewrite lookup_insert_eq in Hk. inversion Hk; subst c; clear Hk.
      destruct (dict_get_ordered_append (PBL.patterns s) key e) as [vs ->].
      simpl. rewrite length_app. simpl.
      apply Q.min_glb_lt; [reflexivity|].
      assert (1 <= inject_Z (Z.of_nat (length vs + 1)))%Q.
      { unfold Qle. cbn [Qnum Qden inject_Z]. lia. }
      lra.
    + rewrite lookup_insert_ne in Hk by assumption. eauto.
  - intros k Hk. destruct (decide (key = k)) as [<-|Hne].
    + rewrite lookup_insert_eq. eauto.
    + rewrite lookup_insert_ne by assumption.
      apply keys_ordered_append in Hk as [->|Hk]; [congruence|auto].
Qed.

Lemma decay_invariant d s :
  (0 < d)%Q -> (d < 1)%Q ->
  pattern_invariant s -> pattern_invariant (PBL.decay d s).
Proof.
  intros Hd0 Hd1 [Hpos Hkeys]. unfold PBL.decay. split; simpl.
  - intros k c Hk. rewrite lookup_fmap in Hk.
    destruct (PBL.pattern_confidence s !! k) as [c0|] eqn:E; [|discriminate].
    simpl in Hk. inversion Hk; subst c.
    apply Qmult_lt_0_compat; [eauto | lra].
  - intros k Hk. rewrite lookup_fmap.
    destruct (Hkeys k Hk) as [c ->]. simpl. eauto.
Qed.

Lemma recommend_step_frame ctx s recs k exps :
  is_Some (PBL.pattern_confidence s !! k) ->
  PBL.patterns (fst (PBL.recommend_step ctx (s, recs) (k, exps))) = PBL.patterns s
  /\ PBL.pattern_confidence (fst (PBL.recommend_step ctx (s, recs) (k, exps)))
     = PBL.pattern_confidence s.
Proof.
  intros [c Hc]. unfold PBL.recommend_step.
  destruct (PBL._is_relevant_pattern k ctx); [|auto].
  destruct (0 <? _)%nat; [|auto]. simpl.
  rewrite Hc. simpl.
  destruct (remove_dups _); simpl; split; try reflexivity;
    now apply insert_id.
Qed.

Lemma recommend_fold_frame ctx entries : forall s recs,
  (forall k, k ∈ map fst entries -> is_Some (PBL.pattern_confidence s !! k)) ->
  PBL.patterns (fst (fold_left (PBL.recommend_step ctx) entries (s, recs)))
  = PBL.patterns s
  /\ PBL.pattern_confidence
       (fst (fold_left (PBL.recommend_step ctx) entries (s, recs)))
     = PBL.pattern_confidence s.
Proof.
  induction entries as [|[k exps] entries IH]; intros s recs Hkeys.
  - simpl. auto.
  - cbn [fold_left].
    destruct (recommend_step_frame ctx s recs k exps) as [Hp Hc].
    { apply Hkeys. simpl. apply elem_of_cons. auto. }
    destruct (PBL.recommend_step ctx (s, recs) (k, exps)) as [s1 recs1] eqn:E.
    cbn [fst] in Hp, Hc.
    destruct (IH s1 recs1) as [Hp' Hc'].
    { intros k' Hk'. rewrite Hc. apply Hkeys. simpl. apply elem_of_cons. auto. }
    rewrite Hp', Hc'. auto.
Qed.

Lemma recommend_invariant ctx s :
  pattern_invariant s -> pattern_invariant (fst (PBL.get_recommendations ctx s)).
Proof.
  intros [Hpos Hkeys]. unfold PBL.get_recommendations.
  destruct (recommend_fold_frame ctx (PBL.patterns s) s [] Hkeys) as [Hp Hc].
  destruct (fold_left _ _ _) as [s' recs]. simpl in *.
  split.
  - intros k c. rewrite Hc. apply Hpos.
  - intros k. rewrite Hp, Hc. apply Hkeys.
Qed.

Lemma reachable_invariant d s :
  (0 < d)%Q -> (d < 1)%Q -> PBL.reachable d s -> pattern_invariant s.
Proof.
  intros Hd0 Hd1. induction 1.
  - split; simpl.
    + intros k c H. rewrite lookup_empty in H. discriminate.
    + intros k H. inversion H.
  - now apply learn_invariant.
  - now apply recommend_invariant.
  - now apply decay_invariant.
Qed.

Lemma Qpower_succ (a : Q) (n : nat) :
  ~ (a == 0)%Q -> (a ^ Z.of_nat (S n) == a ^ Z.of_nat n * a)%Q.
Proof.
  intros Ha. rewrite Nat2Z.inj_succ. unfold Z.succ.
  rewrite Qpower_plus by assumption. reflexivity.
Qed.

Lemma query_keeps_confidences ctx s :
  pattern_invariant s ->
  PBL.pattern_confidence (fst (PBL.get_recommendations ctx s))
  = PBL.pattern_confidence s.
Proof.
  intros [Hpos Hkeys]. unfold PBL.get_recommendations.
  destruct (recommend_fold_frame ctx (PBL.patterns s) s [] Hkeys) as [_ Hc].
  destruct (fold_left _ _ _) as [s' recs]. exact Hc.
Qed.

(** One activity: a tick scales the confidence by (1 - decay_rate), a
    query or an experience of another pattern leaves it alone. *)
Lemma perform_confidence key a cls c :
  (0 < CLS.pattern_decay_rate cls)%Q -> (CLS.pattern_decay_rate cls < 1)%Q ->
  PBL.reachable (CLS.pattern_decay_rate cls) (CLS.pattern_based cls) ->
  confidence_of cls key = Some c ->
  match a with
  | act_learn e => PBL._extract_pattern_key e <> key
  | _ => True
  end ->
  CLS.pattern_decay_rate (perform cls a) = CLS.pattern_decay_rate cls
  /\ PBL.reachable (CLS.pattern_decay_rate cls)
       (CLS.pattern_based (perform cls a))
  /\ confidence_of (perform cls a) key
     = Some (match a with
             | act_tick => c * (1 - CLS.pattern_decay_rate cls)
             | _ => c
             end)%Q.
Proof.
  intros Hd0 Hd1 Hreach Hk Ha. unfold confidence_of in *.
  destruct a as [|ctx|e]; cbn [perform].
  - unfold CLS._decay_pattern_confidences.
    cbn [CLS.set_pattern_based CLS.pattern_decay_rate CLS.pattern_based].
    split; [reflexivity|]. split; [now apply PBL.reach_decay|].
    unfold PBL.decay. cbn [PBL.pattern_confidence].
    rewrite lookup_fmap, Hk. reflexivity.
  - pose proof (reachable_invariant _ _ Hd0 Hd1 Hreach) as Hinv.
    pose proof (query_keeps_confidences ctx _ Hinv) as Hsame.
    pose proof (PBL.reach_recommend _ ctx _ Hreach) as Hreach'.
    unfold CLS.get_recommendations.
    destruct (bool_decide ("pattern_based" ∈ CLS.cfg_learning_strategies cls)).
    + destruct (PBL.get_recommendations ctx (CLS.pattern_based cls))
        as [p' recs]. cbn [fst] in *.
      cbn [CLS.set_pattern_based CLS.pattern_decay_rate CLS.pattern_based fst].
      split; [reflexivity|]. split; [exact Hreach'|].
      now rewrite Hsame.
    + cbn [fst]. auto.
  - cbn [CLS.set_pattern_based CLS.pattern_decay_rate CLS.pattern_based].
    split; [reflexivity|]. split; [now apply PBL.reach_learn|].
    unfold PBL.learn_from_experience. cbn [fst PBL.pattern_confidence].
    now rewrite lookup_insert_ne.
Qed.

Lemma run_confidence key activities : forall cls c,
  (0 < CLS.pattern_decay_rate cls)%Q -> (CLS.pattern_decay_rate cls < 1)%Q ->
  PBL.reachable (CLS.pattern_decay_rate cls) (CLS.pattern_based cls) ->
  confidence_of cls key = Some c ->
  no_evidence_for key activities ->
  exists cn,
    confidence_of (run activities cls) key = Some cn
    /\ (0 < cn)%Q
    /\ (cn == c * (1 - CLS.pattern_decay_rate cls)
                 ^ Z.of_nat (ticks activities))%Q
    /\ CLS.pattern_decay_rate (run activities cls) = CLS.pattern_decay_rate cls.
Proof.
  induction activities as [|a rest IH]; intros cls c Hd0 Hd1 Hreach Hk Hno.
  - exists c. split; [exact Hk|].
    destruct (reachable_invariant _ _ Hd0 Hd1 Hreach) as [Hpos _].
    split; [exact (Hpos _ _ Hk)|]. split; [simpl; lra | reflexivity].
  - apply Forall_cons in Hno as [Ha Hrest].
    destruct (perform_confidence key a cls c Hd0 Hd1 Hreach Hk Ha)
      as (Hrate & Hreach1 & Hk1).
    unfold run. cbn [fold_left]. fold (run rest (perform cls a)).
    assert (Hd0' : (0 < CLS.pattern_decay_rate (perform cls a))%Q)
      by (rewrite Hrate; exact Hd0).
    assert (Hd1' : (CLS.pattern_decay_rate (perform cls a) < 1)%Q)
      by (rewrite Hrate; exact Hd1).
    assert (Hreach1' : PBL.reachable (CLS.pattern_decay_rate (perform cls a))
                         (CLS.pattern_based (perform cls a)))
      by (rewrite Hrate; exact Hreach1).
    destruct (IH (perform cls a) _ Hd0' Hd1' Hreach1' Hk1 Hrest)
      as (cn & Hcn & Hpos & Heq & Hrate').
    exists cn. split; [exact Hcn|]. split; [exact Hpos|].
    rewrite Hrate in Heq, Hrate'.
    split; [|exact Hrate'].
    destruct a as [|ctx|e]; cbn [ticks]; [|exact Heq|exact Heq].
    rewrite Qpower_succ by lra. rewrite Heq. ring.
Qed.

(** C8 (as stated) fails for decay rates outside (0,1), which the
    configuration accepts as it does any number: with a rate of 0 a tick
    leaves the confidence where it was, and with a rate of 2 a single
    tick makes it negative. *)
Lemma C8_decay_rate_outside_unit_interval :
  exists c0 c1 c2,
    confidence_of (with_decay_rate 0 learned_system)
      "failure_scale_up_cpu_overload_medium" = Some c0
    /\ confidence_of
         (CLS._decay_pattern_confidences (with_decay_rate 0 learned_system))
         "failure_scale_up_cpu_overload_medium" = Some c1
    /\ ~ (c1 < c0)%Q
    /\ confidence_of
         (CLS._decay_pattern_confidences (with_decay_rate 2 learned_system))
         "failure_scale_up_cpu_overload_medium" = Some c2
    /\ (c2 < 0)%Q.
Proof.
  eexists _, _, _.
  split; [vm_compute; reflexivity|].
  split; [vm_compute; reflexivity|].
  split; [intros H; vm_compute in H; discriminate H|].
  split; [vm_compute; reflexivity|].
  reflexivity.
Qed.

(** C8: for a decay rate in (0,1) (0.1 by default) and every pattern key
    held by a reachable pattern strategy, any sequence of decay ticks,
    queries and experiences of other patterns leaves the confidence at
    the pre-decay value times (1 - decay_rate)^n, [n] being the number of
    ticks in the sequence; a further tick strictly lowers it and it never
    becomes negative. *)
Theorem C8_pattern_decay_monotone (cls : CLS.t) (key : string) (c : Q)
    (activities : list Activity) :
  (0 < CLS.pattern_decay_rate cls)%Q ->
  (CLS.pattern_decay_rate cls < 1)%Q ->
  PBL.reachable (CLS.pattern_decay_rate cls) (CLS.pattern_based cls) ->
  confidence_of cls key = Some c ->
  no_evidence_for key activities ->
  exists cn cn',
    confidence_of (run activities cls) key = Some cn
    /\ confidence_of (CLS._decay_pattern_confidences (run activities cls)) key
       = Some cn'
    /\ (cn' < cn)%Q
    /\ (0 <= cn')%Q
    /\ (0 < cn)%Q
    /\ (cn == c * (1 - CLS.pattern_decay_rate cls)
                 ^ Z.of_nat (ticks activities))%Q.
Proof.
  intros Hd0 Hd1 Hreach Hk Hno.
  destruct (run_confidence key activities cls c Hd0 Hd1 Hreach Hk Hno)
    as (cn & Hcn & Hpos & Heq & Hrate).
  exists cn, (cn * (1 - CLS.pattern_decay_rate cls))%Q.
  split; [exact Hcn|].
  split.
  { unfold confidence_of in *. unfold CLS._decay_pattern_confidences.
    cbn [CLS.set_pattern_based CLS.pattern_based]. unfold PBL.decay.
    cbn [PBL.pattern_confidence]. rewrite lookup_fmap, Hcn, Hrate.
    reflexivity. }
  assert (0 < cn * CLS.pattern_decay_rate cls)%Q
    by (apply Qmult_lt_0_compat; assumption).
  assert (0 < cn * (1 - CLS.pattern_decay_rate cls))%Q
    by (apply Qmult_lt_0_compat; lra).
  repeat split; try assumption; lra.
Qed.

Lemma C8_pattern_decay_monotone_witness :
  exists cn cn',
    confidence_of
      (run [act_tick; act_query cpu_query; act_learn other_experience;
            act_tick; act_tick] learned_system)
      "failure_scale_up_cpu_overload_medium" = Some cn
    /\ confidence_of
         (CLS._decay_pattern_confidences
            (run [act_tick; act_query cpu_query; act_learn other_experience;
                  act_tick; act_tick] learned_system))
         "failure_scale_up_cpu_overload_medium" = Some cn'
    /\ (cn' < cn)%Q
    /\ (0 <= cn')%Q
    /\ (0 < cn)%Q
    /\ (cn == Qmin 1 (inject_Z 1 * (1 # 10) * 1)
              * (1 - CLS.pattern_decay_rate learned_system)
                ^ Z.of_nat (ticks [act_tick; act_query cpu_query;
                                   act_learn other_experience;
                                   act_tick; act_tick]))%Q.
Proof.
  apply (C8_pattern_decay_monotone learned_system
           "failure_scale_up_cpu_overload_medium").
  - reflexivity.
  - reflexivity.
  - apply PBL.reach_learn, PBL.reach_init.
  - vm_compute. reflexivity.
  - repeat constructor. intros H. vm_compute in H. discriminate H.
Defined.

(** ** C9: ranked recommendations *)

Section SortDesc.
Context {A : Type} (key : A -> Q).

Lemma Forall_insert_desc (P : A -> Prop) x l :
  P x -> Forall P l -> Forall P (Py.insert_desc key x l).
Proof.
  intros Hx Hl. induction Hl as [|y l Hy Hl IH]; simpl.
  - repeat constructor. exact Hx.
  - destruct (Qle_bool (key y) (key x)); repeat constructor; assumption.
Qed.

Lemma insert_desc_sorted x l :
  StronglySorted (desc_by key) l -> StronglySorted (desc_by key) (Py.insert_desc key x l).
Proof.
  induction 1 as [|y l Hs IH Hy]; simpl.
  - repeat constructor.
  - destruct (Qle_bool (key y) (key x)) eqn:E.
    + apply Qle_bool_iff in E.
      constructor; [constructor; assumption|].
      constructor; [exact E|].
      eapply Forall_impl; [exact Hy|].
      intros z Hz. unfold desc_by in *. lra.
    + assert (Hlt : (key x < key y)%Q).
      { apply Qnot_le_lt. intros H. apply Qle_bool_iff in H. congruence. }
      constructor; [exact IH|].
      apply Forall_insert_desc; [unfold desc_by; lra | exact Hy].
Qed.

Lemma sort_desc_sorted l : StronglySorted (desc_by key) (Py.sort_desc key l).
Proof.
  induction l as [|x l IH]; simpl.
  - constructor.
  - now apply insert_desc_sorted.
Qed.

Lemma take_sorted n l : StronglySorted (desc_by key) l -> StronglySorted (desc_by key) (take n l).
Proof.
  intros H. revert n. induction H as [|y l Hs IH Hy]; intros [|n]; simpl;
    try constructor.
  - apply IH.
  - now apply Forall_take.
Qed.

Lemma insert_desc_perm x l : Py.insert_desc key x l ≡ₚ x :: l.
Proof.
  induction l as [|y l IH]; simpl; [reflexivity|].
  destruct (Qle_bool (key y) (key x)); [reflexivity|].
  rewrite IH. apply Permutation_swap.
Qed.

Lemma sort_desc_perm l : Py.sort_desc key l ≡ₚ l.
Proof.
  induction l as [|x l IH]; simpl; [reflexivity|].
  now rewrite insert_desc_perm, IH.
Qed.
End SortDesc.

Lemma get_recommendations_shape ctx self :
  exists candidates,
    snd (CLS.get_recommendations ctx self)
    = take 10 (Py.sort_desc CLS.key_of candidates).
Proof.
  unfold CLS.get_recommendations.
  destruct (bool_decide _).
  - destruct (PBL.get_recommendations ctx (CLS.pattern_based self)) as [p' recs].
    eexists. reflexivity.
  - eexists. reflexivity.
Qed.

(** C9: for every context, [get_recommendations] of the learning system
    returns at most 10 records, in non-increasing order of
    confidence * success_rate, a record missing either field counting 0
    for that factor. *)
Theorem C9_get_recommendations_top_ten (ctx : Context) (self : CLS.t) :
  (length (snd (CLS.get_recommendations ctx self)) <= 10)%nat
  /\ StronglySorted (desc_by CLS.key_of)
       (snd (CLS.get_recommendations ctx self))
  /\ forall x, CLS.key_of x
               = (default 0 (confidence x) * default 0 (success_rate x))%Q.
Proof.
  destruct (get_recommendations_shape ctx self) as [candidates ->].
  split; [rewrite length_take; lia|].
  split; [apply take_sorted, sort_desc_sorted | reflexivity].
Qed.

(** * Further properties of the code *)

(** ** Exploration decay *)

Lemma decay_epsilon_iter_tables n ag rate :
  q_table (Nat.iter n (fun a => decay_epsilon a rate) ag) = q_table ag
  /\ state_action_counts (Nat.iter n (fun a => decay_epsilon a rate) ag)
     = state_action_counts ag.
Proof. induction n as [|n IH]; simpl; auto. Qed.

Lemma Qpower_nonneg_le_1 (a : Q) (n : nat) :
  (0 <= a)%Q -> (a <= 1)%Q -> (0 <= a ^ Z.of_nat n /\ a ^ Z.of_nat n <= 1)%Q.
Proof.
  intros H0 H1. induction n as [|n [IH0 IH1]].
  - simpl. split; lra.
  - destruct (Qeq_dec a 0) as [E|E].
    + rewrite Nat2Z.inj_succ. unfold Z.succ.
      rewrite Qpower_plus' by lia. rewrite E.
      assert (E1 : (0 ^ 1 == 0)%Q) by reflexivity.
      rewrite E1. split; lra.
    + rewrite Qpower_succ by exact E. split; nra.
Qed.

Lemma scale_le (x r b : Q) :
  (0 <= r)%Q -> (r <= 1)%Q -> (0 <= b)%Q -> (x <= b)%Q -> (x * r <= b)%Q.
Proof.
  intros H0 H1 Hb Hx. destruct (Qlt_le_dec x 0) as [Hn|Hp].
  - pose proof (Qmult_le_compat_r x 0 r ltac:(lra) H0). lra.
  - pose proof (Qmult_le_compat_r r 1 x H1 Hp). lra.
Qed.

(** X1: for a decay rate in [0,1], [n+1] calls of [decay_epsilon] leave
    epsilon at max(0.01, epsilon * rate^(n+1)): it never drops below the
    hard-coded floor 0.01, it does not grow when it started at or above the
    floor, and the value and visit tables are untouched. *)
Theorem decay_epsilon_closed_form (ag : QLearningAgent) (rate : Q) (n : nat) :
  (0 <= rate)%Q -> (rate <= 1)%Q ->
  let ag' := Nat.iter (S n) (fun a => decay_epsilon a rate) ag in
  (1 # 100 <= epsilon ag')%Q
  /\ (epsilon ag' == Qmax (1 # 100) (epsilon ag * rate ^ Z.of_nat (S n)))%Q
  /\ ((1 # 100 <= epsilon ag)%Q -> (epsilon ag' <= epsilon ag)%Q)
  /\ q_table ag' = q_table ag
  /\ state_action_counts ag' = state_action_counts ag.
Proof.
  intros H0 H1 ag'.
  assert (Hcf : (epsilon ag' == Qmax (1 # 100) (epsilon ag * rate ^ Z.of_nat (S n)))%Q).
  { unfold ag'. clear ag'. induction n as [|n IH].
    - simpl. apply Q.max_compat; reflexivity.
    - change (Nat.iter (S (S n)) (fun a => decay_epsilon a rate) ag)
        with (decay_epsilon (Nat.iter (S n) (fun a => decay_epsilon a rate) ag) rate).
      revert IH.
      generalize (Nat.iter (S n) (fun a => decay_epsilon a rate) ag).
      intros prev IH.
      change (epsilon (decay_epsilon prev rate))
        with (Qmax (1 # 100) (epsilon prev * rate)).
      destruct (Qpower_nonneg_le_1 rate (S n) H0 H1) as [Hp0 Hp1].
      destruct (Qeq_dec rate 0) as [E|E].
      + assert (E2 : (rate ^ Z.of_nat (S (S n)) == 0)%Q).
        { rewrite (Nat2Z.inj_succ (S n)). unfold Z.succ.
          rewrite Qpower_plus' by lia. rewrite E.
          assert (E1 : (0 ^ 1 == 0)%Q) by reflexivity. rewrite E1. ring. }
        rewrite E2, E.
        rewrite Q.max_l by lra. rewrite Q.max_l by lra. reflexivity.
      + rewrite (Qpower_succ rate (S n) E).
        revert IH Hp0 Hp1.
        generalize (rate ^ Z.of_nat (S n))%Q.
        generalize (epsilon prev).
        intros e p IH Hp0 Hp1.
        destruct (Qlt_le_dec (epsilon ag * p) (1 # 100)) as [Hs|Hs].
        * rewrite Q.max_l in IH by lra.
          assert (epsilon ag * (p * rate) <= 1 # 100)%Q.
          { rewrite Qmult_assoc. apply scale_le; lra. }
          rewrite (Q.max_l (1 # 100) (epsilon ag * (p * rate))) by assumption.
          apply Q.max_l. apply scale_le; lra.
        * rewrite Q.max_r in IH by lra.
          apply Q.max_compat; [reflexivity|]. rewrite IH. ring. }
  split; [rewrite Hcf; apply Q.le_max_l|].
  split; [exact Hcf|].
  split.
  - intros He. rewrite Hcf.
    destruct (Qpower_nonneg_le_1 rate (S n) H0 H1) as [Hp0 Hp1].
    apply Q.max_lub; [exact He|].
    apply scale_le; lra.
  - apply (decay_epsilon_iter_tables (S n)).
Qed.

Lemma decay_epsilon_closed_form_witness :
  (1 # 100 <= epsilon (Nat.iter 2 (fun a => decay_epsilon a (995 # 1000))
                         fresh_agent))%Q.
Proof.
  destruct (decay_epsilon_closed_form fresh_agent (995 # 1000) 1) as [H _].
  - lra.
  - lra.
  - exact H.
Defined.

(** ** The action codec *)

Lemma index_negative_wraps {A} (xs : list A) (i : Z) :
  - Z.of_nat (length xs) <= i < 0 ->
  Py.index xs i = Py.index xs (i + Z.of_nat (length xs)).
Proof.
  intros Hi. unfold Py.index.
  replace (i + Z.of_nat (length xs)) with (Z.of_nat (length xs) + i) by lia.
  destruct (Z.ltb_spec i 0); [|lia].
  destruct (Z.ltb_spec (Z.of_nat (length xs) + i) 0); [lia|]. reflexivity.
Qed.

Lemma index_out_of_range {A} (xs : list A) (i : Z) :
  i < - Z.of_nat (length xs) \/ Z.of_nat (length xs) <= i ->
  Py.index xs i = Raise IndexError.
Proof.
  intros Hi. unfold Py.index.
  destruct (Z.ltb_spec i 0).
  - destruct (Z.leb_spec 0 (Z.of_nat (length xs) + i)); [lia|]. reflexivity.
  - destruct (Z.leb_spec 0 i); [|lia].
    destruct (Z.ltb_spec i (Z.of_nat (length xs))); [lia|]. reflexivity.
Qed.

(** X2: [decode_action] inverts [list(HealingAction).index]: decoding the
    index of an action gives the action back and a non-negative index that
    decodes is the index of its action; an index in [-9, 0) counts from
    the end, and every index outside [-9, 9) raises IndexError. *)
Theorem decode_action_round_trip :
  (forall a, decode_action (Z.of_nat (list_index a HealingAction_list)) = Ok a)
  /\ (forall i a, 0 <= i -> decode_action i = Ok a ->
                  Z.of_nat (list_index a HealingAction_list) = i)
  /\ (forall i, - Z.of_nat (length HealingAction_list) <= i < 0 ->
                decode_action i
                = decode_action (i + Z.of_nat (length HealingAction_list)))
  /\ (forall i, i < - Z.of_nat (length HealingAction_list)
                \/ Z.of_nat (length HealingAction_list) <= i ->
                decode_action i = Raise IndexError).
Proof.
  repeat split.
  - intros a. destruct a; reflexivity.
  - intros i a Hi H. unfold decode_action, Py.index in H.
    destruct (Z.ltb_spec i 0); [lia|].
    destruct (Z.leb_spec 0 i); [|lia].
    destruct (Z.ltb_spec i (Z.of_nat (length HealingAction_list))) as [Hlt|];
      [|discriminate].
    simpl in Hlt, H.
    assert (Hc : i = 0 \/ i = 1 \/ i = 2 \/ i = 3 \/ i = 4 \/ i = 5 \/ i = 6
                 \/ i = 7 \/ i = 8) by lia.
    repeat (destruct Hc as [->|Hc]; [simpl in H; inversion H; reflexivity|]).
    subst i. simpl in H. inversion H. reflexivity.
  - intros i Hi. now apply index_negative_wraps.
  - intros i Hi. now apply index_out_of_range.
Qed.

(** ** The agent stays inside its action space *)

Lemma argmax_lt_length row i : argmax row = Ok i -> (i < length row)%nat.
Proof.
  intros H. destruct row as [|x xs]; [discriminate|].
  destruct (argmax_first_max (x :: xs)) as (a & v & Ha & Hv & _); [discriminate|].
  rewrite H in Ha. inversion Ha; subst a.
  now apply lookup_lt_Some in Hv.
Qed.

(** X3: on a well-formed agent [choose_action] returns an index below
    [n_actions] for every valid state, exploring or not, provided the
    exploration draw is itself in range; when it does not explore, a
    state outside [-n_states, n_states) raises IndexError. *)
Theorem choose_action_in_range (ag : QLearningAgent) (draw : Q) (rand : nat)
    (state : Z) :
  wf_agent ag ->
  (rand < n_actions ag)%nat ->
  (0 <= state < Z.of_nat (n_states ag) ->
   exists a, choose_action ag draw rand state = Ok a /\ (a < n_actions ag)%nat)
  /\ ((Z.of_nat (n_states ag) <= state \/ state < - Z.of_nat (n_states ag)) ->
      (epsilon ag <= draw)%Q ->
      choose_action ag draw rand state = Raise IndexError).
Proof.
  intros (Hlen & Hrows & _ & _ & Hpos) Hr. split.
  - intros Hs. unfold choose_action. destruct (Qltb draw (epsilon ag)).
    + eauto.
    + destruct (lookup_lt_is_Some_2 (q_table ag) (Z.to_nat state)) as [row Hrow];
        [lia|].
      rewrite (index_lookup _ _ _ (proj1 Hs) Hrow). simpl.
      pose proof (Forall_lookup_1 _ _ _ _ Hrows Hrow) as Hrl. simpl in Hrl.
      destruct (argmax_first_max row) as (a & v & Ha & _).
      { intros ->. simpl in Hrl. lia. }
      exists a. split; [exact Ha|].
      rewrite <- Hrl. now apply argmax_lt_length.
  - intros Hs Hd. unfold choose_action.
    assert (E : Qltb draw (epsilon ag) = false) by now apply Qltb_ge.
    rewrite E. rewrite index_out_of_range by (rewrite Hlen; lia).
    reflexivity.
Qed.

Lemma choose_action_in_range_witness :
  exists a, choose_action small_agent (1 # 2) 2 1 = Ok a /\ (a < 3)%nat.
Proof.
  destruct (choose_action_in_range small_agent (1 # 2) 2 1) as [H _].
  - unfold wf_agent. simpl. repeat split; try lia; repeat constructor.
  - simpl. lia.
  - apply H. simpl. lia.
Defined.

(** ** Locality of the TD update *)

Lemma index_insert_ne {A} (xs : list A) (j : nat) (x : A) (i : Z) :
  0 <= i -> Z.to_nat i <> j ->
  Py.index (<[j := x]> xs) i = Py.index xs i.
Proof.
  intros Hi Hne. unfold Py.index. rewrite length_insert.
  destruct (Z.ltb_spec i 0); [lia|].
  now rewrite list_lookup_insert_ne by congruence.
Qed.

Lemma get_cell_insert_other (table : list (list Q)) s a row v s2 a2 :
  0 <= s -> 0 <= a -> 0 <= s2 -> 0 <= a2 ->
  table !! Z.to_nat s = Some row ->
  (s2, a2) <> (s, a) ->
  get_cell (<[Z.to_nat s := <[Z.to_nat a := v]> row]> table) s2 a2
  = get_cell table s2 a2.
Proof.
  intros Hs Ha Hs2 Ha2 Hrow Hne. unfold get_cell.
  destruct (decide (Z.to_nat s2 = Z.to_nat s)) as [E|E].
  - assert (s2 = s) by lia. subst s2.
    assert (a2 <> a) by congruence.
    rewrite (index_lookup _ s (<[Z.to_nat a := v]> row)); [|lia|].
    + rewrite (index_lookup _ _ _ Hs Hrow). simpl.
      apply index_insert_ne; lia.
    + apply list_lookup_insert_eq. now apply lookup_lt_Some in Hrow.
  - now rewrite index_insert_ne by assumption.
Qed.

(** X4: on a well-formed agent and valid indices [update_q_value] succeeds;
    it writes Q[state][action] + alpha * (reward + gamma * max Q[next_state]
    - Q[state][action]) into the cell (state, action), adds one to that
    cell's visit count, leaves every other cell of both tables as it was
    and keeps the tables' shape, the hyper-parameters and epsilon. *)
Theorem update_q_value_local (ag : QLearningAgent) (s a : Z) (r : Q)
    (next_state : Z) :
  wf_agent ag ->
  0 <= s < Z.of_nat (n_states ag) ->
  0 <= a < Z.of_nat (n_actions ag) ->
  0 <= next_state < Z.of_nat (n_states ag) ->
  exists ag' q c next_row i m,
    update_q_value ag s a r next_state = Ok ag'
    /\ get_cell (q_table ag) s a = Ok q
    /\ get_cell (state_action_counts ag) s a = Ok c
    /\ q_table ag !! Z.to_nat next_state = Some next_row
    /\ is_first_max next_row i m
    /\ get_cell (q_table ag') s a
       = Ok (q + learning_rate ag * (r + discount_factor ag * m - q))%Q
    /\ get_cell (state_action_counts ag') s a = Ok (c + 1)%Q
    /\ (forall s2 a2, 0 <= s2 -> 0 <= a2 -> (s2, a2) <> (s, a) ->
          get_cell (q_table ag') s2 a2 = get_cell (q_table ag) s2 a2
          /\ get_cell (state_action_counts ag') s2 a2
             = get_cell (state_action_counts ag) s2 a2)
    /\ wf_agent ag' /\ same_params ag ag' /\ epsilon ag' = epsilon ag.
Proof.
  intros Hwf Hs Ha Hn.
  destruct (agent_cell ag s a Hwf Hs Ha) as (row & q & _ & _ & Hrow & Hq & _).
  destruct (agent_cell ag next_state a Hwf Hn Ha)
    as (nrow & _ & i & m & Hnrow & _ & Hi & Hm).
  destruct Hwf as (Hlen & Hrows & Hclen & Hcrows & Hpos).
  pose proof (Forall_lookup_1 _ _ _ _ Hrows Hrow) as Hrl. simpl in Hrl.
  destruct (lookup_lt_is_Some_2 (state_action_counts ag) (Z.to_nat s))
    as [crow Hcrow]; [lia|].
  pose proof (Forall_lookup_1 _ _ _ _ Hcrows Hcrow) as Hcl. simpl in Hcl.
  destruct (lookup_lt_is_Some_2 crow (Z.to_nat a)) as [c Hc]; [lia|].
  pose proof (lookup_lt_Some _ _ _ Hrow) as Hslt.
  pose proof (lookup_lt_Some _ _ _ Hcrow) as Hcslt.
  eexists _, q, c, nrow, i, m.
  split.
  { unfold update_q_value.
    rewrite (index_lookup _ _ _ (proj1 Hn) Hnrow). simpl. rewrite Hi. simpl.
    rewrite (index_lookup nrow (Z.of_nat i) m)
      by (try lia; rewrite Nat2Z.id; apply Hm).
    simpl.
    rewrite (get_cell_lookup _ s a row q) by (auto; lia). simpl.
    rewrite (set_cell_lookup _ s a row) by (auto; lia). simpl.
    rewrite (get_cell_lookup _ s a crow c) by (auto; lia). simpl.
    rewrite (set_cell_lookup _ s a crow) by (auto; lia). simpl.
    reflexivity. }
  simpl.
  split; [apply (get_cell_lookup _ s a row q); auto; lia|].
  split; [apply (get_cell_lookup _ s a crow c); auto; lia|].
  split; [exact Hnrow|]. split; [exact Hm|].
  split.
  { eapply get_cell_lookup; try lia.
    - now apply list_lookup_insert_eq.
    - apply list_lookup_insert_eq. lia. }
  split.
  { eapply get_cell_lookup; try lia.
    - now apply list_lookup_insert_eq.
    - apply list_lookup_insert_eq. lia. }
  split.
  { intros s2 a2 Hs2 Ha2 Hne. split; apply get_cell_insert_other; auto; lia. }
  split.
  - unfold wf_agent. simpl. repeat split; try assumption.
    + now rewrite length_insert.
    + apply Forall_insert; [assumption|]. now rewrite length_insert.
    + now rewrite length_insert.
    + apply Forall_insert; [assumption|]. now rewrite length_insert.
  - split; [unfold same_params; simpl; auto | reflexivity].
Qed.

Lemma update_q_value_local_witness :
  exists ag' q c next_row i m,
    update_q_value small_agent 1 0 2 0 = Ok ag'
    /\ get_cell (q_table small_agent) 1 0 = Ok q
    /\ get_cell (state_action_counts small_agent) 1 0 = Ok c
    /\ q_table small_agent !! Z.to_nat 0 = Some next_row
    /\ is_first_max next_row i m
    /\ get_cell (q_table ag') 1 0
       = Ok (q + learning_rate small_agent
                 * (2 + discount_factor small_agent * m - q))%Q
    /\ get_cell (state_action_counts ag') 1 0 = Ok (c + 1)%Q
    /\ (forall s2 a2, 0 <= s2 -> 0 <= a2 -> (s2, a2) <> (1, 0) ->
          get_cell (q_table ag') s2 a2 = get_cell (q_table small_agent) s2 a2
          /\ get_cell (state_action_counts ag') s2 a2
             = get_cell (state_action_counts small_agent) s2 a2)
    /\ wf_agent ag' /\ same_params small_agent ag'
    /\ epsilon ag' = epsilon small_agent.
Proof.
  apply (update_q_value_local small_agent 1 0 2 0).
  - unfold wf_agent. simpl. repeat split; try lia; repeat constructor.
  - simpl. lia.
  - simpl. lia.
  - simpl. lia.
Defined.

(** ** Ordering of rewards *)

Lemma clip_monotone x y :
  (x <= y)%Q -> (Qmax (-2) (Qmin 2 x) <= Qmax (-2) (Qmin 2 y))%Q.
Proof.
  intros H. apply Q.max_le_compat_l. now apply Q.min_le_compat_l.
Qed.

Lemma time_penalty_monotone (d d' : Q) :
  (d <= d')%Q -> (Qmin (1 # 2) (d / 300) <= Qmin (1 # 2) (d' / 300))%Q.
Proof.
  intros H. apply Q.min_le_compat_l.
  unfold Qdiv. apply Qmult_le_compat_r; [exact H|]. discriminate.
Qed.

(** X5: the reward orders outcomes as intended: with all other inputs
    equal, a failed outcome never earns more than a successful one, a
    higher severity never earns less, and one more side effect never earns
    more. *)
Theorem calculate_reward_ordering (r : HealingResult) (sev sev' : Q) :
  (calculate_reward (with_success false r) sev
     <= calculate_reward (with_success true r) sev)%Q
  /\ ((sev <= sev')%Q ->
      (calculate_reward r sev <= calculate_reward r sev')%Q)
  /\ (forall extra,
        (calculate_reward
           {| result_response_id := result_response_id r;
              success := success r;
              actual_duration := actual_duration r;
              improvement_metrics := improvement_metrics r;
              side_effects := extra :: side_effects r;
              result_timestamp := result_timestamp r |} sev
         <= calculate_reward r sev)%Q).
Proof.
  repeat split.
  - unfold calculate_reward. simpl. apply clip_monotone. lra.
  - intros H. unfold calculate_reward. apply clip_monotone.
    destruct (success r); lra.
  - intros extra. unfold calculate_reward. cbn [side_effects success
      actual_duration improvement_metrics length].
    apply clip_monotone.
    rewrite Nat2Z.inj_succ. unfold Z.succ. rewrite inject_Z_plus.
    generalize (inject_Z (Z.of_nat (length (side_effects r)))). intros n.
    change (inject_Z 1) with 1%Q.
    destruct (success r); lra.
Qed.

(** ** Outcomes of the simulated executor *)

Lemma uniform_range lo hi u :
  (lo <= hi)%Q -> (0 <= u)%Q -> (u < 1)%Q ->
  (lo <= uniform lo hi u /\ uniform lo hi u <= hi)%Q.
Proof.
  intros Hl H0 H1. unfold uniform.
  assert (0 <= (hi - lo) * u)%Q by (apply Qmult_le_0_compat; lra).
  assert ((hi - lo) * u <= (hi - lo) * 1)%Q.
  { rewrite !(Qmult_comm (hi - lo)). apply Qmult_le_compat_r; lra. }
  split; lra.
Qed.

(** X6: with draws as numpy produces them and a severity in [0,1], the
    simulated executor always returns a result for the response it was
    given, lasting the elapsed time, with at most one side effect; it
    succeeds exactly when the success draw is below the response's success
    probability; a success is rewarded with at least 0.4, a failure
    reports no improvement and is rewarded with at most -0.5. *)
Theorem simulated_outcome_rewards (d : ExecDraws) (response : HealingResponse)
    (failure_event : FailureEvent) :
  valid_draws d ->
  (0 <= severity failure_event)%Q -> (severity failure_event <= 1)%Q ->
  exists res,
    execute_healing_action d response failure_event = Ok res
    /\ result_response_id res = response_id response
    /\ actual_duration res = elapsed d
    /\ (length (side_effects res) <= 1)%nat
    /\ (success res = true <->
        (success_draw d < success_probability response)%Q)
    /\ (success res = true ->
        (4 # 10 <= calculate_reward res (severity failure_event))%Q)
    /\ (success res = false ->
        improvement_metrics res = []
        /\ (calculate_reward res (severity failure_event) <= - (1 # 2))%Q).
Proof.
  intros (He & Hs0 & Hs1 & Hi0 & Hi1 & Hd0 & Hd1) Hv0 Hv1.
  eexists. split; [reflexivity|]. simpl.
  split; [reflexivity|]. split; [reflexivity|].
  assert (Hse : (length (match action response with
                         | RESTART_SERVICE =>
                             if Qltb (side_effect_draw d) (1 # 10)
                             then ["brief_service_interruption"] else []
                         | SCALE_UP =>
                             if Qltb (side_effect_draw d) (5 # 100)
                             then ["increased_resource_cost"] else []
                         | _ => []
                         end) <= 1)%nat).
  { destruct (action response); simpl; try lia;
      match goal with |- context [Qltb ?a ?b] => destruct (Qltb a b) end;
      simpl; lia. }
  split; [exact Hse|].
  split; [apply Qltb_lt|].
  unfold calculate_reward. cbn [success actual_duration improvement_metrics
    side_effects].
  revert Hse.
  generalize (match action response with
              | RESTART_SERVICE =>
                  if Qltb (side_effect_draw d) (1 # 10)
                  then ["brief_service_interruption"] else []
              | SCALE_UP =>
                  if Qltb (side_effect_draw d) (5 # 100)
                  then ["increased_resource_cost"] else []
              | _ => []
              end).
  intros ses Hse.
  assert (Hn : (0 <= inject_Z (Z.of_nat (length ses))
                /\ inject_Z (Z.of_nat (length ses)) <= 1)%Q).
  { split; [change 0%Q with (inject_Z 0) | change 1%Q with (inject_Z 1)];
      rewrite <- Zle_Qle; lia. }
  revert Hn. generalize (inject_Z (Z.of_nat (length ses))). intros n [Hn0 Hn1].
  assert (Htp : (0 <= Qmin (1 # 2) (elapsed d / 300)
                 /\ Qmin (1 # 2) (elapsed d / 300) <= 1 # 2)%Q).
  { split; [|apply Q.le_min_l].
    apply Q.min_glb; [lra|]. unfold Qdiv.
    apply Qmult_le_0_compat; [exact He | discriminate]. }
  revert Htp. generalize (Qmin (1 # 2) (elapsed d / 300)). intros tp [Ht0 Ht1].
  destruct (Qltb (success_draw d) (success_probability response)).
  - split; [|discriminate]. intros _.
    assert (Him : (0 <= Py.sum (map snd
                     match failure_type failure_event with
                     | CPU_OVERLOAD =>
                         [("cpu_usage", uniform (2 # 10) (5 # 10) (improvement_draw d))]
                     | MEMORY_LEAK =>
                         [("memory_usage", uniform (1 # 10) (4 # 10) (improvement_draw d))]
                     | NETWORK_TIMEOUT =>
                         [("response_time", uniform (3 # 10) (6 # 10) (improvement_draw d))]
                     | _ => []
                     end))%Q).
    { rewrite sum_sigma.
      destruct (failure_type failure_event); simpl; try lra;
        match goal with
        | |- context [uniform ?lo ?hi ?u] =>
            destruct (uniform_range lo hi u); [lra | assumption | assumption |]
        end; lra. }
    revert Him. generalize (Py.sum (map snd
                     match failure_type failure_event with
                     | CPU_OVERLOAD =>
                         [("cpu_usage", uniform (2 # 10) (5 # 10) (improvement_draw d))]
                     | MEMORY_LEAK =>
                         [("memory_usage", uniform (1 # 10) (4 # 10) (improvement_draw d))]
                     | NETWORK_TIMEOUT =>
                         [("response_time", uniform (3 # 10) (6 # 10) (improvement_draw d))]
                     | _ => []
                     end)). intros im Him.
    apply Q.max_le_iff. right. apply Q.min_glb; lra.
  - split; [discriminate|]. intros _. split; [reflexivity|].
    apply Q.max_lub; [lra|].
    eapply Qle_trans; [apply Q.le_min_r|]. simpl. unfold Py.sum. simpl. lra.
Qed.

Lemma simulated_outcome_rewards_witness :
  exists res,
    execute_healing_action sure_draws blended_response
      (mk_event CPU_OVERLOAD (9 # 10)) = Ok res
    /\ result_response_id res = response_id blended_response
    /\ actual_duration res = elapsed sure_draws
    /\ (length (side_effects res) <= 1)%nat
    /\ (success res = true <->
        (success_draw sure_draws < success_probability blended_response)%Q)
    /\ (success res = true ->
        (4 # 10 <= calculate_reward res (severity (mk_event CPU_OVERLOAD (9 # 10))))%Q)
    /\ (success res = false ->
        improvement_metrics res = []
        /\ (calculate_reward res (severity (mk_event CPU_OVERLOAD (9 # 10)))
            <= - (1 # 2))%Q).
Proof.
  apply (simulated_outcome_rewards sure_draws blended_response
           (mk_event CPU_OVERLOAD (9 # 10))).
  - unfold valid_draws. simpl. repeat split; lra.
  - simpl. lra.
  - simpl. lra.
Defined.

(** ** Selection among the shortlisted actions *)

Lemma rate_nonneg c : (0 <= rate c)%Q.
Proof.
  unfold rate. destruct (attempts c) as [|n] eqn:E.
  - simpl. unfold Qdiv. rewrite Qmult_comm. simpl.
    unfold Qle, Qmult, Qinv. simpl. lia.
  - unfold Qdiv. apply Qmult_le_0_compat.
    + change 0%Q with (inject_Z 0). rewrite <- Zle_Qle. lia.
    + apply Qinv_le_0_compat. change 0%Q with (inject_Z 0).
      rewrite <- Zle_Qle. lia.
Qed.

Lemma fallback_loop_result t actions : forall best r0 s s' a,
  fallback_loop t actions best r0 s = (s', Ok a) ->
  exists r,
    (r0 <= r)%Q
    /\ (forall b, b ∈ actions ->
          (0 < attempts (counters_of s (strategy_key t b)))%nat ->
          (rate (counters_of s (strategy_key t b)) <= r)%Q)
    /\ ((a = best /\ r = r0)
        \/ (a ∈ actions
            /\ (0 < attempts (counters_of s (strategy_key t a)))%nat
            /\ rate (counters_of s (strategy_key t a)) = r
            /\ (r0 < r)%Q)).
Proof.
  induction actions as [|x actions IH]; intros best r0 s s' a H; simpl in H.
  - apply mret_inv in H as [-> ->]. exists r0. split; [lra|].
    split; [intros b Hb; inversion Hb | auto].
  - destruct (rates_lookup_spec (strategy_key t x) s) as (s1 & Hl & Hs1).
    rewrite (mbind_ok _ _ _ _ _ Hl) in H.
    destruct Hs1 as (_ & _ & _ & _ & _ & _ & _ & _ & Hc).
    set (cx := counters_of s (strategy_key t x)) in *.
    destruct (Nat.ltb_spec 0 (attempts cx)) as [Hatt|Hatt].
    + destruct (Qltb r0 (rate cx)) eqn:E.
      * apply Qltb_lt in E.
        apply IH in H as (r & Hr & Hall & Hcase).
        exists r. split; [lra|]. split.
        -- intros b Hb Hb'. apply elem_of_cons in Hb as [->|Hb].
           ++ fold cx. lra.
           ++ specialize (Hall b Hb). rewrite !Hc in Hall. auto.
        -- right. destruct Hcase as [[-> ->]|(Ha & Ha' & Hra & Hlt)].
           ++ split; [apply elem_of_cons; auto|]. fold cx. auto.
           ++ rewrite !Hc in Ha', Hra.
              split; [apply elem_of_cons; auto|].
              split; [assumption|]. split; [assumption|lra].
      * apply Qltb_ge in E.
        apply IH in H as (r & Hr & Hall & Hcase).
        exists r. split; [lra|]. split.
        -- intros b Hb Hb'. apply elem_of_cons in Hb as [->|Hb].
           ++ fold cx. lra.
           ++ specialize (Hall b Hb). rewrite !Hc in Hall. auto.
        -- destruct Hcase as [[-> ->]|(Ha & Ha' & Hra & Hlt)]; [auto|].
           rewrite !Hc in Ha', Hra. right.
           split; [apply elem_of_cons; auto|]. auto.
    + apply IH in H as (r & Hr & Hall & Hcase).
      exists r. split; [lra|]. split.
      * intros b Hb Hb'. apply elem_of_cons in Hb as [->|Hb].
        -- fold cx in Hb'. lia.
        -- specialize (Hall b Hb). rewrite !Hc in Hall. auto.
      * destruct Hcase as [[-> ->]|(Ha & Ha' & Hra & Hlt)]; [auto|].
        rewrite !Hc in Ha', Hra. right.
        split; [apply elem_of_cons; auto|]. auto.
Qed.

Lemma index_head {A} (xs : list A) x :
  Py.index xs 0 = Ok x -> exists rest, xs = x :: rest.
Proof.
  unfold Py.index. simpl. destruct xs as [|y rest]; simpl.
  - discriminate.
  - intros H. inversion H. eauto.
Qed.

(** X7: a suggestion that the catalog shortlists for the failure type is
    always used; once the history holds 10 events, a suggestion outside
    the shortlist is replaced by a shortlisted action whose success rate
    is not below that of any other shortlisted action, an action without
    attempts counting as rate 0. *)
Theorem fallback_selection (o : Oracle) (failure_event : FailureEvent)
    (s : Orchestrator) (resp : HealingResponse) (sug : HealingAction) :
  snd (generate_healing_response o failure_event s) = Ok resp ->
  suggested_action s o failure_event = Ok sug ->
  (sug ∈ shortlist s (failure_type failure_event) -> action resp = sug)
  /\ (sug ∉ shortlist s (failure_type failure_event) ->
      (10 <= length (failure_history s))%nat ->
      action resp ∈ shortlist s (failure_type failure_event)
      /\ forall b,
           b ∈ shortlist s (failure_type failure_event) ->
           (score (counters_of s (strategy_key (failure_type failure_event) b))
            <= score (counters_of s
                        (strategy_key (failure_type failure_event) (action resp))))%Q).
Proof.
  intros H Hsug.
  destruct (generate_healing_response o failure_event s) as [s' r] eqn:E.
  simpl in H. subst r.
  pose proof (generate_healing_response_inv _ _ _ _ _ E)
    as (sug' & Hsug' & _ & Hkeep & _).
  rewrite Hsug in Hsug'. inversion Hsug'; subst sug'; clear Hsug'.
  fold (shortlist s (failure_type failure_event)) in Hkeep.
  split.
  - intros Hin. apply Hkeep. apply orb_true_iff. left.
    now apply bool_decide_eq_true.
  - intros Hnin Hlen.
    unfold generate_healing_response in E.
    minv E as s0 x0 H0. apply mget_inv in H0 as [-> ->].
    minv E as s0 sug0 Hs0. apply mlift_inv in Hs0 as [-> Hs0].
    rewrite Hsug in Hs0. inversion Hs0; subst sug0; clear Hs0.
    minv E as s1 chosen Hch.
    fold (shortlist s (failure_type failure_event)) in Hch.
    assert (Hcond : bool_decide (sug ∈ shortlist s (failure_type failure_event))
                    || (length (failure_history s) <? 10)%nat = false).
    { apply orb_false_iff. split.
      - now apply bool_decide_eq_false.
      - apply Nat.ltb_ge. exact Hlen. }
    rewrite Hcond in Hch.
    minv Hch as s2 best Hbest. apply mlift_inv in Hbest as [-> Hbest].
    apply index_head in Hbest as [rest Hlist].
    minv E as s3 params Hadj. apply mlift_inv in Hadj as [-> Hadj].
    destruct (priority_and_base (config s) (severity failure_event)) as [prio base].
    minv E as s4 c Hl.
    apply mret_inv in E as [-> ->]. simpl.
    apply fallback_loop_result in Hch as (r & Hr & Hall & Hcase).
    assert (Hmem : chosen ∈ shortlist s (failure_type failure_event)).
    { destruct Hcase as [[-> _]|[Hc _]]; [|exact Hc].
      rewrite Hlist. apply elem_of_cons. auto. }
    split; [exact Hmem|].
    intros b Hb.
    assert (Hsb : (score (counters_of s (strategy_key (failure_type failure_event) b))
                   <= r)%Q).
    { unfold score.
      destruct (Nat.ltb_spec 0
                  (attempts (counters_of s
                               (strategy_key (failure_type failure_event) b)))).
      - now apply Hall.
      - exact Hr. }
    eapply Qle_trans; [exact Hsb|].
    destruct Hcase as [[-> ->]|(_ & Hatt & Hrate & _)].
    + unfold score.
      destruct (Nat.ltb_spec 0
                  (attempts (counters_of s
                               (strategy_key (failure_type failure_event) best))));
        [apply rate_nonneg | lra].
    + unfold score.
      destruct (Nat.ltb_spec 0
                  (attempts (counters_of s
                               (strategy_key (failure_type failure_event) chosen))));
        [rewrite Hrate; lra | lia].
Qed.

Lemma fallback_selection_witness :
  action fallback_response ∈ shortlist ten_events_state CPU_OVERLOAD
  /\ forall b,
       b ∈ shortlist ten_events_state CPU_OVERLOAD ->
       (score (counters_of ten_events_state (strategy_key CPU_OVERLOAD b))
        <= score (counters_of ten_events_state
                    (strategy_key CPU_OVERLOAD (action fallback_response))))%Q.
Proof.
  apply (fallback_selection (explore 2) (mk_event CPU_OVERLOAD (9 # 10))
           ten_events_state fallback_response SCALE_DOWN).
  - vm_compute. reflexivity.
  - vm_compute. reflexivity.
  - vm_compute. intros H.
    repeat (apply elem_of_cons in H as [H|H]; [discriminate|]).
    inversion H.
  - vm_compute. lia.
Defined.

(** ** The fields of a generated response *)

Lemma dict_get_set_eq {V} (d : list (string * V)) k v :
  dict_get (dict_set d k v) k = Some v.
Proof.
  induction d as [|[k' v'] d IH]; simpl.
  - destruct (decide (k = k)); [reflexivity|congruence].
  - destruct (decide (k' = k)) as [->|Hne]; simpl.
    + destruct (decide (k = k)); [reflexivity|congruence].
    + destruct (decide (k' = k)); [congruence|exact IH].
Qed.

Lemma dict_get_set_ne {V} (d : list (string * V)) k k2 v :
  k2 <> k -> dict_get (dict_set d k v) k2 = dict_get d k2.
Proof.
  intros Hne. induction d as [|[k' v'] d IH]; simpl.
  - destruct (decide (k = k2)); [congruence|reflexivity].
  - destruct (decide (k' = k)) as [->|Hk]; simpl.
    + destruct (decide (k = k2)); [congruence|reflexivity].
    + destruct (decide (k' = k2)); [reflexivity|exact IH].
Qed.

Lemma generate_healing_response_fields o ev s resp :
  snd (generate_healing_response o ev s) = Ok resp ->
  adjust_parameters (action resp) (severity ev)
    (default [] (action_parameters (config s) (action resp)))
  = Ok (parameters resp)
  /\ estimated_duration resp = duration_estimates (action resp)
  /\ resource_cost resp = (severity ev * (1 # 2))%Q.
Proof.
  intros H.
  destruct (generate_healing_response o ev s) as [s' r] eqn:E.
  simpl in H. subst r.
  unfold generate_healing_response in E.
  minv E as s0 x0 H0. apply mget_inv in H0 as [-> ->].
  minv E as s0 sug Hsug. apply mlift_inv in Hsug as [-> Hsug].
  minv E as s1 chosen Hch.
  minv E as s2 params Hadj. apply mlift_inv in Hadj as [-> Hadj].
  destruct (priority_and_base (config s) (severity ev)) as [prio base].
  minv E as s3 c Hl.
  apply mret_inv in E as [-> ->]. simpl. auto.
Qed.

(** X8: in every generated response a SCALE_UP carries a scale_factor of
    at most 3.0 and a THROTTLE_REQUESTS a throttle_rate of at least 0.1;
    every other parameter of every action, the scale_factor of a
    SCALE_DOWN among them, is the configured default of the chosen
    action, and for an action other than these two the parameters are the
    configured defaults as they stand; the estimated duration is positive
    and the resource cost is half the severity. *)
Theorem response_parameter_bounds (o : Oracle) (failure_event : FailureEvent)
    (s : Orchestrator) (resp : HealingResponse) :
  snd (generate_healing_response o failure_event s) = Ok resp ->
  (action resp = SCALE_UP ->
     exists v, dict_get (parameters resp) "scale_factor" = Some (PNum v)
               /\ (v <= 3)%Q)
  /\ (action resp = THROTTLE_REQUESTS ->
     exists v, dict_get (parameters resp) "throttle_rate" = Some (PNum v)
               /\ (1 # 10 <= v)%Q)
  /\ (forall k,
        ~ (action resp = SCALE_UP /\ k = "scale_factor") ->
        ~ (action resp = THROTTLE_REQUESTS /\ k = "throttle_rate") ->
        dict_get (parameters resp) k
        = dict_get (default [] (action_parameters (config s) (action resp))) k)
  /\ (0 < estimated_duration resp)%Q
  /\ resource_cost resp = (severity failure_event * (1 # 2))%Q
  /\ (action resp <> SCALE_UP -> action resp <> THROTTLE_REQUESTS ->
        parameters resp
        = default [] (action_parameters (config s) (action resp))).
Proof.
  intros H.
  destruct (generate_healing_response_fields _ _ _ _ H) as (Hadj & Hdur & Hcost).
  unfold adjust_parameters in Hadj.
  repeat split.
  - intros Ha. rewrite Ha in Hadj.
    destruct (as_float _) as [q|e]; simpl in Hadj; [|discriminate].
    inversion Hadj as [Hp]. eexists. split; [apply dict_get_set_eq|].
    apply Q.le_min_l.
  - intros Ha. rewrite Ha in Hadj.
    destruct (as_float _) as [q|e]; simpl in Hadj; [|discriminate].
    inversion Hadj as [Hp]. eexists. split; [apply dict_get_set_eq|].
    apply Q.le_max_l.
  - intros k Hk1 Hk2.
    destruct (action resp) eqn:Ha; try (inversion Hadj; reflexivity);
      destruct (as_float _) as [q|e]; simpl in Hadj; try discriminate;
      inversion Hadj; apply dict_get_set_ne; intros ->;
      [apply Hk1 | apply Hk2]; split; reflexivity.
  - rewrite Hdur. destruct (action resp); reflexivity.
  - exact Hcost.
  - intros Hup Hthrottle.
    destruct (action resp); try congruence; inversion Hadj; reflexivity.
Qed.


Lemma rate_le_1 c : (successes c <= attempts c)%nat -> (rate c <= 1)%Q.
Proof.
  intros H. unfold rate. destruct (attempts c) as [|n] eqn:E.
  - assert (successes c = 0%nat) by lia.
    unfold Qdiv, Qle, Qmult, Qinv. simpl. lia.
  - apply Qle_shift_div_r.
    + change 0%Q with (inject_Z 0). rewrite <- Zlt_Qlt. lia.
    + rewrite Qmult_1_l. rewrite <- Zle_Qle. lia.
Qed.

Lemma base_probability_range cfg sev :
  (6 # 10 <= snd (priority_and_base cfg sev)
   /\ snd (priority_and_base cfg sev) <= 9 # 10)%Q.
Proof.
  unfold priority_and_base.
  repeat match goal with |- context [Qle_bool ?a ?b] => destruct (Qle_bool a b) end;
    simpl; split; lra.
Qed.

(** X9: when the chosen pair's counters record no more successes than
    attempts, the success probability of the generated response lies in
    [0.3, 0.95], whatever the thresholds of the configuration. *)
Theorem response_probability_bounds (o : Oracle) (failure_event : FailureEvent)
    (s : Orchestrator) (resp : HealingResponse) :
  snd (generate_healing_response o failure_event s) = Ok resp ->
  (successes (counters_of s (strategy_key (failure_type failure_event)
                               (action resp)))
   <= attempts (counters_of s (strategy_key (failure_type failure_event)
                                 (action resp))))%nat ->
  (3 # 10 <= success_probability resp /\ success_probability resp <= 95 # 100)%Q.
Proof.
  intros H Hc.
  destruct (generate_healing_response o failure_event s) as [s' r] eqn:E.
  simpl in H. subst r.
  apply generate_healing_response_inv in E as (_ & _ & _ & _ & Hp & _).
  rewrite Hp. cbv zeta.
  pose proof (rate_le_1 _ Hc) as H1.
  pose proof (rate_nonneg
                (counters_of s (strategy_key (failure_type failure_event)
                                  (action resp)))) as H0.
  destruct (base_probability_range (config s) (severity failure_event)) as [B0 B1].
  revert H0 H1 B0 B1.
  generalize (rate (counters_of s (strategy_key (failure_type failure_event)
                                     (action resp)))).
  generalize (snd (priority_and_base (config s) (severity failure_event))).
  intros b r H0 H1 B0 B1.
  destruct (5 <? _)%nat.
  - split.
    + apply Qle_shift_div_l; lra.
    + apply Qle_shift_div_r; lra.
  - split; lra.
Qed.

Lemma response_parameter_bounds_witness :
  exists v, dict_get (parameters blended_response) "scale_factor" = Some (PNum v)
            /\ (v <= 3)%Q.
Proof.
  destruct (response_parameter_bounds (explore 1)
              (mk_event CPU_OVERLOAD (9 # 10)) (with_attempts 6)
              blended_response) as [H _].
  - vm_compute. reflexivity.
  - apply H. reflexivity.
Defined.

Lemma response_probability_bounds_witness :
  (3 # 10 <= success_probability blended_response
   /\ success_probability blended_response <= 95 # 100)%Q.
Proof.
  apply (response_probability_bounds (explore 1)
           (mk_event CPU_OVERLOAD (9 # 10)) (with_attempts 6)).
  - vm_compute. reflexivity.
  - vm_compute. lia.
Defined.

(** ** Invariants kept on every path of a call *)

Lemma stays_ret {A} (a : A) : stays_same (mret a).
Proof. intros s. apply same_but_rates_refl. Qed.

Lemma stays_lift {A} (r : result A) : stays_same (mlift r).
Proof. intros s. apply same_but_rates_refl. Qed.

Lemma stays_get : stays_same mget.
Proof. intros s. apply same_but_rates_refl. Qed.

Lemma stays_bind {A B} (m : M Orchestrator A) (k : A -> M Orchestrator B) :
  stays_same m -> (forall a, stays_same (k a)) -> stays_same (mbind m k).
Proof.
  intros Hm Hk s. unfold mbind. specialize (Hm s).
  destruct (m s) as [s1 [a|e]]; simpl in *.
  - eapply same_but_rates_trans; [exact Hm | apply Hk].
  - exact Hm.
Qed.

Lemma stays_rates_lookup key : stays_same (rates_lookup key).
Proof.
  intros s. destruct (rates_lookup_spec key s) as (s' & H & Hs).
  now rewrite H.
Qed.

Lemma stays_fallback_loop t actions best r :
  stays_same (fallback_loop t actions best r).
Proof.
  intros s. destruct (fallback_loop_spec t actions best r s) as (s' & a & H & Hs).
  now rewrite H.
Qed.

Ltac stays :=
  repeat first
    [ apply stays_ret | apply stays_lift | apply stays_get
    | apply stays_rates_lookup | apply stays_fallback_loop
    | match goal with
      | |- stays_same (if ?c then _ else _) => destruct c
      | |- stays_same (let '(_, _) := ?p in _) => destruct p
      end
    | apply stays_bind; [|intros] ].

Lemma stays_generate o ev : stays_same (generate_healing_response o ev).
Proof. unfold generate_healing_response. stays. Qed.

(** How a call ends, decided by its three fallible steps. *)
Lemma handle_failure_outcome ex o ev s :
  match generate_healing_response o ev (pre_dispatch ev s) with
  | (s2, Raise e) => handle_failure ex o ev s = (s2, Raise e)
  | (s2, Ok resp) =>
      match ex resp ev with
      | Raise e => handle_failure ex o ev s = (s2, Raise e)
      | Ok res =>
          match update_q_value (rl_agent s2) (encode_state ev)
                  (Z.of_nat (list_index (action resp) HealingAction_list))
                  (calculate_reward res (severity ev)) (encode_state ev) with
          | Raise e =>
              exists rec,
                handle_failure ex o ev s
                = (set_healing_history
                     (Py.deque_append 1000 (healing_history s2) rec) s2,
                   Raise e)
          | Ok ag' =>
              exists s' ps,
                handle_failure ex o ev s
                = (s', Ok {| failure_handled := true;
                             healing_action := action resp;
                             summary_success := success res;
                             duration := actual_duration res;
                             patterns_detected := ps;
                             summary_improvement_metrics := improvement_metrics res;
                             summary_side_effects := side_effects res |})
          end
      end
  end.
Proof.
  destruct (detect_failure_patterns_total ev
              (set_failure_history
                 (Py.deque_append 1000 (failure_history s) ev) s)) as [ps Hdet].
  fold (pre_dispatch ev s) in Hdet.
  destruct (generate_healing_response o ev (pre_dispatch ev s))
    as [s2 [resp|e]] eqn:Hgen.
  - destruct (ex resp ev) as [res|e] eqn:Hex.
    + destruct (update_q_value (rl_agent s2) (encode_state ev)
                  (Z.of_nat (list_index (action resp) HealingAction_list))
                  (calculate_reward res (severity ev)) (encode_state ev))
        as [ag'|e] eqn:Hupd.
      * unfold handle_failure.
        erewrite mbind_ok by reflexivity. cbv beta.
        rewrite (mbind_ok _ _ _ _ _ Hdet).
        rewrite (mbind_ok _ _ _ _ _ Hgen).
        erewrite mbind_ok by (unfold mlift; rewrite Hex; reflexivity). cbv beta.
        erewrite mbind_ok by reflexivity. cbv beta.
        erewrite mbind_ok by reflexivity. cbv beta.
        erewrite mbind_ok
          by (unfold mlift; cbn [rl_agent set_healing_history];
              rewrite Hupd; reflexivity).
        cbv beta.
        erewrite mbind_ok by reflexivity. cbv beta.
        match goal with
        | |- context [mbind (incr_attempts ?key) _ ?st] =>
            destruct (incr_attempts_spec key st) as (s5 & E5 & _);
            rewrite (mbind_ok _ _ _ _ _ E5)
        end.
        assert (E6 : exists s6,
          (if success res
           then incr_successes (strategy_key (failure_type ev) (action resp))
           else mret tt) s5 = (s6, Ok tt)).
        { destruct (success res).
          - destruct (incr_successes_spec
                        (strategy_key (failure_type ev) (action resp)) s5)
              as (s6 & E & _). eauto.
          - exists s5. reflexivity. }
        destruct E6 as [s6 E6]. rewrite (mbind_ok _ _ _ _ _ E6).
        erewrite mbind_ok by reflexivity. cbv beta.
        eexists _, _. reflexivity.
      * eexists. unfold handle_failure.
        erewrite mbind_ok by reflexivity. cbv beta.
        rewrite (mbind_ok _ _ _ _ _ Hdet).
        rewrite (mbind_ok _ _ _ _ _ Hgen).
        erewrite mbind_ok by (unfold mlift; rewrite Hex; reflexivity). cbv beta.
        erewrite mbind_ok by reflexivity. cbv beta.
        erewrite mbind_ok by reflexivity. cbv beta.
        erewrite mbind_raise
          by (unfold mlift; cbn [rl_agent set_healing_history];
              rewrite Hupd; reflexivity).
        reflexivity.
    + unfold handle_failure.
      erewrite mbind_ok by reflexivity. cbv beta.
      rewrite (mbind_ok _ _ _ _ _ Hdet).
      rewrite (mbind_ok _ _ _ _ _ Hgen).
      erewrite mbind_raise by (unfold mlift; rewrite Hex; reflexivity).
      reflexivity.
  - unfold handle_failure.
    erewrite mbind_ok by reflexivity. cbv beta.
    rewrite (mbind_ok _ _ _ _ _ Hdet).
    erewrite mbind_raise by exact Hgen.
    reflexivity.
Qed.

(** A call that raises changes no counter, no configuration and no
    agent. *)
Lemma handle_failure_raise_frame ex o ev s e :
  snd (handle_failure ex o ev s) = Raise e ->
  config (fst (handle_failure ex o ev s)) = config s
  /\ rl_agent (fst (handle_failure ex o ev s)) = rl_agent s
  /\ forall key,
       counters_of (fst (handle_failure ex o ev s)) key = counters_of s key.
Proof.
  intros H.
  pose proof (handle_failure_outcome ex o ev s) as Ho.
  pose proof (stays_generate o ev (pre_dispatch ev s)) as Hs2.
  destruct (generate_healing_response o ev (pre_dispatch ev s))
    as [s2 [resp|e0]]; simpl in Hs2;
    destruct Hs2 as (G1 & _ & _ & G4 & _ & _ & _ & _ & G9).
  - destruct (ex resp ev) as [res|e1].
    + destruct (update_q_value _ _ _ _ _) as [ag'|e2].
      * destruct Ho as (s' & ps & Ho). rewrite Ho in H. discriminate.
      * destruct Ho as (rec & Ho). rewrite Ho. simpl.
        repeat split; try assumption; intros key; apply G9.
    + rewrite Ho. simpl. repeat split; try assumption; intros key; apply G9.
  - rewrite Ho. simpl. repeat split; try assumption; intros key; apply G9.
Qed.

Lemma counters_sound_step ex o ev s :
  counters_sound s -> counters_sound (fst (handle_failure ex o ev s)).
Proof.
  intros Hs key.
  destruct (handle_failure ex o ev s) as [s' [sm|e]] eqn:E.
  - simpl. apply handle_failure_inv in E
      as (s1 & s2 & patterns & resp & res & _ & _ & _ & Hc1 & Hgen & _ & _ & Hc).
    apply generate_healing_response_inv in Hgen as (_ & _ & Hs2 & _).
    destruct Hs2 as (_ & _ & _ & _ & _ & _ & _ & _ & Hc2).
    rewrite Hc. specialize (Hs key).
    destruct (decide _); rewrite Hc2, Hc1; [|exact Hs].
    unfold bumped. destruct (success res); simpl; lia.
  - pose proof (handle_failure_raise_frame ex o ev s e) as Hf.
    rewrite E in Hf. simpl in Hf. simpl.
    destruct (Hf eq_refl) as (_ & _ & Hc). rewrite Hc. apply Hs.
Qed.

Lemma incr_attempts_frame key s s' u :
  incr_attempts key s = (s', Ok u) ->
  config s' = config s /\ failure_history s' = failure_history s
  /\ healing_history s' = healing_history s /\ rl_agent s' = rl_agent s
  /\ failure_patterns s' = failure_patterns s
  /\ response_times s' = response_times s
  /\ resource_usage s' = resource_usage s
  /\ failure_learning_data s' = failure_learning_data s.
Proof.
  unfold incr_attempts. intros H.
  minv H as s1 c Hl. apply mmodify_inv in H. subst s'.
  destruct (rates_lookup_spec key s) as (s1' & Hl' & Hs1).
  rewrite Hl' in Hl. inversion Hl; subst s1' c.
  destruct Hs1 as (A1 & A2 & A3 & A4 & A5 & A6 & A7 & A8 & _).
  simpl. auto 10.
Qed.

Lemma incr_successes_frame key s s' u :
  incr_successes key s = (s', Ok u) ->
  config s' = config s /\ failure_history s' = failure_history s
  /\ healing_history s' = healing_history s /\ rl_agent s' = rl_agent s
  /\ failure_patterns s' = failure_patterns s
  /\ response_times s' = response_times s
  /\ resource_usage s' = resource_usage s
  /\ failure_learning_data s' = failure_learning_data s.
Proof.
  unfold incr_successes. intros H.
  minv H as s1 c Hl. apply mmodify_inv in H. subst s'.
  destruct (rates_lookup_spec key s) as (s1' & Hl' & Hs1).
  rewrite Hl' in Hl. inversion Hl; subst s1' c.
  destruct Hs1 as (A1 & A2 & A3 & A4 & A5 & A6 & A7 & A8 & _).
  simpl. auto 10.
Qed.

Lemma handle_failure_effects (executor : Executor) (o : Oracle)
    (failure_event : FailureEvent) (s : Orchestrator) (sm : HandlingSummary) :
  snd (handle_failure executor o failure_event s) = Ok sm ->
  let s' := fst (handle_failure executor o failure_event s) in
  exists resp res,
    snd (generate_healing_response o failure_event
           (pre_dispatch failure_event s)) = Ok resp
    /\ executor resp failure_event = Ok res
    /\ healing_action sm = action resp
    /\ update_q_value (rl_agent s) (encode_state failure_event)
         (Z.of_nat (list_index (action resp) HealingAction_list))
         (calculate_reward res (severity failure_event))
         (encode_state failure_event) = Ok (rl_agent s')
    /\ config s' = config s
    /\ healing_history s'
       = Py.deque_append 1000 (healing_history s)
           {| rec_failure_event := failure_event;
              rec_healing_response := resp;
              rec_healing_result := res;
              rec_patterns_detected := patterns_detected sm;
              rec_timestamp := now o |}
    /\ response_times s'
       = fn_append (response_times s) (action resp) (actual_duration res)
    /\ resource_usage s'
       = fn_append (resource_usage s) (action resp) (resource_cost resp)
    /\ failure_learning_data s'
       = failure_learning_data s ++
           [{| ld_failure_type := failure_type failure_event;
               ld_severity := severity failure_event;
               ld_action_taken := action resp;
               ld_success := success res;
               ld_improvement := Py.sum (map snd (improvement_metrics res));
               ld_patterns := patterns_detected sm;
               ld_timestamp := now o |}].
Proof.
  intros H s'. subst s'.
  destruct (handle_failure executor o failure_event s) as [s' r] eqn:E.
  simpl in H. subst r. simpl.
  unfold handle_failure in E.
  minv E as s0 u0 H0. apply mmodify_inv in H0.
  minv E as s1 patterns Hdet.
  assert (Hs1 : s1 = pre_dispatch failure_event s).
  { unfold pre_dispatch. rewrite <- H0, Hdet. reflexivity. }
  minv E as s2 resp Hgen.
  minv E as s3 res Hex. apply mlift_inv in Hex as [-> Hex].
  minv E as s3 u1 H1. apply mmodify_inv in H1.
  minv E as s4 sx H2. apply mget_inv in H2 as [-> ->].
  minv E as s4 ag' Hupd. apply mlift_inv in Hupd as [-> Hupd].
  minv E as s4 u2 H3. apply mmodify_inv in H3.
  minv E as s5 u3 H4.
  minv E as s6 u4 H5.
  minv E as s7 u5 H6. apply mmodify_inv in H6.
  apply mret_inv in E as [-> ->]. simpl.
  pose proof (generate_healing_response_inv _ _ _ _ _ Hgen) as (_ & _ & Hsame & _).
  destruct Hsame as (G1 & G2 & G3 & G4 & G5 & G6 & G7 & G8 & _).
  rewrite Hs1 in *.
  apply incr_attempts_frame in H4 as (A1 & A2 & A3 & A4 & A5 & A6 & A7 & A8).
  assert (H56 : config s6 = config s5 /\ healing_history s6 = healing_history s5
                /\ rl_agent s6 = rl_agent s5
                /\ response_times s6 = response_times s5
                /\ resource_usage s6 = resource_usage s5
                /\ failure_learning_data s6 = failure_learning_data s5).
  { destruct (success res).
    - apply incr_successes_frame in H5. tauto.
    - apply mret_inv in H5 as [-> _]. auto 10. }
  destruct H56 as (B1 & B3 & B4 & B6 & B7 & B8).
  exists resp, res.
  split; [now rewrite Hgen|]. split; [exact Hex|]. split; [reflexivity|].
  subst s7. simpl.
  rewrite B1, B3, B4, B6, B7, B8, A1, A3, A4, A6, A7, A8.
  subst s4. simpl. subst s3. simpl in *.
  rewrite G4 in Hupd. cbn [rl_agent pre_dispatch] in Hupd.
  rewrite G1, G3, G6, G7, G8.
  split; [exact Hupd|].
  repeat split.
Qed.

Lemma rbind_inv {A B} (r : result A) (k : A -> result B) b :
  rbind r k = Ok b -> exists a, r = Ok a /\ k a = Ok b.
Proof. destruct r as [a|e]; simpl; [eauto | discriminate]. Qed.

Lemma set_index_shape {A} (xs xs' : list A) i v :
  Py.set_index xs i v = Ok xs' -> exists j, xs' = <[j := v]> xs.
Proof.
  unfold Py.set_index. destruct (_ && _); [|discriminate].
  intros H. inversion H. eauto.
Qed.

Lemma index_elem {A} (xs : list A) i x :
  Py.index xs i = Ok x -> exists j, xs !! j = Some x.
Proof.
  unfold Py.index. destruct (_ && _); [|discriminate].
  destruct (xs !! _) eqn:E; [|discriminate].
  intros H. inversion H; subst. eauto.
Qed.

Lemma set_cell_shape (table table' : list (list Q)) s a v m :
  set_cell table s a v = Ok table' ->
  Forall (fun row => length row = m) table ->
  length table' = length table
  /\ Forall (fun row => length row = m) table'.
Proof.
  unfold set_cell. intros H Hall.
  apply rbind_inv in H as (row & Hrow & H).
  apply rbind_inv in H as (row' & Hrow' & H).
  apply index_elem in Hrow as [j Hj].
  apply set_index_shape in Hrow' as [ja ->].
  apply set_index_shape in H as [js ->].
  split; [apply length_insert|].
  apply Forall_insert; [exact Hall|].
  rewrite length_insert. exact (Forall_lookup_1 _ _ _ _ Hall Hj).
Qed.

Lemma update_q_value_wf ag s a r s' ag' :
  update_q_value ag s a r s' = Ok ag' ->
  wf_agent ag -> wf_agent ag' /\ same_params ag ag'.
Proof.
  unfold update_q_value. intros H (Hlen & Hrows & Hclen & Hcrows & Hpos).
  apply rbind_inv in H as (next_row & _ & H).
  apply rbind_inv in H as (best & _ & H).
  apply rbind_inv in H as (q_next & _ & H).
  apply rbind_inv in H as (q_old & _ & H).
  apply rbind_inv in H as (qt & Hqt & H).
  apply rbind_inv in H as (c_old & _ & H).
  apply rbind_inv in H as (ct & Hct & H).
  inversion H; subst ag'; clear H.
  destruct (set_cell_shape _ _ _ _ _ _ Hqt Hrows) as [L1 F1].
  destruct (set_cell_shape _ _ _ _ _ _ Hct Hcrows) as [L2 F2].
  split.
  - unfold wf_agent. simpl. repeat split; try assumption; congruence.
  - unfold same_params. simpl. auto.
Qed.

Lemma wf_orchestrator_step ex o ev s :
  wf_orchestrator s ->
  wf_orchestrator (fst (handle_failure ex o ev s))
  /\ config (fst (handle_failure ex o ev s)) = config s.
Proof.
  intros (Hag & Hns & Hna & Hne & Hadj).
  destruct (handle_failure ex o ev s) as [s' [sm|e]] eqn:E.
  - pose proof (handle_failure_effects ex o ev s sm) as He.
    rewrite E in He. simpl in He.
    destruct (He eq_refl) as (resp & res & _ & _ & _ & Hupd & Hcfg & _).
    simpl.
    destruct (update_q_value_wf _ _ _ _ _ _ Hupd Hag) as [Hwf' (P1 & P2 & _)].
    split; [|exact Hcfg].
    unfold wf_orchestrator. rewrite Hcfg, P1, P2. auto.
  - pose proof (handle_failure_raise_frame ex o ev s e) as Hf.
    rewrite E in Hf. simpl in Hf. simpl.
    destruct (Hf eq_refl) as (Hcfg & Hagent & _).
    split; [|exact Hcfg].
    unfold wf_orchestrator. rewrite Hcfg, Hagent. auto.
Qed.

Lemma after_calls_wf cfg k s :
  wf_orchestrator (Orchestrator_init cfg) ->
  after_calls cfg k s -> wf_orchestrator s.
Proof.
  intros H0. induction 1 as [|k s ex o ev _ IH]; [exact H0|].
  now apply wf_orchestrator_step.
Qed.

(** X10: in every state an orchestrator reaches from a fresh start,
    whatever the outcomes of its calls, no (failure_type, action) pair has
    more successes than attempts, so every stored success rate lies in
    [0,1]. *)
Theorem counters_remain_sound (cfg : Config) (k : nat) (s : Orchestrator) :
  after_calls cfg k s ->
  forall key,
    (successes (counters_of s key) <= attempts (counters_of s key))%nat
    /\ (0 <= rate (counters_of s key))%Q
    /\ (rate (counters_of s key) <= 1)%Q.
Proof.
  intros H.
  assert (Hs : counters_sound s).
  { induction H as [|k s ex o ev _ IH].
    - intros key. unfold counters_of. simpl. rewrite lookup_empty. simpl. lia.
    - now apply counters_sound_step. }
  intros key. split; [apply Hs|].
  split; [apply rate_nonneg | apply rate_le_1, Hs].
Qed.

Lemma counters_remain_sound_witness :
  (successes (counters_of nine_calls_state (strategy_key CPU_OVERLOAD RESTART_SERVICE))
   <= attempts (counters_of nine_calls_state
                  (strategy_key CPU_OVERLOAD RESTART_SERVICE)))%nat
  /\ (0 <= rate (counters_of nine_calls_state
                   (strategy_key CPU_OVERLOAD RESTART_SERVICE)))%Q
  /\ (rate (counters_of nine_calls_state
              (strategy_key CPU_OVERLOAD RESTART_SERVICE)) <= 1)%Q.
Proof.
  apply (counters_remain_sound _default_config 9 nine_calls_state).
  apply (after_calls_run _default_config (execute_healing_action sure_draws)
           greedy warmup_events 0 fresh_orchestrator).
  constructor.
Defined.

(** X11: a call to [handle_failure], returning or raising, leaves the
    orchestrator well formed (the agent's tables keep their 40 x 9 shape)
    and never touches the configuration. *)
Theorem wf_orchestrator_preserved (executor : Executor) (o : Oracle)
    (failure_event : FailureEvent) (s : Orchestrator) :
  wf_orchestrator s ->
  wf_orchestrator (fst (handle_failure executor o failure_event s))
  /\ config (fst (handle_failure executor o failure_event s)) = config s.
Proof. apply wf_orchestrator_step. Qed.

Lemma wf_orchestrator_preserved_witness :
  wf_orchestrator (fst (handle_failure failing_executor (explore 1)
                          (mk_event CPU_OVERLOAD (9 # 10)) fresh_orchestrator))
  /\ config (fst (handle_failure failing_executor (explore 1)
                    (mk_event CPU_OVERLOAD (9 # 10)) fresh_orchestrator))
     = config fresh_orchestrator.
Proof.
  apply (wf_orchestrator_preserved failing_executor (explore 1)
           (mk_event CPU_OVERLOAD (9 # 10)) fresh_orchestrator).
  apply wf_fresh_orchestrator.
Defined.

(** X12: whether the call returns or raises, the handled event is the
    newest entry of the failure history; below 1000 entries the history
    grows by that event, at 1000 entries the oldest one is dropped, so
    the history never exceeds 1000 entries once it is within that bound. *)
Theorem failure_history_window (executor : Executor) (o : Oracle)
    (failure_event : FailureEvent) (s : Orchestrator) :
  let h := failure_history s in
  let h' := failure_history (fst (handle_failure executor o failure_event s)) in
  last h' = Some failure_event
  /\ ((length h < 1000)%nat -> h' = h ++ [failure_event])
  /\ ((length h = 1000)%nat -> h' = drop 1 h ++ [failure_event])
  /\ ((length h <= 1000)%nat -> (length h' <= 1000)%nat).
Proof.
  intros h h'. unfold h'. rewrite handle_failure_history. fold h.
  unfold Py.deque_append.
  destruct (Nat.ltb_spec 1000 (length (h ++ [failure_event]))) as [Hlt|Hge];
    [rewrite length_app in Hlt; simpl in Hlt
    |rewrite length_app in Hge; simpl in Hge].
  - assert (Hd : drop 1 (h ++ [failure_event]) = drop 1 h ++ [failure_event]).
    { destruct h; simpl in *; [lia|]. now rewrite !drop_0. }
    rewrite Hd. repeat split.
    + apply last_snoc.
    + intros. lia.
    + intros Hl. rewrite length_app, length_drop. simpl. lia.
  - repeat split.
    + apply last_snoc.
    + intros. lia.
    + intros. rewrite length_app. simpl. lia.
Qed.

(** X13: with the simulated executor, an in-range exploration draw and a
    severity above -0.2, [handle_failure] returns a summary in every state
    reached from a well-formed fresh orchestrator, after any number of
    earlier calls and whatever their outcomes. *)
Theorem simulated_pipeline_returns (cfg : Config) (k : nat) (s : Orchestrator)
    (d : ExecDraws) (o : Oracle) (failure_event : FailureEvent) :
  wf_orchestrator (Orchestrator_init cfg) ->
  after_calls cfg k s ->
  (rand_action o < length HealingAction_list)%nat ->
  (- (1 # 5) < severity failure_event)%Q ->
  exists sm,
    snd (handle_failure (execute_healing_action d) o failure_event s) = Ok sm
    /\ failure_handled sm = true
    /\ duration sm = elapsed d.
Proof.
  intros H0 Hcalls Hr Hsev.
  pose proof (after_calls_wf cfg k s H0 Hcalls) as Hwf.
  pose proof (handle_failure_outcome (execute_healing_action d) o failure_event s)
    as Ho.
  destruct (generate_healing_response_total o failure_event
              (pre_dispatch failure_event s) (wf_pre_dispatch _ _ Hwf) Hr Hsev)
    as (s2 & resp & Hgen).
  rewrite Hgen in Ho.
  pose proof (generate_healing_response_inv _ _ _ _ _ Hgen)
    as (_ & _ & Hsame & _).
  destruct Hsame as (_ & _ & _ & Hag & _).
  change (rl_agent (pre_dispatch failure_event s)) with (rl_agent s) in Hag.
  destruct (execute_healing_action d resp failure_event) as [res|e] eqn:Hex;
    [|discriminate].
  inversion Hex as [Hres].
  destruct (update_q_value_total (rl_agent s) (encode_state failure_event)
              (Z.of_nat (list_index (action resp) HealingAction_list))
              (calculate_reward res (severity failure_event)))
    as [ag' Hupd].
  { apply Hwf. }
  { destruct Hwf as (_ & -> & _). now apply encode_state_valid. }
  { destruct Hwf as (_ & _ & -> & _).
    pose proof (list_index_HealingAction_bound (action resp)). lia. }
  rewrite Hag, Hupd in Ho. destruct Ho as (s' & ps & Ho).
  eexists. rewrite Ho. simpl. split; [reflexivity|].
  split; [reflexivity|]. rewrite <- Hres. reflexivity.
Qed.

Lemma simulated_pipeline_returns_witness :
  exists sm,
    snd (handle_failure (execute_healing_action sure_draws) (explore 2)
           (mk_event CPU_OVERLOAD (9 # 10)) nine_calls_state) = Ok sm
    /\ failure_handled sm = true
    /\ duration sm = elapsed sure_draws.
Proof.
  apply (simulated_pipeline_returns _default_config 9 nine_calls_state
           sure_draws (explore 2) (mk_event CPU_OVERLOAD (9 # 10))).
  - apply wf_fresh_orchestrator.
  - apply (after_calls_run _default_config (execute_healing_action sure_draws)
             greedy warmup_events 0 fresh_orchestrator).
    constructor.
  - vm_compute. lia.
  - reflexivity.
Defined.

(** X14: a call that returns has run the executor on the response generated
    after the event was recorded, has applied one TD update to the cell of
    (encoded state, chosen action) with the reward of the result and
    next_state = state, and has appended exactly one healing record, one
    response-time sample, one resource-cost sample and one learning record;
    the configuration is unchanged. *)
Theorem handle_failure_bookkeeping (executor : Executor) (o : Oracle)
    (failure_event : FailureEvent) (s : Orchestrator) (sm : HandlingSummary) :
  snd (handle_failure executor o failure_event s) = Ok sm ->
  let s' := fst (handle_failure executor o failure_event s) in
  exists resp res,
    snd (generate_healing_response o failure_event
           (pre_dispatch failure_event s)) = Ok resp
    /\ executor resp failure_event = Ok res
    /\ healing_action sm = action resp
    /\ update_q_value (rl_agent s) (encode_state failure_event)
         (Z.of_nat (list_index (action resp) HealingAction_list))
         (calculate_reward res (severity failure_event))
         (encode_state failure_event) = Ok (rl_agent s')
    /\ config s' = config s
    /\ healing_history s'
       = Py.deque_append 1000 (healing_history s)
           {| rec_failure_event := failure_event;
              rec_healing_response := resp;
              rec_healing_result := res;
              rec_patterns_detected := patterns_detected sm;
              rec_timestamp := now o |}
    /\ response_times s'
       = fn_append (response_times s) (action resp) (actual_duration res)
    /\ resource_usage s'
       = fn_append (resource_usage s) (action resp) (resource_cost resp)
    /\ failure_learning_data s'
       = failure_learning_data s ++
           [{| ld_failure_type := failure_type failure_event;
               ld_severity := severity failure_event;
               ld_action_taken := action resp;
               ld_success := success res;
               ld_improvement := Py.sum (map snd (improvement_metrics res));
               ld_patterns := patterns_detected sm;
               ld_timestamp := now o |}].
Proof. exact (handle_failure_effects executor o failure_event s sm). Qed.

Lemma handle_failure_bookkeeping_witness :
  exists resp res,
    snd (generate_healing_response (explore 2) (mk_event CPU_OVERLOAD (9 # 10))
           (pre_dispatch (mk_event CPU_OVERLOAD (9 # 10)) fresh_orchestrator))
    = Ok resp
    /\ execute_healing_action sure_draws resp (mk_event CPU_OVERLOAD (9 # 10))
       = Ok res
    /\ healing_action first_summary = action resp.
Proof.
  destruct (handle_failure_bookkeeping (execute_healing_action sure_draws)
              (explore 2) (mk_event CPU_OVERLOAD (9 # 10)) fresh_orchestrator
              first_summary) as (resp & res & H1 & H2 & H3 & _).
  - vm_compute. reflexivity.
  - exists resp, res. auto.
Defined.

(** ** What pattern detection reports *)

Lemma tally_incr_get d k c :
  dict_get (tally_incr d k) c
  = if decide (c = k) then Some (S (default 0%nat (dict_get d k)))
    else dict_get d c.
Proof.
  induction d as [|[k' n] d IH]; simpl.
  - destruct (decide (k = c)), (decide (c = k)); congruence.
  - destruct (decide (k' = k)) as [->|Hk]; simpl.
    + destruct (decide (k = c)), (decide (c = k)); simpl; congruence.
    + destruct (decide (k' = c)) as [->|Hc].
      * destruct (decide (c = k)); congruence.
      * exact IH.
Qed.

Lemma tally_incr_keys d k c :
  c ∈ (tally_incr d k).*1 <-> c = k \/ c ∈ d.*1.
Proof.
  induction d as [|[k' n] d IH]; simpl.
  - rewrite list_elem_of_singleton.
    split; [auto | intros [?|H]; [auto | now apply elem_of_nil in H]].
  - destruct (decide (k' = k)) as [->|Hk]; simpl;
      rewrite !elem_of_cons; [|rewrite IH]; intuition congruence.
Qed.

Lemma tally_incr_NoDup d k : NoDup d.*1 -> NoDup (tally_incr d k).*1.
Proof.
  induction d as [|[k' n] d IH]; simpl; intros Hd.
  - apply NoDup_singleton.
  - apply NoDup_cons in Hd as [Hk' Hd].
    destruct (decide (k' = k)) as [->|Hk]; simpl.
    + now apply NoDup_cons.
    + apply NoDup_cons. split; [|now apply IH].
      rewrite tally_incr_keys. intuition congruence.
Qed.

Lemma tally_fold l : forall d,
  NoDup d.*1 ->
  NoDup (fold_left tally_incr l d).*1
  /\ forall c,
       default 0%nat (dict_get (fold_left tally_incr l d) c)
       = (length (filter (fun x => x = c) l) + default 0%nat (dict_get d c))%nat.
Proof.
  induction l as [|k l IH]; intros d Hd; simpl.
  - split; [exact Hd | reflexivity].
  - destruct (IH (tally_incr d k) (tally_incr_NoDup d k Hd)) as [Hn Hc].
    split; [exact Hn|]. intros c. rewrite Hc, tally_incr_get.
    rewrite filter_cons.
    destruct (decide (c = k)) as [Heq|Hne]; [subst c|];
      case_decide; try congruence; simpl; lia.
Qed.

Lemma dict_get_elem {V} (d : list (string * V)) c v :
  NoDup d.*1 -> (c, v) ∈ d -> dict_get d c = Some v.
Proof.
  induction d as [|[k' v'] d IH]; simpl; intros Hd Hin.
  - now apply elem_of_nil in Hin.
  - apply NoDup_cons in Hd as [Hk' Hd].
    apply elem_of_cons in Hin as [Heq|Hin].
    + inversion Heq; subst. now rewrite decide_True.
    + destruct (decide (k' = c)) as [->|Hne]; [|now apply IH].
      exfalso. apply Hk'. apply list_elem_of_fmap. now exists (c, v).
Qed.

Lemma omap_fst_NoDup {V B} (f : string * V -> option B) (g : B -> option string)
    (d : list (string * V)) :
  (forall c v b, f (c, v) = Some b -> g b = Some c) ->
  NoDup d.*1 -> NoDup (omap g (omap f d)).
Proof.
  intros Hfg. induction d as [|[c v] d IH]; simpl; intros Hd.
  - constructor.
  - apply NoDup_cons in Hd as [Hc Hd].
    destruct (f (c, v)) as [b|] eqn:Hf; simpl; [|now apply IH].
    rewrite (Hfg _ _ _ Hf). apply NoDup_cons. split; [|now apply IH].
    intros Hin. apply Hc.
    apply list_elem_of_omap in Hin as (b' & Hb' & Hg).
    apply list_elem_of_omap in Hb' as ([c' v'] & Hcv & Hf').
    rewrite (Hfg _ _ _ Hf') in Hg. inversion Hg; subst.
    apply list_elem_of_fmap. now exists (c, v').
Qed.

(** X15.  The patterns [detect_failure_patterns] returns are backed by
    the window of recent events: a recurring-failure pattern is of the
    event's type, counts the recent events of that type (at least two and
    at least [min_pattern_frequency]) and has an average interval below
    3600 seconds; a component hotspot carries the number of times the
    recent events list the component, which reaches
    [min_pattern_frequency], and exactly the failure types of the events
    listing it; no component is reported twice.  The call never raises. *)
Theorem detected_patterns_meet_thresholds (failure_event : FailureEvent)
    (s : Orchestrator) :
  let recent := recent_failures s in
  let same_type :=
    filter (fun f => failure_type f = failure_type failure_event) recent in
  exists ps,
    snd (detect_failure_patterns failure_event s) = Ok ps
    /\ NoDup (hotspot_components ps)
    /\ forall p, p ∈ ps ->
         match p with
         | recurring_failure t avg n =>
             t = failure_type failure_event
             /\ n = length same_type
             /\ (2 <= n)%nat
             /\ (min_pattern_frequency (config s) <= n)%nat
             /\ avg = Py.mean (intervals (map timestamp same_type))
             /\ (avg < 3600)%Q
         | component_hotspot c n types =>
             n = mentions c recent
             /\ (min_pattern_frequency (config s) <= n)%nat
             /\ NoDup types
             /\ forall t, t ∈ types <->
                  exists f, f ∈ recent /\ c ∈ affected_components f
                            /\ failure_type f = t
         end.
Proof.
  intros recent same_type.
  unfold detect_failure_patterns. cbn [snd]. eexists. split; [reflexivity|].
  cbn [config set_failure_patterns failure_history].
  fold (recent_failures s). fold recent. fold same_type.
  destruct (tally_fold (concat (map affected_components recent)) [])
    as [Hnodup Hcount]; [constructor|].
  set (tally := fold_left tally_incr (concat (map affected_components recent)) [])
    in *.
  split.
  - unfold hotspot_components. rewrite omap_app.
    match goal with
    | |- NoDup (omap ?g ?tp ++ _) =>
        assert (Htp : omap g tp = [])
    end.
    { destruct (_ <=? _)%nat; [|reflexivity].
      destruct (intervals _); [reflexivity|].
      destruct (Qltb _ _); reflexivity. }
    rewrite Htp. clear Htp. simpl.
    apply omap_fst_NoDup; [|exact Hnodup].
    intros c v b Hf.
    destruct (min_pattern_frequency (config s) <=? v)%nat; inversion Hf.
    reflexivity.
  - intros p Hp. apply elem_of_app in Hp as [Hp|Hp].
    + destruct (min_pattern_frequency (config s) <=? length (map timestamp same_type))%nat
        eqn:Hmin; [|now apply elem_of_nil in Hp].
      apply Nat.leb_le in Hmin. rewrite length_map in Hmin.
      destruct (intervals (map timestamp same_type)) as [|i0 irest] eqn:Hint;
        [now apply elem_of_nil in Hp|].
      destruct (Qltb _ _) eqn:Hlt; [|now apply elem_of_nil in Hp].
      apply list_elem_of_singleton in Hp. subst p.
      rewrite length_map. repeat split; try assumption.
      * destruct same_type as [|f0 [|f1 rest]]; simpl in Hint; try discriminate.
        simpl. lia.
      * apply Qltb_lt in Hlt. exact Hlt.
    + apply list_elem_of_omap in Hp as ([c n] & Hin & Hf).
      destruct (min_pattern_frequency (config s) <=? n)%nat eqn:Hmin;
        inversion Hf; subst p. clear Hf.
      apply Nat.leb_le in Hmin.
      pose proof (dict_get_elem _ _ _ Hnodup Hin) as Hget.
      specialize (Hcount c). rewrite Hget in Hcount. simpl in Hcount.
      repeat split.
      * unfold mentions. lia.
      * exact Hmin.
      * apply NoDup_remove_dups.
      * intros Ht. apply elem_of_remove_dups, list_elem_of_fmap in Ht
          as (f & -> & Hf). apply list_elem_of_filter in Hf as [Hc Hf].
        now exists f.
      * intros (f & Hf & Hc & <-).
        apply elem_of_remove_dups, list_elem_of_fmap. exists f.
        split; [reflexivity|]. now apply list_elem_of_filter.
Qed.

(** ** Strategy updates *)

Lemma same_but_strategies_refl s : same_but_strategies s s.
Proof. unfold same_but_strategies. repeat split; reflexivity. Qed.

Lemma same_but_strategies_trans s1 s2 s3 :
  same_but_strategies s1 s2 -> same_but_strategies s2 s3 ->
  same_but_strategies s1 s3.
Proof.
  unfold same_but_strategies.
  intros (A1 & A2 & A3 & A4 & A5 & A6 & A7 & A8 & A9 & A10 & A11 & A12 & A13
          & A14 & A15 & A16 & A17 & A18)
         (B1 & B2 & B3 & B4 & B5 & B6 & B7 & B8 & B9 & B10 & B11 & B12 & B13
          & B14 & B15 & B16 & B17 & B18).
  repeat split; try congruence; intros key; now rewrite B8.
Qed.

Lemma same_but_rates_strategies s s' :
  same_but_rates s s' -> same_but_strategies s s'.
Proof.
  unfold same_but_rates, same_but_strategies.
  intros (A1 & A2 & A3 & A4 & A5 & A6 & A7 & A8 & A9).
  rewrite A1. repeat split; assumption.
Qed.

Lemma eligible_same s s' t :
  (forall key, counters_of s' key = counters_of s key) ->
  eligible s' t = eligible s t.
Proof.
  intros H. unfold eligible.
  induction HealingAction_list as [|a l IH]; [reflexivity|].
  rewrite !filter_cons, IH, H. reflexivity.
Qed.

Lemma score_of_same s s' t a :
  (forall key, counters_of s' key = counters_of s key) ->
  response_times s' = response_times s ->
  score_of s' t a = score_of s t a.
Proof. intros H Hr. unfold score_of. now rewrite H, Hr. Qed.

Lemma learned_shortlist_same s s' t :
  (forall key, counters_of s' key = counters_of s key) ->
  response_times s' = response_times s ->
  learned_shortlist s' t = learned_shortlist s t.
Proof.
  intros H Hr. unfold learned_shortlist.
  rewrite (eligible_same s s' t H).
  do 3 f_equal. apply map_ext. intros a. now rewrite (score_of_same s s').
Qed.

Lemma rates_lookup_keys key s :
  keys_grow s (fst (rates_lookup key s))
  /\ is_Some (healing_success_rates (fst (rates_lookup key s)) !! key)
  /\ (is_Some (healing_success_rates s !! key) ->
      fst (rates_lookup key s) = s).
Proof.
  unfold rates_lookup, keys_grow.
  destruct (healing_success_rates s !! key) as [c|] eqn:E; simpl.
  - rewrite E. eauto.
  - rewrite lookup_insert_eq. repeat split; eauto.
    + intros key' H. destruct (decide (key = key')) as [<-|Hne].
      * rewrite lookup_insert_eq. eauto.
      * now rewrite lookup_insert_ne.
    + intros [c H]. discriminate.
Qed.

Lemma best_actions_loop_spec t actions : forall acc s,
  exists s1,
    best_actions_loop t actions acc s
    = (s1, Ok (acc ++ map (fun a => (a, score_of s t a))
                        (filter (fun a => (5 <= attempts
                                   (counters_of s (strategy_key t a)))%nat)
                                actions)))
    /\ same_but_rates s s1
    /\ keys_grow s s1
    /\ (forall a, a ∈ actions ->
          is_Some (healing_success_rates s1 !! strategy_key t a))
    /\ ((forall a, a ∈ actions ->
           is_Some (healing_success_rates s !! strategy_key t a)) -> s1 = s).
Proof.
  induction actions as [|a rest IH]; intros acc s.
  - exists s. simpl. rewrite app_nil_r.
    repeat split; auto using same_but_rates_refl.
    + intros key H. exact H.
    + intros a Ha. now apply elem_of_nil in Ha.
  - destruct (rates_lookup_spec (strategy_key t a) s) as (s0 & Hl & Hs0).
    destruct (rates_lookup_keys (strategy_key t a) s) as (Hg0 & Hk0 & Hid0).
    rewrite Hl in Hg0, Hk0, Hid0. cbn [fst] in Hg0, Hk0, Hid0.
    cbn [best_actions_loop]. erewrite mbind_ok by exact Hl. cbn beta.
    pose proof Hs0 as (_ & _ & _ & _ & _ & Hrt & _ & _ & Hc).
    rewrite filter_cons.
    set (P := fun a0 => (5 <= attempts (counters_of s (strategy_key t a0)))%nat).
    assert (Hfil : filter (fun a0 => (5 <= attempts
                      (counters_of s0 (strategy_key t a0)))%nat) rest
                   = filter P rest).
    { clear -Hc. induction rest as [|b l IHl]; [reflexivity|].
      rewrite !filter_cons, IHl. unfold P. rewrite Hc. reflexivity. }
    assert (Hmap : forall l, map (fun a0 => (a0, score_of s0 t a0)) l
                             = map (fun a0 => (a0, score_of s t a0)) l).
    { intros l. apply map_ext. intros b. f_equal. now apply score_of_same. }
    destruct (5 <=? attempts (counters_of s (strategy_key t a)))%nat eqn:E5.
    + apply Nat.leb_le in E5.
      erewrite mbind_ok by reflexivity. cbn beta.
      destruct (IH (acc ++ [(a, strategy_score (counters_of s (strategy_key t a))
                                   (response_times s0 a))]) s0)
        as (s1 & Hrun & Hs1 & Hg1 & Hk1 & Hid1).
      exists s1. rewrite Hrun, Hfil, Hmap.
      rewrite decide_True by exact E5.
      split.
      { f_equal. f_equal. rewrite <- app_assoc. simpl. unfold score_of.
        now rewrite Hrt. }
      split; [eapply same_but_rates_trans; eassumption|].
      split; [intros key H; auto|].
      split.
      { intros b Hb. apply elem_of_cons in Hb as [->|Hb]; auto. }
      { intros Hall. rewrite Hid1.
        - apply Hid0. apply Hall. apply elem_of_cons. auto.
        - intros b Hb. apply Hg0. apply Hall. apply elem_of_cons. auto. }
    + apply Nat.leb_gt in E5.
      destruct (IH acc s0) as (s1 & Hrun & Hs1 & Hg1 & Hk1 & Hid1).
      exists s1. rewrite Hrun, Hfil, Hmap.
      rewrite decide_False by lia.
      split; [reflexivity|].
      split; [eapply same_but_rates_trans; eassumption|].
      split; [intros key H; auto|].
      split.
      { intros b Hb. apply elem_of_cons in Hb as [->|Hb]; auto. }
      { intros Hall. rewrite Hid1.
        - apply Hid0. apply Hall. apply elem_of_cons. auto.
        - intros b Hb. apply Hg0. apply Hall. apply elem_of_cons. auto. }
Qed.

Lemma set_healing_strategy_same t v s :
  same_but_strategies s (set_healing_strategy t v s).
Proof. unfold same_but_strategies. simpl. repeat split; reflexivity. Qed.

Lemma map_scores_nil {A B} (f : A -> B) (l : list A) :
  map f l = [] -> l = [].
Proof. destruct l; [reflexivity | discriminate]. Qed.

(** One iteration of the outer loop. *)
Lemma update_strategy_spec t s :
  exists s',
    update_strategy t s = (s', Ok tt)
    /\ same_but_strategies s s'
    /\ keys_grow s s'
    /\ (forall a, is_Some (healing_success_rates s' !! strategy_key t a))
    /\ (forall t', t' <> t ->
          healing_strategies (config s') t' = healing_strategies (config s) t')
    /\ healing_strategies (config s') t
       = match eligible s t with
         | [] => healing_strategies (config s) t
         | _ :: _ => Some (learned_shortlist s t)
         end
    /\ ((forall a, is_Some (healing_success_rates s !! strategy_key t a)) ->
        match eligible s t with
        | [] => True
        | _ :: _ => healing_strategies (config s) t = Some (learned_shortlist s t)
        end ->
        s' = s).
Proof.
  destruct (best_actions_loop_spec t HealingAction_list [] s)
    as (s1 & Hrun & Hs1 & Hg1 & Hk1 & Hid1).
  unfold update_strategy. erewrite mbind_ok by exact Hrun. cbn beta.
  cbn [app] in *. fold (eligible s t) in *.
  assert (Hall : forall a, a ∈ HealingAction_list).
  { intros a. apply list_elem_of_In. destruct a; simpl; tauto. }
  pose proof Hs1 as (Hcfg & _).
  destruct (eligible s t) as [|a0 el] eqn:Hel.
  - exists s1. simpl. split; [reflexivity|].
    split; [now apply same_but_rates_strategies|].
    split; [exact Hg1|]. split; [intros a; apply Hk1, Hall|].
    rewrite Hcfg. repeat split; auto.
  - cbn [map]. erewrite mbind_ok by reflexivity. cbn beta.
    change ((a0, score_of s t a0) :: map (fun a => (a, score_of s t a)) el)
      with (map (fun a => (a, score_of s t a)) (a0 :: el)).
    rewrite <- Hel. fold (learned_shortlist s t). rewrite Hcfg.
    destruct (decide (learned_shortlist s t
                      = default [] (healing_strategies (config s) t)))
      as [Heq|Hne].
    + exists s1. split; [reflexivity|].
      split; [now apply same_but_rates_strategies|].
      split; [exact Hg1|]. split; [intros a; apply Hk1, Hall|].
      rewrite Hcfg. repeat split; auto.
      * destruct (healing_strategies (config s) t) as [l|] eqn:Hl;
          simpl in Heq; [now rewrite Heq|].
        exfalso. unfold learned_shortlist in Heq. rewrite Hel in Heq.
        apply map_scores_nil in Heq.
        apply (f_equal (@length _)) in Heq. rewrite length_take in Heq.
        pose proof (Permutation_length
          (sort_desc_perm snd (map (fun a => (a, score_of s t a)) (a0 :: el))))
          as Hlen.
        rewrite Hlen in Heq. simpl in Heq. lia.
    + exists (set_healing_strategy t (learned_shortlist s t) s1).
      split; [reflexivity|].
      split.
      { apply (same_but_strategies_trans s s1);
          [apply same_but_rates_strategies, Hs1
          | apply set_healing_strategy_same]. }
      split; [exact Hg1|]. split; [intros a; apply Hk1, Hall|].
      split.
      { intros t' Ht'. simpl. rewrite decide_False by exact Ht'.
        now rewrite Hcfg. }
      split.
      { simpl. now rewrite decide_True. }
      { intros _ Hsame. exfalso. apply Hne. now rewrite Hsame. }
Qed.

Lemma for_each_type_spec types : NoDup types -> forall s,
  exists s',
    for_each_type types s = (s', Ok tt)
    /\ same_but_strategies s s'
    /\ keys_grow s s'
    /\ (forall t a, t ∈ types ->
          is_Some (healing_success_rates s' !! strategy_key t a))
    /\ (forall t,
          healing_strategies (config s') t
          = if decide (t ∈ types) then
              match eligible s t with
              | [] => healing_strategies (config s) t
              | _ :: _ => Some (learned_shortlist s t)
              end
            else healing_strategies (config s) t)
    /\ (keys_present s ->
        (forall t, match eligible s t with
                   | [] => True
                   | _ :: _ => healing_strategies (config s) t
                               = Some (learned_shortlist s t)
                   end) ->
        s' = s).
Proof.
  induction 1 as [|t types Hnotin Hnd IH]; intros s.
  - exists s. split; [reflexivity|].
    split; [apply same_but_strategies_refl|].
    split; [intros k H; exact H|].
    split; [intros t a Ht; now apply elem_of_nil in Ht|].
    split; [|auto].
    intros t. destruct (decide (t ∈ [])) as [H|H]; [|reflexivity].
    now apply elem_of_nil in H.
  - destruct (update_strategy_spec t s)
      as (s1 & Hrun & Hs1 & Hg1 & Hk1 & Hother & Hthis & Hid1).
    destruct (IH s1) as (s2 & Hrun2 & Hs2 & Hg2 & Hk2 & Hcfg2 & Hid2).
    exists s2. cbn [for_each_type]. erewrite mbind_ok by exact Hrun.
    split; [exact Hrun2|].
    split; [eapply same_but_strategies_trans; eassumption|].
    split; [intros k H; auto|].
    pose proof Hs1 as (_ & _ & _ & _ & Hrt & _ & _ & Hc & _).
    split.
    { intros t' a Ht'. apply elem_of_cons in Ht' as [->|Ht']; auto. }
    split.
    { intros t'. rewrite Hcfg2.
      rewrite (eligible_same s s1 t' Hc), (learned_shortlist_same s s1 t' Hc Hrt).
      destruct (decide (t' = t)) as [->|Hne].
      - rewrite decide_False by exact Hnotin.
        rewrite decide_True by (apply elem_of_cons; auto). exact Hthis.
      - rewrite (Hother t' Hne).
        destruct (decide (t' ∈ types)) as [Hin|Hout].
        + rewrite decide_True by (apply elem_of_cons; auto). reflexivity.
        + rewrite decide_False; [reflexivity|].
          intros Hin. apply elem_of_cons in Hin as [?|?]; auto. }
    { intros Hpres Hstable.
      assert (s1 = s) as ->.
      { apply Hid1; [intros a; apply Hpres | apply Hstable]. }
      apply Hid2; assumption. }
Qed.

Lemma NoDup_FailureType_list : NoDup FailureType_list.
Proof. apply NoDup_ListNoDup. repeat constructor; simpl; intuition discriminate. Qed.

Lemma NoDup_HealingAction_list : NoDup HealingAction_list.
Proof. apply NoDup_ListNoDup. repeat constructor; simpl; intuition discriminate. Qed.

Lemma all_FailureType t : t ∈ FailureType_list.
Proof. apply list_elem_of_In. destruct t; simpl; tauto. Qed.

Lemma update_strategies_spec s :
  exists s',
    _update_strategies s = (s', Ok tt)
    /\ same_but_strategies s s'
    /\ keys_present s'
    /\ (forall t,
          healing_strategies (config s') t
          = match eligible s t with
            | [] => healing_strategies (config s) t
            | _ :: _ => Some (learned_shortlist s t)
            end).
Proof.
  destruct (for_each_type_spec FailureType_list NoDup_FailureType_list s)
    as (s' & Hrun & Hs & Hg & Hk & Hcfg & _).
  exists s'. split; [exact Hrun|]. split; [exact Hs|].
  split; [intros t a; apply Hk, all_FailureType|].
  intros t. rewrite Hcfg. rewrite decide_True by apply all_FailureType.
  reflexivity.
Qed.

(** *** The ranked shortlist *)

Lemma StronglySorted_app_elem {A} (R : A -> A -> Prop) l1 l2 x y :
  StronglySorted R (l1 ++ l2) -> x ∈ l1 -> y ∈ l2 -> R x y.
Proof.
  induction l1 as [|z l1 IH]; simpl; intros Hs Hx Hy.
  - now apply elem_of_nil in Hx.
  - apply StronglySorted_inv in Hs as [Hs Hall].
    apply elem_of_cons in Hx as [->|Hx]; [|now apply IH].
    rewrite Forall_forall in Hall. apply Hall.
    apply elem_of_app. auto.
Qed.

Lemma StronglySorted_map_fst {A} (sc : A -> Q) (l : list (A * Q)) :
  (forall p, p ∈ l -> snd p = sc (fst p)) ->
  StronglySorted (desc_by snd) l ->
  StronglySorted (fun a b => (sc b <= sc a)%Q) (map fst l).
Proof.
  intros Hsc Hs. induction Hs as [|p l Hs IH Hall]; simpl; constructor.
  - apply IH. intros q Hq. apply Hsc. apply elem_of_cons. auto.
  - apply Forall_forall. intros b Hb.
    apply list_elem_of_fmap in Hb as (q & -> & Hq).
    rewrite Forall_forall in Hall. specialize (Hall q Hq). unfold desc_by in Hall.
    rewrite <- (Hsc q), <- (Hsc p); [exact Hall | | ]; apply elem_of_cons; auto.
Qed.

Section Ranking.
Context {A : Type} `{EqDecision A} (sc : A -> Q) (el : list A).

Let ranked : list (A * Q) := Py.sort_desc snd (map (fun a => (a, sc a)) el).

Lemma ranked_perm : map fst ranked ≡ₚ el.
Proof.
  unfold ranked.
  change (map fst ?l) with (fst <$> l).
  rewrite (sort_desc_perm snd).
  change ((fun a => (a, sc a)) <$> el) with (map (fun a => (a, sc a)) el).
  change (fst <$> ?l) with (map fst l).
  rewrite map_map. simpl. now rewrite map_id.
Qed.

Lemma ranked_scores p : p ∈ ranked -> snd p = sc (fst p).
Proof.
  unfold ranked. intros Hp.
  apply (proj1 (elem_of_Permutation_proper p _ _ (sort_desc_perm snd _))) in Hp.
  apply list_elem_of_fmap in Hp as (a & -> & _). reflexivity.
Qed.

Lemma top_ranked n :
  NoDup el ->
  let l := map fst (take n ranked) in
  length l = Nat.min n (length el)
  /\ NoDup l
  /\ (forall a, a ∈ l -> a ∈ el)
  /\ StronglySorted (fun a b => (sc b <= sc a)%Q) l
  /\ (forall a b, a ∈ l -> b ∈ el -> b ∉ l -> (sc b <= sc a)%Q).
Proof.
  intros Hnd l.
  assert (Hl : l = take n (map fst ranked)).
  { unfold l. apply (fmap_take fst). }
  assert (Hnd' : NoDup (map fst ranked)).
  { apply (proj2 (NoDup_Permutation_proper _ _ ranked_perm)). exact Hnd. }
  split.
  { unfold l. rewrite length_map, length_take.
    rewrite <- (Permutation_length ranked_perm), length_map. reflexivity. }
  split.
  { rewrite Hl. exact (sublist_NoDup _ _ Hnd' (sublist_take _ n)). }
  split.
  { intros a Ha. rewrite Hl in Ha. apply subseteq_take in Ha.
    now apply (proj1 (elem_of_Permutation_proper a _ _ ranked_perm)) in Ha. }
  split.
  { unfold l. apply StronglySorted_map_fst.
    - intros p Hp. apply ranked_scores. now apply subseteq_take in Hp.
    - apply take_sorted. apply sort_desc_sorted. }
  { intros a b Ha Hb Hnb.
    apply list_elem_of_fmap in Ha as (p & -> & Hp).
    assert (Hb' : b ∈ map fst ranked).
    { apply (proj2 (elem_of_Permutation_proper b _ _ ranked_perm)). exact Hb. }
    apply list_elem_of_fmap in Hb' as (q & -> & Hq).
    rewrite <- (take_drop n ranked) in Hq.
    apply elem_of_app in Hq as [Hq|Hq].
    - exfalso. apply Hnb. apply list_elem_of_fmap. now exists q.
    - pose proof (sort_desc_sorted snd (map (fun a => (a, sc a)) el)) as Hs.
      fold ranked in Hs. rewrite <- (take_drop n ranked) in Hs.
      pose proof (StronglySorted_app_elem _ _ _ p q Hs Hp Hq) as Hpq.
      unfold desc_by in Hpq.
      rewrite <- (ranked_scores p), <- (ranked_scores q); [exact Hpq| |].
      + apply (subseteq_drop n). exact Hq.
      + now apply subseteq_take in Hp. }
Qed.

End Ranking.

(** X16.  [_update_strategies] never raises and touches only the
    shortlists (and default entries of the counters).  For a failure type
    no action of which has five attempts, the shortlist is left as it was.
    Otherwise the new shortlist holds [min 3 n] distinct actions, [n]
    being the number of actions with at least five attempts against the
    type; each of them has at least five attempts, they are in
    non-increasing order of score, and no action with five attempts that
    was left out scores higher than a listed one. *)
Theorem update_strategies_shortlists (s : Orchestrator) :
  exists s',
    _update_strategies s = (s', Ok tt)
    /\ same_but_strategies s s'
    /\ forall t,
         match eligible s t with
         | [] =>
             healing_strategies (config s') t = healing_strategies (config s) t
         | _ :: _ =>
             exists l,
               healing_strategies (config s') t = Some l
               /\ l <> []
               /\ length l = Nat.min 3 (length (eligible s t))
               /\ NoDup l
               /\ (forall a, a ∈ l ->
                     (5 <= attempts (counters_of s (strategy_key t a)))%nat)
               /\ StronglySorted
                    (fun a b => (score_of s t b <= score_of s t a)%Q) l
               /\ (forall a b, a ∈ l -> b ∉ l ->
                     (5 <= attempts (counters_of s (strategy_key t b)))%nat ->
                     (score_of s t b <= score_of s t a)%Q)
         end.
Proof.
  destruct (update_strategies_spec s) as (s' & Hrun & Hs & _ & Hcfg).
  exists s'. split; [exact Hrun|]. split; [exact Hs|].
  intros t. specialize (Hcfg t).
  destruct (eligible s t) as [|a0 el] eqn:Hel; [exact Hcfg|].
  exists (learned_shortlist s t). split; [exact Hcfg|].
  assert (Hnd : NoDup (eligible s t)).
  { unfold eligible. apply NoDup_filter, NoDup_HealingAction_list. }
  destruct (top_ranked (score_of s t) (eligible s t) 3 Hnd)
    as (Hlen & Hnodup & Hsub & Hsorted & Hbest).
  fold (learned_shortlist s t) in Hlen, Hnodup, Hsub, Hsorted, Hbest.
  rewrite <- Hel.
  assert (Hin : forall a, a ∈ eligible s t <->
                  (5 <= attempts (counters_of s (strategy_key t a)))%nat).
  { intros a. unfold eligible. rewrite list_elem_of_filter.
    split; [tauto|]. intros H. split; [exact H|].
    apply list_elem_of_In. destruct a; simpl; tauto. }
  split.
  { intros Hnil. rewrite Hnil, Hel in Hlen. simpl in Hlen. lia. }
  split; [exact Hlen|]. split; [exact Hnodup|].
  split; [intros a Ha; apply Hin, Hsub, Ha|].
  split; [exact Hsorted|].
  intros a b Ha Hb H5. apply Hbest; [exact Ha | now apply Hin | exact Hb].
Qed.

(** X17.  Running [_update_strategies] a second time changes nothing: the
    state after the first run is a fixed point of the update. *)
Theorem update_strategies_idempotent (s : Orchestrator) :
  let s' := fst (_update_strategies s) in
  _update_strategies s' = (s', Ok tt).
Proof.
  destruct (update_strategies_spec s) as (s' & Hrun & Hs & Hpres & Hcfg).
  rewrite Hrun. cbn [fst]. cbv zeta.
  destruct (for_each_type_spec FailureType_list NoDup_FailureType_list s')
    as (s2 & Hrun2 & _ & _ & _ & _ & Hid).
  unfold _update_strategies. rewrite Hrun2. f_equal.
  apply Hid; [exact Hpres|].
  pose proof Hs as (_ & _ & _ & _ & Hrt & _ & _ & Hc & _).
  intros t.
  rewrite (eligible_same s s' t Hc), (learned_shortlist_same s s' t Hc Hrt).
  rewrite Hcfg. destruct (eligible s t); [exact I | reflexivity].
Qed.

Lemma learned_shortlist_nonempty s t :
  eligible s t <> [] -> learned_shortlist s t <> [].
Proof.
  intros Hne Hnil.
  assert (Hnd : NoDup (eligible s t)).
  { unfold eligible. apply NoDup_filter, NoDup_HealingAction_list. }
  destruct (top_ranked (score_of s t) (eligible s t) 3 Hnd) as (Hlen & _).
  fold (learned_shortlist s t) in Hlen. rewrite Hnil in Hlen.
  destruct (eligible s t); [congruence | simpl in Hlen; lia].
Qed.

Lemma update_strategies_wf s :
  wf_orchestrator s -> wf_orchestrator (fst (_update_strategies s)).
Proof.
  intros (Hag & Hns & Hna & Hne & Hadj).
  destruct (update_strategies_spec s) as (s' & Hrun & Hs & _ & Hcfg).
  rewrite Hrun. cbn [fst].
  destruct Hs as (_ & _ & Hagent & _ & _ & _ & _ & _ & Hap & _).
  unfold wf_orchestrator. rewrite Hagent, Hap.
  repeat split; try assumption; try apply Hag.
  intros t l Hl. rewrite Hcfg in Hl.
  destruct (eligible s t) as [|a0 el] eqn:Hel; [now apply (Hne t)|].
  inversion Hl; subst l. apply learned_shortlist_nonempty.
  rewrite Hel. discriminate.
Qed.

(** X18.  A strategy update keeps the orchestrator well formed: the
    agent's tables and the action parameters are untouched and every
    shortlist, learned or kept, is non-empty.  Hence a response can still
    be generated for any event afterwards. *)
Theorem update_strategies_keep_wf (s : Orchestrator) (o : Oracle)
    (failure_event : FailureEvent) :
  wf_orchestrator s ->
  (rand_action o < length HealingAction_list)%nat ->
  (- (1 # 5) < severity failure_event)%Q ->
  let s' := fst (_update_strategies s) in
  wf_orchestrator s'
  /\ exists s2 response,
       generate_healing_response o failure_event s' = (s2, Ok response).
Proof.
  intros Hwf Hr Hsev s'.
  pose proof (update_strategies_wf s Hwf) as Hwf'. fold s' in Hwf'.
  split; [exact Hwf'|].
  now apply generate_healing_response_total.
Qed.

Lemma update_strategies_keep_wf_witness :
  wf_orchestrator (fst (_update_strategies (with_attempts 6)))
  /\ exists s2 response,
       generate_healing_response (explore 2) (mk_event CPU_OVERLOAD (9 # 10))
         (fst (_update_strategies (with_attempts 6))) = (s2, Ok response).
Proof.
  apply (update_strategies_keep_wf (with_attempts 6) (explore 2)
           (mk_event CPU_OVERLOAD (9 # 10))).
  - exact wf_fresh_orchestrator.
  - simpl. lia.
  - reflexivity.
Defined.

(** ** Retraining *)

Section Groups.
Context {K V : Type} `{EqDecision K}.

Lemma group_get_append (d : list (K * list V)) k x k' :
  group_get (group_append d k x) k'
  = if decide (k' = k) then Some (default [] (group_get d k) ++ [x])
    else group_get d k'.
Proof.
  induction d as [|[k0 vs] d IH]; simpl.
  - destruct (decide (k = k')), (decide (k' = k)); congruence.
  - destruct (decide (k0 = k)) as [->|Hne]; simpl.
    + destruct (decide (k = k')), (decide (k' = k)); simpl; congruence.
    + destruct (decide (k0 = k')) as [->|Hne'].
      * destruct (decide (k' = k)); congruence.
      * exact IH.
Qed.

Lemma group_append_keys (d : list (K * list V)) k x k' :
  k' ∈ (group_append d k x).*1 <-> k' = k \/ k' ∈ d.*1.
Proof.
  induction d as [|[k0 vs] d IH]; simpl.
  - rewrite list_elem_of_singleton.
    split; [auto | intros [?|H']; [auto | now apply elem_of_nil in H']].
  - destruct (decide (k0 = k)) as [->|Hk]; simpl;
      rewrite !elem_of_cons; [|rewrite IH]; intuition congruence.
Qed.

Lemma group_append_NoDup (d : list (K * list V)) k x :
  NoDup d.*1 -> NoDup (group_append d k x).*1.
Proof.
  induction d as [|[k0 vs] d IH]; simpl; intros Hd.
  - apply NoDup_singleton.
  - apply NoDup_cons in Hd as [Hk0 Hd].
    destruct (decide (k0 = k)) as [->|Hk]; simpl.
    + now apply NoDup_cons.
    + apply NoDup_cons. split; [|now apply IH].
      rewrite group_append_keys. intuition congruence.
Qed.

Lemma group_append_nonempty (d : list (K * list V)) k x :
  Forall (fun e => snd e <> []) d ->
  Forall (fun e => snd e <> []) (group_append d k x).
Proof.
  induction d as [|[k0 vs] d IH]; simpl; intros Hd.
  - repeat constructor. discriminate.
  - apply Forall_cons in Hd as [H0 Hd].
    destruct (decide (k0 = k)); constructor; auto.
    simpl. intros Hnil. now apply app_eq_nil in Hnil as [_ ?].
Qed.

Lemma group_get_elem {W} (d : list (K * W)) k v :
  NoDup d.*1 -> (k, v) ∈ d -> group_get d k = Some v.
Proof.
  induction d as [|[k0 v0] d IH]; simpl; intros Hd Hin.
  - now apply elem_of_nil in Hin.
  - apply NoDup_cons in Hd as [Hk0 Hd].
    apply elem_of_cons in Hin as [Heq|Hin].
    + inversion Heq; subst. now rewrite decide_True.
    + destruct (decide (k0 = k)) as [->|Hne]; [|now apply IH].
      exfalso. apply Hk0. apply list_elem_of_fmap. now exists (k, v).
Qed.

Lemma group_get_Some {W} (d : list (K * W)) k v :
  group_get d k = Some v -> (k, v) ∈ d.
Proof.
  induction d as [|[k0 v0] d IH]; simpl; [discriminate|].
  destruct (decide (k0 = k)) as [->|Hne]; intros Hg.
  - inversion Hg. apply elem_of_cons. auto.
  - apply elem_of_cons. auto.
Qed.

End Groups.

Lemma split_outcomes_step window sp fp data :
  split_invariant window sp fp ->
  let key := (ld_failure_type data, ld_action_taken data) in
  split_invariant (window ++ [data])
    (if ld_success data then group_append sp key data else sp)
    (if ld_success data then fp else group_append fp key data).
Proof.
  intros (Hnd & Hne & Hs & Hf) key.
  unfold split_invariant.
  destruct (ld_success data) eqn:Hok.
  - split; [now apply group_append_NoDup|].
    split; [now apply group_append_nonempty|].
    split; intros k; rewrite filter_app, length_app, filter_cons, filter_nil.
    + rewrite group_get_append. fold key.
      destruct (decide (k = key)) as [->|Hk].
      * rewrite decide_True by (split; [reflexivity | exact Hok]).
        simpl. rewrite length_app, Hs. reflexivity.
      * rewrite decide_False by (intros [? _]; congruence).
        simpl. rewrite Hs. lia.
    + rewrite decide_False by (intros [_ ?]; congruence).
      simpl. rewrite Hf. lia.
  - split; [exact Hnd|]. split; [exact Hne|].
    split; intros k; rewrite filter_app, length_app, filter_cons, filter_nil.
    + rewrite decide_False by (intros [_ ?]; congruence).
      simpl. rewrite Hs. lia.
    + rewrite group_get_append. fold key.
      destruct (decide (k = key)) as [->|Hk].
      * rewrite decide_True by (split; [reflexivity | exact Hok]).
        simpl. rewrite length_app, Hf. reflexivity.
      * rewrite decide_False by (intros [? _]; congruence).
        simpl. rewrite Hf. lia.
Qed.

Lemma split_outcomes_fold rest : forall window sp fp,
  split_invariant window sp fp ->
  let '(sp', fp') :=
    fold_left
      (fun '(success_patterns, failure_patterns) data =>
         let key := (ld_failure_type data, ld_action_taken data) in
         if ld_success data
         then (group_append success_patterns key data, failure_patterns)
         else (success_patterns, group_append failure_patterns key data))
      rest (sp, fp) in
  split_invariant (window ++ rest) sp' fp'.
Proof.
  induction rest as [|data rest IH]; intros window sp fp Hinv.
  - simpl. now rewrite app_nil_r.
  - cbn [fold_left].
    pose proof (split_outcomes_step window sp fp data Hinv) as Hstep.
    cbv zeta in Hstep.
    replace (window ++ data :: rest) with ((window ++ [data]) ++ rest)
      by (rewrite <- app_assoc; reflexivity).
    destruct (ld_success data); apply IH; exact Hstep.
Qed.

Lemma split_outcomes_spec window :
  split_invariant window (fst (split_outcomes window))
                         (snd (split_outcomes window)).
Proof.
  unfold split_outcomes.
  pose proof (split_outcomes_fold window [] [] []) as H.
  destruct (fold_left _ window ([], [])) as [sp fp]. simpl.
  apply H. unfold split_invariant. simpl.
  repeat split; auto using NoDup_nil_2.
Qed.

(** The second loop appends one entry under each key it visits. *)
Section Tracking.
Context (entry : FailureType * HealingAction -> list LearningData
                 -> TrackingEntry).

Let step (tracking : gmap string (list TrackingEntry))
    (e : FailureType * HealingAction * list LearningData) :=
  let sk := strategy_key (fst (fst e)) (snd (fst e)) in
  let tracking1 :=
    match tracking !! sk with
    | Some _ => tracking
    | None => <[sk := []]> tracking
    end in
  <[sk := default [] (tracking1 !! sk) ++ [entry (fst e) (snd e)]]> tracking1.

Lemma step_lookup tracking e k :
  step tracking e !! k
  = if decide (k = strategy_key (fst (fst e)) (snd (fst e)))
    then Some (default [] (tracking !! k) ++ [entry (fst e) (snd e)])
    else tracking !! k.
Proof.
  unfold step. set (sk := strategy_key _ _).
  destruct (decide (k = sk)) as [->|Hne].
  - rewrite lookup_insert_eq.
    destruct (tracking !! sk) eqn:E; [now rewrite E|].
    now rewrite lookup_insert_eq.
  - rewrite lookup_insert_ne by congruence.
    destruct (tracking !! sk); [reflexivity|].
    now rewrite lookup_insert_ne by congruence.
Qed.

Lemma tracking_fold entries : forall tracking,
  NoDup entries.*1 ->
  (forall key vs, (key, vs) ∈ entries ->
     fold_left step entries tracking !! strategy_key (fst key) (snd key)
     = Some (default [] (tracking !! strategy_key (fst key) (snd key))
             ++ [entry key vs]))
  /\ (forall k, (forall key, key ∈ entries.*1 ->
                   k <> strategy_key (fst key) (snd key)) ->
                fold_left step entries tracking !! k = tracking !! k).
Proof.
  induction entries as [|[key0 vs0] entries IH]; intros tracking Hnd.
  - split; [intros key vs H'; now apply elem_of_nil in H' | reflexivity].
  - simpl in Hnd. apply NoDup_cons in Hnd as [Hnotin Hnd].
    destruct (IH (step tracking (key0, vs0)) Hnd) as [IH1 IH2].
    cbn [fold_left]. split.
    + intros key vs Hin. apply elem_of_cons in Hin as [Heq|Hin].
      * inversion Heq; subst key0 vs0. rewrite IH2.
        { rewrite step_lookup. simpl. now rewrite decide_True. }
        intros key' Hk' Hsame.
        apply strategy_key_inj in Hsame as [Ht Ha].
        apply Hnotin. destruct key as [t a], key' as [t' a']. simpl in *.
        now subst.
      * rewrite (IH1 key vs Hin). rewrite step_lookup. simpl.
        rewrite decide_False; [reflexivity|].
        intros Hsame. apply strategy_key_inj in Hsame as [Ht Ha].
        apply Hnotin. apply list_elem_of_fmap. exists (key, vs).
        split; [|exact Hin]. destruct key as [t a], key0 as [t' a'].
        simpl in *. now subst.
    + intros k Hk. rewrite IH2.
      * rewrite step_lookup. simpl. rewrite decide_False; [reflexivity|].
        apply (Hk key0). simpl. apply elem_of_cons. auto.
      * intros key Hkey. apply Hk. simpl. apply elem_of_cons. auto.
Qed.

End Tracking.

(** X19.  [_retrain_models] does nothing with fewer than 10 experiences.
    Otherwise a pair of failure type and action with at least one success
    among the last 100 experiences gets exactly one new history entry,
    holding its number of attempts in that window and the success rate
    successes/attempts, which lies in (0,1]; the histories of pairs
    without a success in the window, and every other key, are left as
    they were: a pair that only failed is never tracked. *)
Theorem retrain_models_tracking (clock : FailureType * HealingAction -> Q)
    (s : Orchestrator) (tracking : gmap string (list TrackingEntry)) :
  let after := _retrain_models clock s tracking in
  (forall t a,
     let wins := outcomes s t a true in
     let total := (wins + outcomes s t a false)%nat in
     let key := strategy_key t a in
     if (length (failure_learning_data s) <? 10)%nat || (wins =? 0)%nat
     then after !! key = tracking !! key
     else
       after !! key
       = Some (default [] (tracking !! key)
               ++ [{| te_timestamp := clock (t, a);
                      te_success_rate :=
                        rate {| successes := wins; attempts := total |};
                      te_attempts := total |}])
       /\ (0 < rate {| successes := wins; attempts := total |})%Q
       /\ (rate {| successes := wins; attempts := total |} <= 1)%Q)
  /\ (forall k, (forall t a, k <> strategy_key t a) ->
                after !! k = tracking !! k).
Proof.
  intros after. unfold after, _retrain_models.
  destruct (length (failure_learning_data s) <? 10)%nat eqn:Hlen.
  { split; [intros t a; reflexivity | reflexivity]. }
  pose proof (split_outcomes_spec (Py.last_n 100 (failure_learning_data s)))
    as (Hnd & Hne & Hs & Hf).
  destruct (split_outcomes (Py.last_n 100 (failure_learning_data s)))
    as [sp fp]. cbn [fst snd] in Hnd, Hne, Hs, Hf.
  set (entry := fun (key : FailureType * HealingAction)
                    (successes : list LearningData) =>
         {| te_timestamp := clock key;
            te_success_rate :=
              if (0 <? length successes
                       + length (default [] (group_get fp key)))%nat
              then (inject_Z (Z.of_nat (length successes))
                    / inject_Z (Z.of_nat
                        (length successes
                         + length (default [] (group_get fp key)))))%Q
              else 0%Q;
            te_attempts :=
              (length successes
               + length (default [] (group_get fp key)))%nat |}).
  match goal with
  | |- context [fold_left ?f sp tracking] =>
      assert (Hfold : forall tr,
                fold_left f sp tr
                = fold_left
                    (fun tracking0 e =>
                       let sk := strategy_key (fst (fst e)) (snd (fst e)) in
                       let tracking1 :=
                         match tracking0 !! sk with
                         | Some _ => tracking0
                         | None => <[sk := []]> tracking0
                         end in
                       <[sk := default [] (tracking1 !! sk)
                               ++ [entry (fst e) (snd e)]]> tracking1)
                    sp tr)
  end.
  { clear. induction sp as [|[[t a] vs] sp IH]; intros tr; [reflexivity|].
    cbn [fold_left]. rewrite IH. reflexivity. }
  rewrite Hfold. clear Hfold.
  destruct (tracking_fold entry sp tracking Hnd) as [H1 H2].
  split.
  - intros t a. cbn [orb].
    set (wins := outcomes s t a true).
    set (total := (wins + outcomes s t a false)%nat).
    set (key := strategy_key t a).
    specialize (Hs (t, a)). specialize (Hf (t, a)).
    fold (outcomes s t a true) in Hs. fold (outcomes s t a false) in Hf.
    fold wins in Hs.
    destruct (wins =? 0)%nat eqn:Hz.
    + apply Nat.eqb_eq in Hz. apply H2.
      intros key' Hkey' Hsame. apply strategy_key_inj in Hsame as [Ht Ha].
      apply list_elem_of_fmap in Hkey' as ([key'' vs] & Hk & Hin).
      simpl in Hk. subst key''.
      assert (key' = (t, a)) as -> by (destruct key'; simpl in *; congruence).
      rewrite (group_get_elem _ _ _ Hnd Hin) in Hs. simpl in Hs.
      rewrite Forall_forall in Hne. specialize (Hne _ Hin). simpl in Hne.
      destruct vs; [congruence | simpl in Hs; lia].
    + apply Nat.eqb_neq in Hz.
      destruct (group_get sp (t, a)) as [vs|] eqn:Hget;
        [|simpl in Hs; lia].
      simpl in Hs. apply group_get_Some in Hget.
      split.
      * pose proof (H1 (t, a) vs Hget) as H1'. cbn [fst snd] in H1'.
        fold key in H1'. rewrite H1'.
        unfold entry. rewrite Hs, Hf. fold total.
        assert (Htot : (0 <? total)%nat = true) by (apply Nat.ltb_lt; lia).
        rewrite Htot. reflexivity.
      * split.
        { unfold rate. cbn [successes attempts].
          apply Qlt_shift_div_l.
          - unfold Qlt. cbn [Qnum Qden inject_Z]. lia.
          - rewrite Qmult_0_l. unfold Qlt. cbn [Qnum Qden inject_Z]. lia. }
        { apply rate_le_1. cbn [successes attempts]. lia. }
  - intros k Hk. apply H2. intros key _. apply Hk.
Qed.

(** ** Recommendations of the pattern strategy *)

Lemma reads_alike_refl s : reads_alike s s.
Proof. unfold reads_alike. auto. Qed.

Lemma reads_alike_sym s s' : reads_alike s s' -> reads_alike s' s.
Proof. intros (A & B & C). unfold reads_alike. auto. Qed.

Lemma reads_alike_trans s1 s2 s3 :
  reads_alike s1 s2 -> reads_alike s2 s3 -> reads_alike s1 s3.
Proof.
  intros (A1 & B1 & C1) (A2 & B2 & C2). unfold reads_alike.
  repeat split; [congruence | intros k; now rewrite B2 | intros k; now rewrite C2].
Qed.

Lemma default_insert_default {V} (m : gmap string V) (d : V) k k' :
  default d (<[k := default d (m !! k)]> m !! k') = default d (m !! k').
Proof.
  destruct (decide (k = k')) as [<-|Hne].
  - now rewrite lookup_insert_eq.
  - now rewrite lookup_insert_ne.
Qed.

(** A step of the loop leaves every read as it was. *)
Lemma recommend_step_reads ctx s recs e :
  reads_alike s (fst (PBL.recommend_step ctx (s, recs) e)).
Proof.
  destruct e as [k exps]. unfold PBL.recommend_step.
  destruct (PBL._is_relevant_pattern k ctx); [|apply reads_alike_refl].
  destruct (0 <? _)%nat.
  - cbn [PBL.patterns PBL.pattern_confidence PBL.pattern_success_rates].
    destruct (remove_dups _); cbn [fst]; unfold reads_alike;
      cbn [PBL.patterns PBL.pattern_confidence PBL.pattern_success_rates];
      repeat split; try reflexivity; intros;
      apply default_insert_default.
  - cbn [fst]. unfold reads_alike.
    cbn [PBL.patterns PBL.pattern_confidence PBL.pattern_success_rates].
    repeat split; try reflexivity; intros; apply default_insert_default.
Qed.

(** The recommendations a step adds depend on the state through its
    reads only. *)
Lemma recommend_step_result ctx s s' recs e :
  reads_alike s s' ->
  snd (PBL.recommend_step ctx (s, recs) e)
  = snd (PBL.recommend_step ctx (s', recs) e).
Proof.
  intros (Hp & Hr & Hc). destruct e as [k exps]. unfold PBL.recommend_step.
  destruct (PBL._is_relevant_pattern k ctx); [|reflexivity].
  cbn [PBL.patterns PBL.pattern_confidence PBL.pattern_success_rates].
  rewrite (Hr k), (Hc k).
  destruct (0 <? _)%nat; [|reflexivity].
  destruct (remove_dups _); reflexivity.
Qed.

Lemma recommend_fold_result ctx entries : forall s s' recs,
  reads_alike s s' ->
  snd (fold_left (PBL.recommend_step ctx) entries (s, recs))
  = snd (fold_left (PBL.recommend_step ctx) entries (s', recs)).
Proof.
  induction entries as [|e entries IH]; intros s s' recs Halike;
    [reflexivity|].
  cbn [fold_left].
  pose proof (recommend_step_result ctx s s' recs e Halike) as Hsnd.
  pose proof (recommend_step_reads ctx s recs e) as H1.
  pose proof (recommend_step_reads ctx s' recs e) as H2.
  destruct (PBL.recommend_step ctx (s, recs) e) as [s1 recs1].
  destruct (PBL.recommend_step ctx (s', recs) e) as [s1' recs1'].
  cbn [fst snd] in *. subst recs1'.
  apply IH.
  eapply reads_alike_trans; [apply reads_alike_sym, H1|].
  eapply reads_alike_trans; [exact Halike | exact H2].
Qed.

Lemma recommend_fold_reads ctx entries : forall s recs,
  reads_alike s (fst (fold_left (PBL.recommend_step ctx) entries (s, recs))).
Proof.
  induction entries as [|e entries IH]; intros s recs;
    [apply reads_alike_refl|].
  cbn [fold_left].
  pose proof (recommend_step_reads ctx s recs e) as H1.
  destruct (PBL.recommend_step ctx (s, recs) e) as [s1 recs1].
  cbn [fst] in H1. eapply reads_alike_trans; [exact H1 | apply IH].
Qed.

Lemma pattern_query_reads ctx s :
  reads_alike s (fst (PBL.get_recommendations ctx s)).
Proof.
  unfold PBL.get_recommendations.
  pose proof (recommend_fold_reads ctx (PBL.patterns s) s []) as H.
  destruct (fold_left _ _ _) as [s' recs]. exact H.
Qed.

Lemma pattern_query_result ctx s s' :
  reads_alike s s' ->
  snd (PBL.get_recommendations ctx s) = snd (PBL.get_recommendations ctx s').
Proof.
  intros Halike. unfold PBL.get_recommendations.
  pose proof (recommend_fold_result ctx (PBL.patterns s) s s' [] Halike) as H.
  destruct Halike as (Hp & _). rewrite Hp.
  destruct (fold_left _ _ (s, [])) as [s1 recs1].
  destruct (fold_left _ _ (s', [])) as [s1' recs1'].
  cbn [snd] in *. now subst.
Qed.

Lemma max_by_spec {A} (f : A -> nat) xs : forall best,
  max_by f best xs ∈ best :: xs
  /\ forall x, x ∈ best :: xs -> (f x <= f (max_by f best xs))%nat.
Proof.
  induction xs as [|y xs IH]; intros best; simpl.
  - split; [apply elem_of_cons; auto|].
    intros x Hx. apply list_elem_of_singleton in Hx. now subst.
  - destruct (f best <? f y)%nat eqn:E.
    + apply Nat.ltb_lt in E. destruct (IH y) as [Hin Hmax].
      split; [apply elem_of_cons; auto|].
      intros x Hx. apply elem_of_cons in Hx as [->|Hx].
      * specialize (Hmax y (proj2 (elem_of_cons _ _ _) (or_introl eq_refl))).
        lia.
      * now apply Hmax.
    + apply Nat.ltb_ge in E. destruct (IH best) as [Hin Hmax].
      split.
      * apply elem_of_cons in Hin as [->|Hin]; apply elem_of_cons; auto.
        right. apply elem_of_cons. auto.
      * intros x Hx. apply elem_of_cons in Hx as [->|Hx].
        { apply Hmax. apply elem_of_cons. auto. }
        apply elem_of_cons in Hx as [->|Hx].
        { specialize (Hmax best (proj2 (elem_of_cons _ _ _) (or_introl eq_refl))).
          lia. }
        { apply Hmax. apply elem_of_cons. auto. }
Qed.

Lemma recommend_step_backed ctx s s0 recs e :
  reads_alike s s0 ->
  e ∈ PBL.patterns s ->
  Forall (backed_by ctx s) recs ->
  Forall (backed_by ctx s) (snd (PBL.recommend_step ctx (s0, recs) e)).
Proof.
  intros (Hp & Hr & Hc) He Hrecs. destruct e as [k exps].
  unfold PBL.recommend_step.
  destruct (PBL._is_relevant_pattern k ctx) eqn:Hrel; [|exact Hrecs].
  cbn [PBL.patterns PBL.pattern_confidence PBL.pattern_success_rates].
  rewrite (Hr k), (Hc k).
  destruct (0 <? _)%nat eqn:Hatt; [|exact Hrecs].
  apply Nat.ltb_lt in Hatt.
  fold (successful exps).
  destruct (remove_dups (map action_taken (successful exps)))
    as [|a0 more] eqn:Hcand; [exact Hrecs|].
  cbn [snd]. apply Forall_app. split; [exact Hrecs|].
  apply Forall_cons. split; [|apply Forall_nil; exact I].
  set (count := fun x => length (filter (fun e => action_taken e = x)
                                        (successful exps))).
  destruct (max_by_spec count more a0) as [Hin Hmax].
  exists k, exps, (max_by count a0 more).
  split; [exact He|]. split; [exact Hrel|]. split; [exact Hatt|].
  split; [reflexivity|].
  split.
  - rewrite <- Hcand in Hin.
    apply elem_of_remove_dups, list_elem_of_fmap in Hin as (e & He' & Hin).
    exists e. auto.
  - intros b. unfold uses. fold (count b). fold (count (max_by count a0 more)).
    destruct (decide (b ∈ a0 :: more)) as [Hb|Hb]; [now apply Hmax|].
    assert (count b = 0%nat) as ->; [|lia].
    unfold count.
    destruct (filter (fun e => action_taken e = b) (successful exps))
      as [|e l] eqn:Hf; [reflexivity|].
    exfalso. apply Hb. rewrite <- Hcand.
    apply elem_of_remove_dups, list_elem_of_fmap. exists e.
    assert (He' : e ∈ filter (fun e => action_taken e = b) (successful exps)).
    { rewrite Hf. apply elem_of_cons. auto. }
    apply list_elem_of_filter in He' as [Ha He']. auto.
Qed.

Lemma recommend_fold_backed ctx s entries : forall s0 recs,
  reads_alike s s0 ->
  (forall e, e ∈ entries -> e ∈ PBL.patterns s) ->
  Forall (backed_by ctx s) recs ->
  Forall (backed_by ctx s)
         (snd (fold_left (PBL.recommend_step ctx) entries (s0, recs))).
Proof.
  induction entries as [|e entries IH]; intros s0 recs Halike Hsub Hrecs;
    [exact Hrecs|].
  cbn [fold_left].
  pose proof (recommend_step_backed ctx s s0 recs e Halike
                (Hsub e (proj2 (elem_of_cons _ _ _) (or_introl eq_refl))) Hrecs)
    as Hb.
  pose proof (recommend_step_reads ctx s0 recs e) as Hreads.
  destruct (PBL.recommend_step ctx (s0, recs) e) as [s1 recs1].
  cbn [fst snd] in *.
  apply IH; [eapply reads_alike_trans; eassumption | | exact Hb].
  intros e' He'. apply Hsub. apply elem_of_cons. auto.
Qed.

(** X20.  [PatternBasedLearning.get_recommendations] returns at most five
    recommendations, in non-increasing order of success rate times
    confidence.  Each one names a learned pattern that is relevant to the
    context and has recorded attempts, carries that pattern's success
    rate and confidence, counts its successful experiences, and
    recommends an action that at least one of them took and that none of
    their actions outnumbers. *)
Theorem pattern_recommendations_backed (ctx : Context) (s : PBL.t) :
  let recommendations := snd (PBL.get_recommendations ctx s) in
  (length recommendations <= 5)%nat
  /\ StronglySorted (desc_by PBL.key_of) recommendations
  /\ Forall (backed_by ctx s) recommendations.
Proof.
  unfold PBL.get_recommendations.
  pose proof (recommend_fold_backed ctx s (PBL.patterns s) s []
                (reads_alike_refl s) (fun e H => H) (Forall_nil_2 _)) as Hb.
  destruct (fold_left _ _ _) as [s' recs]. cbn [snd] in *.
  split; [rewrite length_take; lia|].
  split; [apply take_sorted, sort_desc_sorted|].
  apply Forall_take. apply Forall_forall. intros r Hr.
  apply (proj1 (elem_of_Permutation_proper r _ _ (sort_desc_perm PBL.key_of _)))
    in Hr.
  rewrite Forall_forall in Hb. now apply Hb.
Qed.

(** X21.  Asking for recommendations does not change what later queries
    return: a query issued after another one, for any context, yields
    what it would have yielded without it. *)
Theorem recommendations_are_repeatable (ctx1 ctx2 : Context) (self : CLS.t) :
  snd (CLS.get_recommendations ctx2 (fst (CLS.get_recommendations ctx1 self)))
  = snd (CLS.get_recommendations ctx2 self).
Proof.
  unfold CLS.get_recommendations at 2 3.
  destruct (bool_decide ("pattern_based" ∈ CLS.cfg_learning_strategies self))
    eqn:Hpb.
  - pose proof (pattern_query_reads ctx1 (CLS.pattern_based self)) as Hreads.
    destruct (PBL.get_recommendations ctx1 (CLS.pattern_based self))
      as [p1 recs1] eqn:E1. cbn [fst snd] in *.
    pose proof (pattern_query_result ctx2 _ _ Hreads) as Hres.
    unfold CLS.get_recommendations.
    cbn [CLS.cfg_learning_strategies CLS.set_pattern_based CLS.pattern_based
         CLS.meta_learning].
    rewrite Hpb.
    destruct (PBL.get_recommendations ctx2 p1) as [p2 recs2].
    destruct (PBL.get_recommendations ctx2 (CLS.pattern_based self))
      as [p2' recs2'].
    cbn [snd] in Hres. subst recs2'.
    cbn [CLS.cfg_learning_strategies CLS.set_pattern_based CLS.pattern_based
         CLS.meta_learning snd].
    reflexivity.
  - cbn [fst snd]. unfold CLS.get_recommendations. rewrite Hpb. reflexivity.
Qed.

(** ** The meta-learning recommendation *)

Lemma best_loop_spec d : forall b r,
  (forall n c, (n, c) ∈ d -> (5 < attempts c)%nat ->
               (rate c <= snd (MetaLearning.best_loop d b r))%Q)
  /\ (r <= snd (MetaLearning.best_loop d b r))%Q
  /\ (MetaLearning.best_loop d b r = (b, r)
      \/ exists n c,
           (n, c) ∈ d /\ (5 < attempts c)%nat
           /\ MetaLearning.best_loop d b r = (Some n, rate c)
           /\ (r < rate c)%Q).
Proof.
  induction d as [|[n0 c0] d IH]; intros b r; simpl.
  - split; [intros n c H; now apply elem_of_nil in H|].
    split; [apply Qle_refl | auto].
  - destruct (5 <? attempts c0)%nat eqn:E5.
    + apply Nat.ltb_lt in E5.
      destruct (Qltb r (rate c0)) eqn:Elt.
      * apply Qltb_lt in Elt.
        destruct (IH (Some n0) (rate c0)) as (Hmax & Hle & Hcase).
        split.
        { intros n c Hin H5. apply elem_of_cons in Hin as [Heq|Hin].
          - inversion Heq; subst. exact Hle.
          - exact (Hmax n c Hin H5). }
        split; [lra|].
        right. destruct Hcase as [Heq | (n & c & Hin & H5 & Heq & Hlt)].
        { exists n0, c0. split; [apply elem_of_cons; auto|]. auto. }
        { exists n, c. split; [apply elem_of_cons; auto|].
          repeat split; auto. lra. }
      * apply Qltb_ge in Elt.
        destruct (IH b r) as (Hmax & Hle & Hcase).
        split.
        { intros n c Hin H5. apply elem_of_cons in Hin as [Heq|Hin].
          - inversion Heq; subst. lra.
          - exact (Hmax n c Hin H5). }
        split; [exact Hle|].
        destruct Hcase as [Heq | (n & c & Hin & H5 & Heq & Hlt)]; [auto|].
        right. exists n, c. split; [apply elem_of_cons; auto|]. auto.
    + apply Nat.ltb_ge in E5.
      destruct (IH b r) as (Hmax & Hle & Hcase).
      split.
      { intros n c Hin H5. apply elem_of_cons in Hin as [Heq|Hin].
        - inversion Heq; subst. lia.
        - exact (Hmax n c Hin H5). }
      split; [exact Hle|].
      destruct Hcase as [Heq | (n & c & Hin & H5 & Heq & Hlt)]; [auto|].
      right. exists n, c. split; [apply elem_of_cons; auto|]. auto.
Qed.

(** X22.  The meta strategy gives at most one recommendation.  When it
    gives one, it names a strategy with more than five attempts whose
    success rate is positive and not exceeded by any other strategy with
    more than five attempts; the expected success rate is that rate and
    the confidence min(1, attempts/20).  It gives none exactly when no
    such strategy has a positive rate, or when the best one is the one
    named by the empty string. *)
Theorem meta_recommendation_best (ctx : Context) (self : MetaLearning.t) :
  let performance := MetaLearning.learning_strategies_performance self in
  NoDup (map fst performance) ->
  match MetaLearning.get_recommendations ctx self with
  | [] =>
      forall name c, (name, c) ∈ performance -> (5 < attempts c)%nat ->
        (rate c <= 0)%Q
        \/ exists c0, (EmptyString, c0) ∈ performance
                      /\ (5 < attempts c0)%nat /\ (rate c <= rate c0)%Q
  | [r] =>
      exists name c,
        (name, c) ∈ performance
        /\ name <> EmptyString
        /\ (5 < attempts c)%nat
        /\ (0 < rate c)%Q
        /\ r = strategy_recommendation name c
        /\ forall name' c', (name', c') ∈ performance ->
             (5 < attempts c')%nat -> (rate c' <= rate c)%Q
  | _ :: _ :: _ => False
  end.
Proof.
  intros performance Hnd. unfold MetaLearning.get_recommendations.
  fold performance.
  destruct (best_loop_spec performance None 0%Q) as (Hmax & Hle & Hcase).
  destruct Hcase as [Heq | (n & c & Hin & H5 & Heq & Hlt)]; rewrite Heq in *;
    cbn [snd] in *.
  - intros name c Hin H5. left. exact (Hmax name c Hin H5).
  - destruct (decide (n = EmptyString)) as [->|Hne].
    + intros name c' Hin' H5'. right. exists c.
      repeat split; [exact Hin | exact H5 | exact (Hmax name c' Hin' H5')].
    + exists n, c. split; [exact Hin|]. split; [exact Hne|].
      split; [exact H5|]. split; [exact Hlt|]. split.
      * unfold strategy_recommendation.
        now rewrite (dict_get_elem performance n c Hnd Hin).
      * intros name' c' Hin' H5'. exact (Hmax name' c' Hin' H5').
Qed.

Lemma meta_recommendation_best_witness :
  match MetaLearning.get_recommendations empty_context practised_meta with
  | [] =>
      forall name c,
        (name, c) ∈ MetaLearning.learning_strategies_performance practised_meta ->
        (5 < attempts c)%nat ->
        (rate c <= 0)%Q
        \/ exists c0,
             (EmptyString, c0)
               ∈ MetaLearning.learning_strategies_performance practised_meta
             /\ (5 < attempts c0)%nat /\ (rate c <= rate c0)%Q
  | [r] =>
      exists name c,
        (name, c) ∈ MetaLearning.learning_strategies_performance practised_meta
        /\ name <> EmptyString
        /\ (5 < attempts c)%nat
        /\ (0 < rate c)%Q
        /\ r = strategy_recommendation name c
        /\ forall name' c',
             (name', c')
               ∈ MetaLearning.learning_strategies_performance practised_meta ->
             (5 < attempts c')%nat -> (rate c' <= rate c)%Q
  | _ :: _ :: _ => False
  end.
Proof.
  apply (meta_recommendation_best empty_context practised_meta).
  simpl. apply NoDup_singleton.
Defined.

(** ** Where the system's recommendations come from *)

Lemma meta_recommendations_shape ctx m r :
  r ∈ MetaLearning.get_recommendations ctx m ->
  recommendation_type r = Some "learning_strategy"
  /\ success_rate r = None.
Proof.
  unfold MetaLearning.get_recommendations.
  destruct (MetaLearning.best_loop _ _ _) as [[name|] rate0];
    [|intros H; now apply elem_of_nil in H].
  destruct (decide (name = EmptyString));
    [intros H; now apply elem_of_nil in H|].
  intros H. apply list_elem_of_singleton in H. subst r. auto.
Qed.

Lemma knowledge_recommendations_shape ctx self r :
  r ∈ CLS._get_knowledge_base_recommendations ctx self ->
  from_knowledge self r.
Proof.
  unfold CLS._get_knowledge_base_recommendations. intros H.
  apply list_elem_of_omap in H as ([kid kn] & Hin & Hf).
  destruct (Qle_bool (CLS.success_rate_threshold self) (CLS.kn_success_rate kn))
    eqn:Hs; [|discriminate].
  destruct (Qle_bool (CLS.confidence_threshold self) (CLS.kn_confidence kn))
    eqn:Hc; [|discriminate].
  destruct (last (CLS.kn_patterns kn)) as [pattern|] eqn:Hl; [|discriminate].
  inversion Hf; subst r.
  apply Qle_bool_iff in Hs. apply Qle_bool_iff in Hc.
  exists kid, kn, pattern. auto.
Qed.

Lemma pattern_query_backed ctx s :
  Forall (backed_by ctx s) (snd (PBL.get_recommendations ctx s)).
Proof.
  unfold PBL.get_recommendations.
  pose proof (recommend_fold_backed ctx s (PBL.patterns s) s []
                (reads_alike_refl s) (fun e H => H) (Forall_nil_2 _)) as Hb.
  destruct (fold_left _ _ _) as [s' recs]. cbn [snd] in *.
  apply Forall_take. apply Forall_forall. intros r Hr.
  apply (proj1 (elem_of_Permutation_proper r _ _ (sort_desc_perm PBL.key_of _)))
    in Hr.
  rewrite Forall_forall in Hb. now apply Hb.
Qed.

Lemma sorted_lookup {A} (R : A -> A -> Prop) l :
  StronglySorted R l ->
  forall i j x y, (i < j)%nat -> l !! i = Some x -> l !! j = Some y -> R x y.
Proof.
  induction 1 as [|a l Hs IH Hall]; intros i j x y Hij Hi Hj.
  - rewrite lookup_nil in Hi. discriminate.
  - destruct j as [|j]; [lia|]. simpl in Hj.
    destruct i as [|i].
    + simpl in Hi. inversion Hi; subst a.
      rewrite Forall_forall in Hall. apply Hall.
      apply list_elem_of_lookup. eauto.
    + simpl in Hi. apply (IH i j); [lia | assumption | assumption].
Qed.

(** X23.  Every recommendation the learning system returns is a tagged
    recommendation of the pattern strategy, a tagged recommendation of
    the meta strategy, or an untagged knowledge-base entry that meets
    both thresholds and has a pattern.  A meta recommendation has no
    success rate, so its sort key is 0: nothing that follows it in the
    result has a positive key. *)
Theorem recommendation_sources (ctx : Context) (self : CLS.t) :
  let result := snd (CLS.get_recommendations ctx self) in
  Forall (fun r => from_patterns ctx self r \/ from_meta self r
                   \/ from_knowledge self r) result
  /\ forall i j r r',
       (i < j)%nat -> result !! i = Some r -> result !! j = Some r' ->
       source_strategy r = Some "meta_learning" ->
       (CLS.key_of r' <= 0)%Q.
Proof.
  intros result.
  assert (Hsrc : Forall (fun r => from_patterns ctx self r \/ from_meta self r
                                  \/ from_knowledge self r) result).
  { unfold result, CLS.get_recommendations.
    assert (Hkb : forall s1,
              CLS.knowledge_base s1 = CLS.knowledge_base self ->
              CLS.success_rate_threshold s1 = CLS.success_rate_threshold self ->
              CLS.confidence_threshold s1 = CLS.confidence_threshold self ->
              Forall (from_knowledge self)
                     (CLS._get_knowledge_base_recommendations ctx s1)).
    { intros s1 H1 H2 H3. apply Forall_forall. intros r Hr.
      apply knowledge_recommendations_shape in Hr
        as (kid & kn & pat & Hin & Hl & Hs & Hc & Hr).
      rewrite H1 in Hin. rewrite H2 in Hs. rewrite H3 in Hc.
      exists kid, kn, pat. auto. }
    assert (Hmeta : forall m,
              "meta_learning" ∈ CLS.cfg_learning_strategies self ->
              Forall (from_meta self)
                     (map (set_source_strategy "meta_learning")
                          (MetaLearning.get_recommendations ctx m))).
    { intros m Hcfg. apply Forall_forall. intros r Hr.
      apply list_elem_of_fmap in Hr as (r0 & -> & Hr0).
      apply meta_recommendations_shape in Hr0 as [Ht Hs].
      unfold from_meta. simpl. rewrite Ht.
      repeat split; auto.
      unfold CLS.key_of. simpl. rewrite Hs. simpl. lra. }
    assert (Hfin : forall l,
              Forall (fun r => from_patterns ctx self r \/ from_meta self r
                               \/ from_knowledge self r) l ->
              Forall (fun r => from_patterns ctx self r \/ from_meta self r
                               \/ from_knowledge self r)
                     (take 10 (Py.sort_desc CLS.key_of l))).
    { intros l Hl. apply Forall_take. apply Forall_forall. intros r Hr.
      apply (proj1 (elem_of_Permutation_proper r _ _
                      (sort_desc_perm CLS.key_of _))) in Hr.
      rewrite Forall_forall in Hl. now apply Hl. }
    destruct (bool_decide ("pattern_based" ∈ CLS.cfg_learning_strategies self))
      eqn:Hpb.
    - apply bool_decide_eq_true in Hpb.
      pose proof (pattern_query_backed ctx (CLS.pattern_based self))
        as Hback.
      destruct (PBL.get_recommendations ctx (CLS.pattern_based self))
        as [p' recs]. cbn [snd] in Hback.
      cbn [CLS.cfg_learning_strategies CLS.set_pattern_based
           CLS.meta_learning snd].
      apply Hfin. apply Forall_app. split.
      + destruct (bool_decide ("meta_learning"
                               ∈ CLS.cfg_learning_strategies self)) eqn:Hml.
        * apply bool_decide_eq_true in Hml. apply Forall_app. split.
          { apply Forall_forall. intros r Hr.
            apply list_elem_of_fmap in Hr as (r0 & -> & Hr0).
            left. split; [exact Hpb|]. exists r0. split; [|reflexivity].
            rewrite Forall_forall in Hback. now apply Hback. }
          { eapply Forall_impl; [apply Hmeta, Hml|]. simpl. auto. }
        * apply Forall_forall. intros r Hr.
          apply list_elem_of_fmap in Hr as (r0 & -> & Hr0).
          left. split; [exact Hpb|]. exists r0. split; [|reflexivity].
          rewrite Forall_forall in Hback. now apply Hback.
      + eapply Forall_impl; [apply Hkb; reflexivity|]. simpl. auto.
    - cbn [snd]. apply Hfin. apply Forall_app. split.
      + destruct (bool_decide ("meta_learning"
                               ∈ CLS.cfg_learning_strategies self)) eqn:Hml.
        * apply bool_decide_eq_true in Hml. simpl.
          eapply Forall_impl; [apply Hmeta, Hml|]. simpl. auto.
        * apply Forall_nil_2.
      + eapply Forall_impl; [apply Hkb; reflexivity|]. simpl. auto. }
  split; [exact Hsrc|].
  intros i j r r' Hij Hi Hj Hm.
  assert (Hsorted : StronglySorted (desc_by CLS.key_of) result).
  { unfold result. destruct (get_recommendations_shape ctx self) as [c ->].
    apply take_sorted, sort_desc_sorted. }
  pose proof (sorted_lookup _ _ Hsorted i j r r' Hij Hi Hj) as Hle.
  unfold desc_by in Hle.
  assert (Hr : (CLS.key_of r == 0)%Q).
  { rewrite Forall_forall in Hsrc.
    destruct (Hsrc r) as [Hp | [Hmeta | Hk]].
    - apply list_elem_of_lookup. eauto.
    - destruct Hp as (_ & r0 & _ & ->). simpl in Hm. discriminate.
    - now destruct Hmeta as (_ & _ & _ & _ & ?).
    - destruct Hk as (kid & kn & pat & _ & _ & _ & _ & ->). discriminate. }
  rewrite Hr in Hle. exact Hle.
Qed.

(** ** Confidence is capped by the evidence *)

Lemma dict_get_ordered_append_ne {V} (d : list (string * list V)) k x k' :
  k' <> k -> dict_get (ordered_append d k x) k' = dict_get d k'.
Proof.
  intros Hne. induction d as [|[k0 vs] d IH]; simpl.
  - destruct (decide (k = k')); congruence.
  - destruct (decide (k0 = k)) as [->|Hk]; simpl.
    + destruct (decide (k = k')); congruence.
    + destruct (decide (k0 = k')); [reflexivity | exact IH].
Qed.

Lemma learn_capped e s : capped s -> capped (fst (PBL.learn_from_experience e s)).
Proof.
  intros Hcap k c. unfold PBL.learn_from_experience. cbn [fst].
  set (key := PBL._extract_pattern_key e).
  unfold evidence_cap, frequency.
  cbn [PBL.pattern_confidence PBL.patterns].
  destruct (decide (key = k)) as [<-|Hne].
  - rewrite lookup_insert_eq. intros Hc. inversion Hc. apply Qle_refl.
  - rewrite lookup_insert_ne by assumption.
    rewrite dict_get_ordered_append_ne by congruence.
    apply Hcap.
Qed.

Lemma decay_capped d s :
  (0 < d)%Q -> (d < 1)%Q -> pattern_invariant s -> capped s ->
  capped (PBL.decay d s).
Proof.
  intros Hd0 Hd1 [Hpos _] Hcap k c. unfold PBL.decay, evidence_cap, frequency.
  cbn [PBL.pattern_confidence PBL.patterns]. rewrite lookup_fmap.
  destruct (PBL.pattern_confidence s !! k) as [c0|] eqn:E; [|discriminate].
  simpl. intros Hc. inversion Hc; subst c.
  pose proof (Hpos _ _ E) as Hc0. pose proof (Hcap _ _ E) as Hle.
  unfold evidence_cap, frequency in Hle.
  revert Hle. generalize (Qmin 1 (inject_Z (Z.of_nat
    (length (default [] (dict_get (PBL.patterns s) k)))) * (1 # 10) * 1)).
  intros cap Hle. nra.
Qed.

Lemma recommend_capped ctx s :
  pattern_invariant s -> capped s ->
  capped (fst (PBL.get_recommendations ctx s)).
Proof.
  intros [Hpos Hkeys] Hcap. unfold PBL.get_recommendations.
  destruct (recommend_fold_frame ctx (PBL.patterns s) s [] Hkeys) as [Hp Hc].
  destruct (fold_left _ _ _) as [s' recs]. simpl in *.
  intros k c. unfold evidence_cap, frequency. rewrite Hc, Hp. apply Hcap.
Qed.

Lemma reachable_capped d s :
  (0 < d)%Q -> (d < 1)%Q -> PBL.reachable d s -> capped s.
Proof.
  intros Hd0 Hd1. induction 1 as [|e s Hr IH|ctx s Hr IH|s Hr IH].
  - intros k c H. simpl in H. rewrite lookup_empty in H. discriminate.
  - now apply learn_capped.
  - apply recommend_capped; [|exact IH].
    now apply (reachable_invariant d).
  - apply decay_capped; try assumption.
    now apply (reachable_invariant d).
Qed.

(** X24.  Whatever sequence of learning, querying and decay ticks (with
    a decay rate in (0,1)) the pattern strategy has gone through, a
    stored confidence is positive and at most min(1, 0.1 * n), n being
    the number of experiences recorded under the pattern, which is at
    least one. *)
Theorem pattern_confidence_bounds (d : Q) (s : PBL.t) (k : string) (c : Q) :
  (0 < d)%Q -> (d < 1)%Q ->
  PBL.reachable d s ->
  PBL.pattern_confidence s !! k = Some c ->
  (0 < c)%Q /\ (c <= 1)%Q
  /\ (c <= inject_Z (Z.of_nat (frequency s k)) * (1 # 10))%Q
  /\ (1 <= frequency s k)%nat.
Proof.
  intros Hd0 Hd1 Hreach Hk.
  destruct (reachable_invariant d s Hd0 Hd1 Hreach) as [Hpos _].
  pose proof (Hpos _ _ Hk) as Hc0.
  pose proof (reachable_capped d s Hd0 Hd1 Hreach k c Hk) as Hcap.
  unfold evidence_cap in Hcap.
  assert (Hf : (c <= inject_Z (Z.of_nat (frequency s k)) * (1 # 10))%Q).
  { eapply Qle_trans; [exact Hcap|].
    eapply Qle_trans; [apply Q.le_min_r|].
    generalize (inject_Z (Z.of_nat (frequency s k))). intros q. lra. }
  assert (H1 : (c <= 1)%Q).
  { eapply Qle_trans; [exact Hcap | apply Q.le_min_l]. }
  repeat split; try assumption.
  destruct (frequency s k) as [|n]; [|lia].
  exfalso. change (inject_Z (Z.of_nat 0)) with 0%Q in Hf. lra.
Qed.

Lemma pattern_confidence_bounds_witness :
  (0 < 1 # 10)%Q /\ ((1 # 10) <= 1)%Q
  /\ ((1 # 10)
      <= inject_Z (Z.of_nat
           (frequency (fst (PBL.learn_from_experience sample_experience PBL.init))
              "failure_scale_up_cpu_overload_medium")) * (1 # 10))%Q
  /\ (1 <= frequency (fst (PBL.learn_from_experience sample_experience PBL.init))
             "failure_scale_up_cpu_overload_medium")%nat.
Proof.
  apply (pattern_confidence_bounds (1 # 10)
           (fst (PBL.learn_from_experience sample_experience PBL.init))
           "failure_scale_up_cpu_overload_medium" (1 # 10)).
  - reflexivity.
  - reflexivity.
  - apply PBL.reach_learn, PBL.reach_init.
  - vm_compute. reflexivity.
Defined.

(** ** Learning from one experience *)

Lemma bump_get d k ok k' :
  dict_get (MetaLearning.bump d k ok) k'
  = if decide (k' = k)
    then Some (bumped (default zero_counters (dict_get d k)) ok)
    else dict_get d k'.
Proof.
  induction d as [|[k0 c0] d IH].
  - cbn [MetaLearning.bump dict_get default].
    destruct (decide (k = k')) as [<-|H1].
    + rewrite decide_True by reflexivity.
      unfold bumped. simpl. destruct ok; reflexivity.
    + rewrite decide_False by congruence. reflexivity.
  - cbn [MetaLearning.bump dict_get].
    destruct (decide (k0 = k)) as [->|Hne]; cbn [dict_get].
    + destruct (decide (k = k')) as [<-|H1].
      * rewrite decide_True by reflexivity. reflexivity.
      * rewrite decide_False by congruence. reflexivity.
    + destruct (decide (k0 = k')) as [->|H1].
      * rewrite decide_False by congruence. reflexivity.
      * exact IH.
Qed.

Lemma bump_keys d k ok k' :
  k' ∈ map fst (MetaLearning.bump d k ok) <-> k' = k \/ k' ∈ map fst d.
Proof.
  induction d as [|[k0 c0] d IH]; simpl.
  - rewrite list_elem_of_singleton.
    split; [auto | intros [?|H']; [auto | now apply elem_of_nil in H']].
  - destruct (decide (k0 = k)) as [->|Hk]; simpl;
      rewrite !elem_of_cons; [|rewrite IH]; intuition congruence.
Qed.

Lemma bump_NoDup d k ok :
  NoDup (map fst d) -> NoDup (map fst (MetaLearning.bump d k ok)).
Proof.
  induction d as [|[k0 c0] d IH]; simpl; intros Hd.
  - apply NoDup_singleton.
  - apply NoDup_cons in Hd as [Hk0 Hd].
    destruct (decide (k0 = k)) as [->|Hk]; simpl.
    + now apply NoDup_cons.
    + apply NoDup_cons. split; [|now apply IH].
      rewrite bump_keys. intuition congruence.
Qed.

Lemma dict_get_ordered_append_eq {V} (d : list (string * list V)) k x :
  dict_get (ordered_append d k x) k = Some (default [] (dict_get d k) ++ [x]).
Proof.
  induction d as [|[k0 vs] d IH]; simpl.
  - now rewrite decide_True.
  - destruct (decide (k0 = k)) as [->|Hne]; simpl.
    + now rewrite decide_True.
    + rewrite decide_False by assumption. exact IH.
Qed.

(** X25.  [MetaLearning.learn_from_experience] credits the experience to
    exactly one strategy, the one named by the context or "unknown": its
    attempts grow by one and its successes by one when the outcome counts
    as a success; the counters of every other strategy are unchanged, no
    strategy is dropped and keys stay distinct.  The meta pattern of the
    experience is appended to the list of its experience type and no
    other list changes. *)
Theorem meta_learning_bookkeeping (e : LearningExperience)
    (self : MetaLearning.t) :
  let performance := MetaLearning.learning_strategies_performance self in
  let self' := MetaLearning.learn_from_experience e self in
  let performance' := MetaLearning.learning_strategies_performance self' in
  dict_get performance' (strategy_used_by e)
  = Some (bumped (default zero_counters
                    (dict_get performance (strategy_used_by e)))
                 (counts_as_success e))
  /\ (forall k, k <> strategy_used_by e ->
                dict_get performance' k = dict_get performance k)
  /\ (forall k, k ∈ map fst performance' <->
                k = strategy_used_by e \/ k ∈ map fst performance)
  /\ (NoDup (map fst performance) -> NoDup (map fst performance'))
  /\ (exists pattern,
        MetaLearning.mp_strategy_used pattern = strategy_used_by e
        /\ MetaLearning.mp_context_complexity pattern = ctx_size (context e)
        /\ dict_get (MetaLearning.meta_patterns self') (experience_type e)
           = Some (default [] (dict_get (MetaLearning.meta_patterns self)
                                        (experience_type e)) ++ [pattern]))
  /\ (forall k, k <> experience_type e ->
                dict_get (MetaLearning.meta_patterns self') k
                = dict_get (MetaLearning.meta_patterns self) k).
Proof.
  intros performance self' performance'.
  unfold performance', self', MetaLearning.learn_from_experience.
  cbn [MetaLearning.learning_strategies_performance MetaLearning.meta_patterns].
  fold (strategy_used_by e). fold (counts_as_success e). fold performance.
  split; [rewrite bump_get; now rewrite decide_True|].
  split; [intros k Hk; rewrite bump_get; now rewrite decide_False|].
  split; [intros k; apply bump_keys|].
  split; [apply bump_NoDup|].
  split.
  - eexists. split; [|split; [|apply dict_get_ordered_append_eq]]; reflexivity.
  - intros k Hk. now apply dict_get_ordered_append_ne.
Qed.

(** X26.  [PatternBasedLearning.learn_from_experience] files the
    experience under its pattern key: the frequency of that pattern grows
    by one, its confidence is set to min(1, 0.1 * frequency) whatever it
    had decayed to, and its counters are bumped when the outcome carries
    a success flag.  Frequencies, confidences and counters of all other
    patterns are untouched, and the returned summary reports the key, the
    new frequency and the stored confidence. *)
Theorem pattern_learning_step (e : LearningExperience) (s : PBL.t) :
  let key := PBL._extract_pattern_key e in
  let s' := fst (PBL.learn_from_experience e s) in
  let summary := snd (PBL.learn_from_experience e s) in
  frequency s' key = S (frequency s key)
  /\ PBL.pattern_confidence s' !! key
     = Some (Qmin 1 (inject_Z (Z.of_nat (S (frequency s key))) * (1 # 10) * 1))
  /\ PBL.pattern_success_rates s' !! key
     = match outcome_success e with
       | Some ok =>
           Some (bumped (default zero_counters
                           (PBL.pattern_success_rates s !! key)) ok)
       | None => PBL.pattern_success_rates s !! key
       end
  /\ (forall k, k <> key ->
        frequency s' k = frequency s k
        /\ PBL.pattern_confidence s' !! k = PBL.pattern_confidence s !! k
        /\ PBL.pattern_success_rates s' !! k
           = PBL.pattern_success_rates s !! k)
  /\ PBL.lr_pattern_key summary = key
  /\ PBL.lr_pattern_frequency summary = frequency s' key
  /\ Some (PBL.lr_confidence summary) = PBL.pattern_confidence s' !! key.
Proof.
  intros key s' summary.
  unfold s', summary, PBL.learn_from_experience, frequency.
  cbn [fst snd PBL.patterns PBL.pattern_confidence PBL.pattern_success_rates
       PBL.lr_pattern_key PBL.lr_pattern_frequency PBL.lr_confidence].
  fold key. rewrite !dict_get_ordered_append_eq. cbn [default id].
  rewrite !lookup_insert_eq.
  assert (Hlen : forall vs : list LearningExperience,
            length (vs ++ [e]) = S (length vs)).
  { intros vs. rewrite length_app. simpl. lia. }
  rewrite !Hlen.
  split; [reflexivity|]. split; [reflexivity|].
  split.
  { destruct (outcome_success e) as [ok|]; [|reflexivity].
    now rewrite lookup_insert_eq. }
  split.
  { intros k Hk. rewrite dict_get_ordered_append_ne by exact Hk.
    rewrite lookup_insert_ne by congruence.
    repeat split.
    destruct (outcome_success e) as [ok|]; [|reflexivity].
    now rewrite lookup_insert_ne by congruence. }
  repeat split.
Qed.

(** ** From learning to recommending *)

Lemma prefix_app s t : String.prefix s (s ++ t) = true.
Proof.
  induction s as [|a s IH]; simpl; [now destruct t|].
  destruct (Ascii.ascii_dec a a); [exact IH | congruence].
Qed.

Lemma prefix_app_r s t u :
  String.prefix s t = true -> String.prefix s (t ++ u) = true.
Proof.
  revert t. induction s as [|a s IH]; intros t H.
  - simpl. now destruct (t ++ u)%string.
  - destruct t as [|b t]; simpl in *; [discriminate|].
    destruct (Ascii.ascii_dec a b); [now apply IH | discriminate].
Qed.

Lemma is_substring_app_r s t u :
  is_substring s t = true -> is_substring s (t ++ u) = true.
Proof.
  induction t as [|b t IH]; intros H.
  - simpl in H. rewrite orb_false_r in H.
    destruct s; [|discriminate]. destruct u; reflexivity.
  - cbn [is_substring] in H. apply orb_true_iff in H as [H|H].
    + change (String b t ++ u)%string with (String b (t ++ u)).
      cbn [is_substring]. apply orb_true_iff. left.
      now apply (prefix_app_r s (String b t) u).
    + change (String b t ++ u)%string with (String b (t ++ u)).
      cbn [is_substring]. apply orb_true_iff. right. now apply IH.
Qed.

Lemma is_substring_app_l s t u :
  is_substring s t = true -> is_substring s (u ++ t) = true.
Proof.
  intros H. induction u as [|b u IH]; [exact H|].
  change (String b u ++ t)%string with (String b (u ++ t)).
  cbn [is_substring]. apply orb_true_iff. now right.
Qed.

Lemma is_substring_refl_app s t : is_substring s (s ++ t) = true.
Proof.
  destruct (s ++ t)%string eqn:E; cbn [is_substring];
    rewrite <- E, prefix_app; reflexivity.
Qed.

Lemma string_app_empty_r (s : string) : (s ++ "")%string = s.
Proof.
  induction s as [|a s IH]; [reflexivity|].
  change (String a (s ++ "") = String a s)%string. now f_equal.
Qed.

Lemma is_substring_refl s : is_substring s s = true.
Proof.
  pose proof (is_substring_refl_app s EmptyString) as H.
  now rewrite string_app_empty_r in H.
Qed.

Lemma key_mentions_type e :
  is_substring (experience_type e) (PBL._extract_pattern_key e) = true.
Proof.
  unfold PBL._extract_pattern_key.
  destruct (ctx_severity (context e)), (ctx_failure_type (context e));
    repeat apply is_substring_app_r; apply is_substring_refl.
Qed.

Lemma key_mentions_failure_type e ft :
  ctx_failure_type (context e) = Some ft ->
  is_substring ft (PBL._extract_pattern_key e) = true.
Proof.
  intros H. unfold PBL._extract_pattern_key. rewrite H.
  destruct (ctx_severity (context e)).
  - apply is_substring_app_r. apply is_substring_app_l.
    apply is_substring_app_l. apply is_substring_refl.
  - apply is_substring_app_l. apply is_substring_app_l.
    apply is_substring_refl.
Qed.

(** X27.  The key under which an experience is filed spells out its
    experience type and, when the context has one, its failure type; so
    the pattern is relevant to every query for that failure type or that
    experience type.  Accordingly a fresh pattern strategy that has
    learned one successful experience answers such a query with exactly
    one recommendation: the action of that experience, with success rate
    1/1, confidence 0.1 and one supporting experience. *)
Theorem learn_then_recommend (e : LearningExperience) (ctx : Context) :
  (exists ft, ctx_failure_type (context e) = Some ft
              /\ ctx_failure_type ctx = Some ft)
  \/ ctx_experience_type ctx = Some (experience_type e) ->
  PBL._is_relevant_pattern (PBL._extract_pattern_key e) ctx = true
  /\ (outcome_success e = Some true ->
      snd (PBL.get_recommendations ctx
             (fst (PBL.learn_from_experience e PBL.init)))
      = [first_recommendation e]).
Proof.
  intros Hq.
  assert (Hrel : PBL._is_relevant_pattern (PBL._extract_pattern_key e) ctx
                 = true).
  { unfold PBL._is_relevant_pattern. apply orb_true_iff.
    destruct Hq as [(ft & He & Hc) | Hc]; rewrite Hc.
    - left. now apply key_mentions_failure_type.
    - right. apply key_mentions_type. }
  split; [exact Hrel|].
  intros Hok.
  unfold PBL.get_recommendations, PBL.learn_from_experience.
  cbn [fst PBL.patterns PBL.init ordered_append fold_left].
  unfold PBL.recommend_step.
  cbn [PBL.patterns PBL.pattern_confidence PBL.pattern_success_rates PBL.init].
  rewrite Hrel, Hok.
  set (key := PBL._extract_pattern_key e).
  rewrite !(lookup_insert_eq (M:=gmap string)).
  rewrite !(lookup_empty (M:=gmap string)).
  cbn [default id successes attempts zero_counters dict_get].
  rewrite !decide_True by reflexivity.
  cbn [default id length].
  change (0 <? 1)%nat with true. cbv iota.
  rewrite filter_cons, filter_nil. rewrite Hok.
  rewrite decide_True by reflexivity.
  cbn [map remove_dups].
  destruct (decide_rel elem_of (action_taken e) []) as [Hin|_];
    [now apply elem_of_nil in Hin|].
  cbn [max_by app snd Py.sort_desc foldr Py.insert_desc take].
  reflexivity.
Qed.

Lemma learn_then_recommend_witness :
  PBL._is_relevant_pattern (PBL._extract_pattern_key sample_experience)
    cpu_query = true
  /\ (outcome_success sample_experience = Some true ->
      snd (PBL.get_recommendations cpu_query
             (fst (PBL.learn_from_experience sample_experience PBL.init)))
      = [first_recommendation sample_experience]).
Proof.
  apply (learn_then_recommend sample_experience cpu_query).
  left. exists "cpu_overload"%string. split; reflexivity.
Defined.

(** ** The health report *)

Lemma strategy_performance_lookup clock now tracking s key :
  strategy_performance (get_system_health_report clock now tracking s) !! key
  = if (0 <? attempts (counters_of s key))%nat
    then Some (rate (counters_of s key), attempts (counters_of s key))
    else None.
Proof.
  unfold get_system_health_report, counters_of. cbn [strategy_performance].
  rewrite lookup_omap.
  destruct (healing_success_rates s !! key) as [c|]; reflexivity.
Qed.

Lemma health_report_same clock now tracking s s' :
  same_but_rates s s' ->
  get_system_health_report clock now tracking s'
  = get_system_health_report clock now tracking s.
Proof.
  intros Hsame.
  assert (Hperf : strategy_performance
                    (get_system_health_report clock now tracking s')
                  = strategy_performance
                      (get_system_health_report clock now tracking s)).
  { apply map_eq. intros key. rewrite !strategy_performance_lookup.
    destruct Hsame as (_ & _ & _ & _ & _ & _ & _ & _ & Hc).
    now rewrite Hc. }
  destruct Hsame as (_ & Hfh & Hhh & Hag & _ & _ & _ & Hld & _).
  unfold get_system_health_report in *. cbn [strategy_performance] in Hperf.
  rewrite Hfh, Hhh, Hag, Hld, Hperf. reflexivity.
Qed.

(** X28.  In the health report the overall success rate is the share of
    successful records in [healing_history] and lies in [0,1]; it is 0
    when nothing has been attempted.  [strategy_performance] lists
    exactly the strategy keys with at least one attempt, each with its
    rate and attempts, so the default entries that reads of the counters
    leave behind never show up: generating a response does not change
    the report. *)
Theorem health_report_reads (clock : nat -> Q) (now : Q)
    (tracking : gmap string (list TrackingEntry)) (s : Orchestrator)
    (o : Oracle) (failure_event : FailureEvent) :
  let report := get_system_health_report clock now tracking s in
  (0 <= overall_success_rate report)%Q
  /\ (overall_success_rate report <= 1)%Q
  /\ (healing_history s = [] -> overall_success_rate report = 0%Q)
  /\ (forall key,
        strategy_performance report !! key
        = if (0 <? attempts (counters_of s key))%nat
          then Some (rate (counters_of s key), attempts (counters_of s key))
          else None)
  /\ get_system_health_report clock now tracking
       (fst (generate_healing_response o failure_event s))
     = report.
Proof.
  intros report.
  assert (Hrate : overall_success_rate report
                  = rate {| successes :=
                              length (filter
                                (fun h => success (rec_healing_result h) = true)
                                (healing_history s));
                            attempts := length (healing_history s) |}
                  \/ (overall_success_rate report = 0%Q
                      /\ healing_history s = [])).
  { unfold report, get_system_health_report. cbn [overall_success_rate].
    destruct (healing_history s) as [|h l]; [right; auto|]. left.
    reflexivity. }
  split.
  { destruct Hrate as [-> | [-> _]]; [apply rate_nonneg | apply Qle_refl]. }
  split.
  { destruct Hrate as [-> | [-> _]]; [|discriminate].
    apply rate_le_1. cbn [successes attempts]. apply length_filter. }
  split.
  { intros Hnil. unfold report, get_system_health_report.
    cbn [overall_success_rate]. rewrite Hnil. reflexivity. }
  split; [intros key; apply strategy_performance_lookup|].
  apply health_report_same. apply stays_generate.
Qed.
